(** * WallSwipe reward bot: a shallow embedding of [src/index.js]

    The bot is a set of [bot.onText] handlers over two MongoDB collections
    ([User], [LinkClick]) and the Telegram gateway.  The embedding keeps the
    shape of the source:

    - a JavaScript string is a [string] that holds the UTF-8 bytes of the
      text (a text of Unicode characters, with no unpaired surrogate); the
      character classes of the source (white space, line terminators,
      digits) are tested on the encodings of their characters, and are
      proved to be the classes of the language;
    - numbers that hold identifiers, counters, limits and millisecond
      timestamps are [Z]: this is exact up to [Number.MAX_SAFE_INTEGER],
      which the identifiers of the gateway and the counters stay below,
      and the statements about a number that is typed in a command carry
      that bound where its value matters; a value that may be [undefined]
      or [null] is an [option];
    - each [async] handler is a computation in a small state-and-exception
      monad [M] over a [World]: the two collections, the clock, and the
      trace of the calls made to the store and to the gateway.  A handler
      runs to its end before the next one starts; [console] output is left
      out;
    - the collaborators that the source only calls (the store engine, the
      gateway, the locale of the process, the environment variables) are
      gathered in an [Env] record; each call to the store or to the gateway
      may resolve or reject, as the environment decides. *)

From Stdlib Require Import ZArith Ascii.
From stdpp Require Import base option list strings pretty sorting.

Local Open Scope Z_scope.
Set Warnings "-clear-no-such-hyp".

(** ** JavaScript primitives that the handlers call *)

Module Js.

(** [s] used as a condition: the empty string is falsy. *)
Definition truthy (s : string) : bool := negb (bool_decide (s = "")).

(** [x || null] on a string that may be absent. *)
Definition or_null (o : option string) : option string :=
  match o with
  | Some s => if truthy s then Some s else None
  | None => None
  end.

(** [x || false] on a boolean that may be absent. *)
Definition or_false (o : option bool) : bool :=
  match o with
  | Some b => b
  | None => false
  end.

(** [x || ''] inside a template literal. *)
Definition or_empty (o : option string) : string :=
  match o with
  | Some s => s
  | None => ""
  end.

(** The UTF-8 bytes of a character below U+10000. *)
Definition utf8 (cp : N) : string :=
  (if cp <? 0x80 then String (ascii_of_N cp) ""
   else if cp <? 0x800 then
     String (ascii_of_N (0xC0 + cp / 0x40))
       (String (ascii_of_N (0x80 + cp mod 0x40)) "")
   else
     String (ascii_of_N (0xE0 + cp / 0x1000))
       (String (ascii_of_N (0x80 + (cp / 0x40) mod 0x40))
          (String (ascii_of_N (0x80 + cp mod 0x40)) "")))%N.

(** The text made of the characters [l]. *)
Definition encode (l : list N) : string := foldr (λ cp s, utf8 cp +:+ s) "" l.

(** The white-space characters of the language, which [\s] matches and
    [trim] and [parseInt] skip: TAB, LF, VT, FF, CR, SPACE, U+00A0, U+1680,
    U+2000 to U+200A, U+2028, U+2029, U+202F, U+205F, U+3000 and U+FEFF. *)
Definition whiteSpaceChars : list N :=
  [9; 10; 11; 12; 13; 32; 0xA0; 0x1680; 0x2000; 0x2001; 0x2002; 0x2003;
   0x2004; 0x2005; 0x2006; 0x2007; 0x2008; 0x2009; 0x200A; 0x2028; 0x2029;
   0x202F; 0x205F; 0x3000; 0xFEFF]%N.

(** The line terminators of the language, which [.] refuses: LF, CR,
    U+2028 and U+2029. *)
Definition lineTerminators : list N := [10; 13; 0x2028; 0x2029]%N.

(** The white-space characters by their bytes.  The first six are one byte
    each. *)
Definition whiteSpace1 (a : ascii) : bool :=
  let x := N_of_ascii a in
  ((9 <=? x) && (x <=? 13) || (x =? 32))%N.

(** U+00A0 is [C2 A0]. *)
Definition whiteSpace2 (a b : ascii) : bool :=
  ((N_of_ascii a =? 0xC2) && (N_of_ascii b =? 0xA0))%N.

(** U+1680 is [E1 9A 80]; U+2000 to U+200A are [E2 80 80] to [E2 80 8A];
    U+2028, U+2029 and U+202F are [E2 80 A8], [E2 80 A9] and [E2 80 AF];
    U+205F is [E2 81 9F]; U+3000 is [E3 80 80]; U+FEFF is [EF BB BF]. *)
Definition whiteSpace3 (a b c : ascii) : bool :=
  let x := N_of_ascii a in
  let y := N_of_ascii b in
  let z := N_of_ascii c in
  ((x =? 0xE1) && (y =? 0x9A) && (z =? 0x80)
   || (x =? 0xE2) && (y =? 0x80) &&
      ((0x80 <=? z) && (z <=? 0x8A) || (z =? 0xA8) || (z =? 0xA9)
       || (z =? 0xAF))
   || (x =? 0xE2) && (y =? 0x81) && (z =? 0x9F)
   || (x =? 0xE3) && (y =? 0x80) && (z =? 0x80)
   || (x =? 0xEF) && (y =? 0xBB) && (z =? 0xBF))%N.

(** The bytes that a white-space character can start with. *)
Definition whiteSpaceLead (a : ascii) : bool :=
  let x := N_of_ascii a in
  whiteSpace1 a
  || ((x =? 0xC2) || (x =? 0xE1) || (x =? 0xE2) || (x =? 0xE3)
      || (x =? 0xEF))%N.

(** What is left of [s] after one, two, ... of the white-space characters
    that [s] starts with, in this order: as many texts as [s] has leading
    white-space characters. *)
Fixpoint afterSpaces (s : string) : list string :=
  match s with
  | String a r =>
      if whiteSpace1 a then r :: afterSpaces r
      else
        match r with
        | String b r2 =>
            if whiteSpace2 a b then r2 :: afterSpaces r2
            else
              match r2 with
              | String c r3 =>
                  if whiteSpace3 a b c then r3 :: afterSpaces r3 else []
              | "" => []
              end
        | "" => []
        end
  | "" => []
  end.

(** The line terminators by their bytes: LF and CR are one byte each,
    U+2028 and U+2029 are [E2 80 A8] and [E2 80 A9]. *)
Definition lineTerminator1 (a : ascii) : bool :=
  let x := N_of_ascii a in
  ((x =? 10) || (x =? 13))%N.

Definition lineTerminator3 (a b c : ascii) : bool :=
  ((N_of_ascii a =? 0xE2) && (N_of_ascii b =? 0x80) &&
   ((N_of_ascii c =? 0xA8) || (N_of_ascii c =? 0xA9)))%N.

(** [s] starts with a line terminator. *)
Definition lineTerminatorAt (s : string) : bool :=
  match s with
  | String a r =>
      lineTerminator1 a ||
      match r with
      | String b (String c _) => lineTerminator3 a b c
      | _ => false
      end
  | "" => false
  end.

Definition isDigit (c : ascii) : bool :=
  match Ascii.is_nat c with
  | Some _ => true
  | None => false
  end.

Fixpoint takeWhile (p : ascii → bool) (s : string) : string :=
  match s with
  | String c s' => if p c then String c (takeWhile p s') else ""
  | "" => ""
  end.

(** [s.trimStart()]: [s] without all its leading white space. *)
Definition trimStart (s : string) : string := default s (last (afterSpaces s)).

(** [s.trimEnd()]: nothing is left of a text that is white space only;
    before that, the bytes of [s] stay.  (No white-space character starts
    with a continuation byte of UTF-8, so the white space found starts at a
    character.) *)
Fixpoint trimEnd (s : string) : string :=
  match s with
  | String a r =>
      if bool_decide (trimStart s = "") then "" else String a (trimEnd r)
  | "" => ""
  end.

(** [s.trim()] *)
Definition trim (s : string) : string := trimEnd (trimStart s).

(** [s.startsWith(p)]; [stripPrefix] also returns what follows [p]. *)
Fixpoint stripPrefix (p s : string) : option string :=
  match p with
  | "" => Some s
  | String a p' =>
      match s with
      | String b s' => if bool_decide (a = b) then stripPrefix p' s' else None
      | "" => None
      end
  end.

Definition startsWith (s p : string) : bool :=
  match stripPrefix p s with
  | Some _ => true
  | None => false
  end.

(** [s.substring(1)] *)
Definition substring1 (s : string) : string :=
  match s with
  | String _ s' => s'
  | "" => ""
  end.

(** [arr.includes(x)] on an array of strings. *)
Definition includes (l : list string) (x : string) : bool :=
  bool_decide (x ∈ l).

(** [Number.MAX_SAFE_INTEGER]: up to it every integer is a number of
    JavaScript, [parseInt] reads decimal digits exactly and [toString]
    prints them all. *)
Definition MAX_SAFE_INTEGER : Z := 2 ^ 53 - 1.

(** [n.toString()] and [`${n}`] for an integral number (decimal digits,
    as JavaScript prints integers below 10^21). *)
Definition toString (n : Z) : string := pretty n.

(** The value of a digit in radix 10 or 16. *)
Definition digitValue (radix : Z) (c : ascii) : option Z :=
  let n := Z.of_N (N_of_ascii c) in
  if (48 <=? n) && (n <=? 57) then Some (n - 48)
  else if (radix =? 16) && (97 <=? n) && (n <=? 102) then Some (n - 87)
  else if (radix =? 16) && (65 <=? n) && (n <=? 70) then Some (n - 55)
  else None.

(** The longest prefix of digits of [s], folded into [acc]; [seen] tells
    whether a digit was read. *)
Fixpoint parseDigits (radix : Z) (s : string) (acc : Z) (seen : bool)
  : option Z :=
  match s with
  | String c s' =>
      match digitValue radix c with
      | Some d => parseDigits radix s' (acc * radix + d) true
      | None => if seen then Some acc else None
      end
  | "" => if seen then Some acc else None
  end.

(** [parseInt(x)] with no radix: leading white space is skipped, a sign
    is read, [0x]/[0X] selects radix 16, the longest prefix of digits is
    the value; [None] is [NaN].  [parseInt(undefined)] is [NaN]. *)
Definition parseIntStr (s : string) : option Z :=
  let s0 := trimStart s in
  let '(sign, s1) :=
    match s0 with
    | String "-"%char r => (-1, r)
    | String "+"%char r => (1, r)
    | _ => (1, s0)
    end in
  let '(radix, s2) :=
    match s1 with
    | String "0"%char (String "x"%char r) => (16, r)
    | String "0"%char (String "X"%char r) => (16, r)
    | _ => (10, s1)
    end in
  match parseDigits radix s2 0 false with
  | Some v => Some (sign * v)
  | None => None
  end.

Definition parseInt (x : option string) : option Z :=
  match x with
  | Some s => parseIntStr s
  | None => None
  end.

(** [n || d] on a number: [NaN] and [0] are falsy. *)
Definition num_or (n : option Z) (d : Z) : Z :=
  match n with
  | Some v => if v =? 0 then d else v
  | None => d
  end.

End Js.

(** ** Regular expressions of the [bot.onText] registrations

    [RegExp.prototype.exec] looks for the leftmost position at which the
    pattern matches; [search] tries an anchored matcher at every suffix. *)

Module Re.

Fixpoint search {A} (m : string → option A) (s : string) : option A :=
  match m s with
  | Some r => Some r
  | None =>
      match s with
      | String _ s' => search m s'
      | "" => None
      end
  end.

(** The group [.*] : the longest run of characters up to a line
  terminator. *)
Fixpoint dotStar (s : string) : string :=
  if Js.lineTerminatorAt s then ""
  else
    match s with
    | String a r => String a (dotStar r)
    | "" => ""
    end.

(** The group [.+] *)
Definition dotPlus (s : string) : option string :=
  let x := dotStar s in
  if Js.truthy x then Some x else None.

(** [\s+] followed by the group [.+] : [\s+] is greedy, it first takes all
  the white space and then gives characters back, one at a time, until the
  group finds something to match. *)
Definition spacesThenDotPlus (s : string) : option string :=
  head (omap dotPlus (reverse (Js.afterSpaces s))).

(** [\s+] followed by the group [\d+] : the digits can only start where
  the white space ends. *)
Definition spacesThenDigits (s : string) : option string :=
  match last (Js.afterSpaces s) with
  | Some r =>
      let d := Js.takeWhile Js.isDigit r in
      if Js.truthy d then Some d else None
  | None => None
  end.

(** The pattern of [/start]: the literal, then a group [.*]; the result is
    the capture [match[1]]. *)
Definition start (text : string) : option string :=
  search (λ t, dotStar <$> Js.stripPrefix "/start" t) text.

(** [/\/stats/] *)
Definition stats (text : string) : option unit :=
  search (λ t, (λ _, ()) <$> Js.stripPrefix "/stats" t) text.

(** [/\/toplinks(?:\s+(\d+))?/] : [Some None] is a match whose capture
    is [undefined]. *)
Definition toplinks (text : string) : option (option string) :=
  search (λ t, spacesThenDigits <$> Js.stripPrefix "/toplinks" t) text.

(** [/\/recentusers(?:\s+(\d+))?/] *)
Definition recentusers (text : string) : option (option string) :=
  search (λ t, spacesThenDigits <$> Js.stripPrefix "/recentusers" t) text.

(** [/\/userinfo(?:\s+(.+))?/] *)
Definition userinfo (text : string) : option (option string) :=
  search (λ t, spacesThenDotPlus <$> Js.stripPrefix "/userinfo" t) text.

(** [/\/broadcast (.+)/] *)
Definition broadcast (text : string) : option string :=
  search (λ t, Js.stripPrefix "/broadcast " t ≫= dotPlus) text.

(** [/\/adminhelp/] *)
Definition adminhelp (text : string) : option unit :=
  search (λ t, (λ _, ()) <$> Js.stripPrefix "/adminhelp" t) text.

End Re.

(** ** Data model: the two mongoose schemas *)

Module User.
(** [userSchema].  Dates are milliseconds since the epoch.  The fields
    [createdAt]/[updatedAt] added by [timestamps: true] are never read by
    the source and are left out. *)
Record t := mk {
  userId : Z;
  username : option string;
  firstName : option string;
  lastName : option string;
  languageCode : option string;
  isBot : bool;
  isPremium : bool;
  firstSeen : Z;
  lastActive : Z;
  totalInteractions : Z;
  wallpapersViewed : list string
}.
End User.

Module LinkClick.
(** [linkClickSchema] *)
Record t := mk {
  wallpaperId : string;
  userId : Z;
  username : option string;
  timestamp : Z
}.
End LinkClick.

(** One row of the [$group] stage of [/toplinks]. *)
Record Row := { _id : string; clicks : Z }.

(** ** Messages of the gateway *)

(** [msg.from]: what Telegram supplies about the sender; every field but
    [id] may be absent. *)
Record Sender := {
  id : Z;
  is_bot : option bool;
  first_name : option string;
  last_name : option string;
  username : option string;
  language_code : option string;
  is_premium : option bool
}.

(** [msg]: the sender, [msg.chat.id] and [msg.text]. *)
Record Message := {
  from : Sender;
  chat_id : Z;
  text : option string
}.

Record Button := { btn_text : string; btn_url : string }.

(** The third argument of [bot.sendMessage]. *)
Record SendOptions := {
  parse_mode : option string;
  reply_markup : list (list Button)
}.

Definition plain : SendOptions := {| parse_mode := None; reply_markup := [] |}.
Definition html : SendOptions :=
  {| parse_mode := Some "HTML"; reply_markup := [] |}.

(** ** The world a handler runs in *)

Inductive StoreOp :=
| UserFindOne | UserSave | UserCountDocuments | UserFind
| LinkClickSave | LinkClickCountDocuments | LinkClickAggregate.

(** What a handler does to its collaborators, in order.  [ok] is the outcome
    of the call: a call that is not [ok] rejects. *)
Inductive Event :=
| EvStore (op : StoreOp) (ok : bool)
| EvSend (chat : Z) (text : string) (opts : SendOptions) (ok : bool)
| EvDelay (ms : Z).

Record World := {
  users : list User.t;
  linkclicks : list LinkClick.t;
  clock : Z;
  sends : nat;
  queries : nat;
  trace : list Event
}.

(** The collaborators the source only calls.
    - [ADMIN_USER_ID]: [process.env.ADMIN_USER_ID];
    - [tz_offset]: local time minus UTC, in milliseconds (a fixed offset);
    - [send_ok k], [store_ok k]: whether the [k]-th call of
      [bot.sendMessage], resp. the [k]-th call to the store, resolves;
    - [scan_rows], [scan_users]: the order in which the engine comes
      across the rows of a [$group] stage, resp. the documents of a
      [find], before it sorts them (a sort of the engine keeps no
      particular order among equal keys);
    - [toLocaleString], [toLocaleDateString]: the process locale. *)
Record Env := {
  ADMIN_USER_ID : option string;
  tz_offset : Z;
  send_ok : nat → bool;
  store_ok : nat → bool;
  scan_rows : list Row → list Row;
  scan_users : list User.t → list User.t;
  toLocaleString : Z → string;
  toLocaleDateString : Z → string
}.

(** How an [async] function ends: it resolves with a value or it rejects. *)
Inductive Completion (A : Type) :=
| Resolved (a : A)
| Rejected.
Arguments Resolved {A} a.
Arguments Rejected {A}.

Definition M (A : Type) : Type := World → Completion A * World.

#[global] Instance M_ret : MRet M := λ A a w, (Resolved a, w).

#[global] Instance M_bind : MBind M := λ A B f m w,
  match m w with
  | (Resolved a, w') => f a w'
  | (Rejected, w') => (Rejected, w')
  end.

(** [try { body } catch (error) { handler }] *)
Definition try_catch {A} (body handler : M A) : M A := λ w,
  match body w with
  | (Resolved a, w') => (Resolved a, w')
  | (Rejected, w') => handler w'
  end.

Definition record (e : Event) (w : World) : World :=
  {| users := users w; linkclicks := linkclicks w; clock := clock w;
     sends := sends w; queries := queries w; trace := trace w ++ [e] |}.

Definition set_users (us : list User.t) (w : World) : World :=
  {| users := us; linkclicks := linkclicks w; clock := clock w;
     sends := sends w; queries := queries w; trace := trace w |}.

Definition set_linkclicks (cs : list LinkClick.t) (w : World) : World :=
  {| users := users w; linkclicks := cs; clock := clock w;
     sends := sends w; queries := queries w; trace := trace w |}.

Definition count_send (w : World) : World :=
  {| users := users w; linkclicks := linkclicks w; clock := clock w;
     sends := S (sends w); queries := queries w; trace := trace w |}.

Definition count_query (w : World) : World :=
  {| users := users w; linkclicks := linkclicks w; clock := clock w;
     sends := sends w; queries := S (queries w); trace := trace w |}.

Definition advance (ms : Z) (w : World) : World :=
  {| users := users w; linkclicks := linkclicks w; clock := clock w + ms;
     sends := sends w; queries := queries w; trace := trace w |}.

Definition ms_per_day : Z := 86400000.

(** [d.setHours(0, 0, 0, 0)]: the start of the local day of [d]. *)
Definition setHours0 (tz d : Z) : Z := d - (d + tz) `mod` ms_per_day.

(** [d.setDate(d.getDate() - n)] *)
Definition minusDays (d n : Z) : Z := d - n * ms_per_day.

(** [$group: { _id: '$wallpaperId', clicks: { $sum: 1 } }]: one row per
    distinct wallpaper id, with the number of documents that carry it. *)
Definition count_id (ids : list string) (k : string) : Z :=
  Z.of_nat (length (filter (λ x, x = k) ids)).

Definition group_stage (cs : list LinkClick.t) : list Row :=
  let ids := LinkClick.wallpaperId <$> cs in
  (λ k, {| _id := k; clicks := count_id ids k |}) <$> remove_dups ids.

(** The order of a sort specification [{ key: direction }]: ascending
    values of [key] for the direction [1], descending ones for [-1]. *)
Definition sort_le {A} (key : A → Z) (direction : Z) (a b : A) : Prop :=
  direction * key a ≤ direction * key b.

#[global] Instance sort_le_dec {A} (key : A → Z) (direction : Z) :
  RelDecision (sort_le key direction).
Proof. intros a b. unfold sort_le. apply _. Defined.

(** [$sort: { key: direction }] and [.sort({ key: direction })] *)
Definition sort_stage {A} (key : A → Z) (direction : Z) (l : list A)
  : list A :=
  merge_sort (sort_le key direction) l.

(** [$limit: n] *)
Definition limit_stage {A} (n : Z) (l : list A) : list A := take (Z.to_nat n) l.

Definition concat_str (l : list string) : string := foldr String.app "" l.

Definition nl : string := String "010" "".

(** U+00A0 (no-break space) and U+2028 (line separator), as they arrive in
    a text. *)
Definition nbsp : string := Js.utf8 0xA0.

Definition line_separator : string := Js.utf8 0x2028.

Section Bot.

Variable env : Env.

(** ** Calls to the collaborators *)

(** [await bot.sendMessage(chat, text, opts)] *)
Definition sendMessage (chat : Z) (body : string) (opts : SendOptions)
  : M unit := λ w,
  let ok := send_ok env (sends w) in
  let w' := record (EvSend chat body opts ok) (count_send w) in
  (if ok then Resolved () else Rejected, w').

(** A call to the store: it is recorded, and it runs only if the store
    accepts it. *)
Definition storeCall {A} (op : StoreOp) (f : World → A * World) : M A := λ w,
  let ok := store_ok env (queries w) in
  let w' := record (EvStore op ok) (count_query w) in
  if ok then let '(a, w'') := f w' in (Resolved a, w'') else (Rejected, w').

(** [await new Promise(resolve => setTimeout(resolve, ms))] *)
Definition delay (ms : Z) : M unit := λ w,
  (Resolved (), record (EvDelay ms) (advance ms w)).

(** [new Date()] *)
Definition newDate : M Z := λ w, (Resolved (clock w), w).

(** [User.findOne(filter)]: the first matching document, with its place in
    the collection (the identity under which [save] writes it back). *)
Definition User_findOne (p : User.t → Prop) `{!∀ u, Decision (p u)}
  : M (option (nat * User.t)) :=
  storeCall UserFindOne (λ w, (list_find p (users w), w)).

(** [doc.save()] on a document obtained from [findOne]. *)
Definition User_save_at (i : nat) (u : User.t) : M unit :=
  storeCall UserSave (λ w, ((), set_users (<[i:=u]> (users w)) w)).

(** [doc.save()] on a document made by [new User(...)]. *)
Definition User_save_new (u : User.t) : M unit :=
  storeCall UserSave (λ w, ((), set_users (users w ++ [u]) w)).

(** [User.countDocuments(filter)] *)
Definition User_countDocuments (p : User.t → bool) : M Z :=
  storeCall UserCountDocuments
    (λ w, (Z.of_nat (length (filter (λ u, p u = true) (users w))), w)).

(** [User.find({}, 'userId')] *)
Definition User_find_userId : M (list Z) :=
  storeCall UserFind (λ w, (User.userId <$> users w, w)).

(** [User.find().sort({ firstSeen: -1 }).limit(limit)] *)
Definition recent_users (limit : Z) (us : list User.t) : list User.t :=
  limit_stage limit (sort_stage User.firstSeen (-1) (scan_users env us)).

Definition User_find_recent (limit : Z) : M (list User.t) :=
  storeCall UserFind (λ w, (recent_users limit (users w), w)).

(** [linkClick.save()].  The schema requires a wallpaper id: a document
    whose [wallpaperId] is the empty string is refused by the validation,
    before any call to the store. *)
Definition LinkClick_save (c : LinkClick.t) : M unit :=
  if Js.truthy (LinkClick.wallpaperId c)
  then
    storeCall LinkClickSave
      (λ w, ((), set_linkclicks (linkclicks w ++ [c]) w))
  else λ w, (Rejected, w).

(** [LinkClick.countDocuments(filter)] *)
Definition LinkClick_countDocuments (p : LinkClick.t → bool) : M Z :=
  storeCall LinkClickCountDocuments
    (λ w, (Z.of_nat (length (filter (λ c, p c = true) (linkclicks w))), w)).

(** [LinkClick.aggregate([$group, $sort, $limit])] *)
Definition topLinks_pipeline (limit : Z) (cs : list LinkClick.t) : list Row :=
  limit_stage limit (sort_stage clicks (-1) (scan_rows env (group_stage cs))).

Definition LinkClick_aggregate (limit : Z) : M (list Row) :=
  storeCall LinkClickAggregate
    (λ w, (topLinks_pipeline limit (linkclicks w), w)).

(** ** User tracker *)

(** The update branch of [saveUserData]: the fields assigned to the
    document that [findOne] returned. *)
Definition updated_user (u : User.t) (user : Sender)
    (wallpaperId : option string) (now : Z) : User.t :=
  {| User.userId := User.userId u;
     User.username := Js.or_null (username user);
     User.firstName := Js.or_null (first_name user);
     User.lastName := Js.or_null (last_name user);
     User.languageCode := Js.or_null (language_code user);
     User.isBot := User.isBot u;
     User.isPremium := Js.or_false (is_premium user);
     User.firstSeen := User.firstSeen u;
     User.lastActive := now;
     User.totalInteractions := User.totalInteractions u + 1;
     User.wallpapersViewed :=
       match wallpaperId with
       | Some wid =>
           if Js.truthy wid && negb (Js.includes (User.wallpapersViewed u) wid)
           then User.wallpapersViewed u ++ [wid]
           else User.wallpapersViewed u
       | None => User.wallpapersViewed u
       end |}.

(** The create branch of [saveUserData]: [new User({...})], with the
    schema defaults for [firstSeen], [lastActive], [totalInteractions]. *)
Definition created_user (user : Sender) (wallpaperId : option string)
    (now : Z) : User.t :=
  {| User.userId := id user;
     User.username := Js.or_null (username user);
     User.firstName := Js.or_null (first_name user);
     User.lastName := Js.or_null (last_name user);
     User.languageCode := Js.or_null (language_code user);
     User.isBot := Js.or_false (is_bot user);
     User.isPremium := Js.or_false (is_premium user);
     User.firstSeen := now;
     User.lastActive := now;
     User.totalInteractions := 1;
     User.wallpapersViewed :=
       match wallpaperId with
       | Some wid => if Js.truthy wid then [wid] else []
       | None => []
       end |}.

(** [saveUserData(msg, wallpaperId = null)]; the result is the saved
    document, or [undefined] when the store rejected. *)
Definition saveUserData (msg : Message) (wallpaperId : option string)
  : M (option User.t) :=
  try_catch
    (let user := from msg in
     let userId := id user in
     userData ← User_findOne (λ u, User.userId u = userId);
     match userData with
     | Some (i, u) =>
         now ← newDate;
         let u' := updated_user u user wallpaperId now in
         User_save_at i u';;
         mret (Some u')
     | None =>
         now ← newDate;
         let u' := created_user user wallpaperId now in
         User_save_new u';;
         mret (Some u')
     end)
    (mret None).

(** [trackLinkClick(userId, username, wallpaperId)] *)
Definition trackLinkClick (userId : Z) (uname : option string)
    (wallpaperId : string) : M unit :=
  try_catch
    (now ← newDate;
     LinkClick_save
       {| LinkClick.wallpaperId := wallpaperId;
          LinkClick.userId := userId;
          LinkClick.username := Js.or_null uname;
          LinkClick.timestamp := now |})
    (mret ()).

(** ** Admin gate

    [ADMIN_USER_ID && userId.toString() !== ADMIN_USER_ID], the condition
    that opens every admin handler. *)
Definition unauthorized (userId : Z) : bool :=
  match ADMIN_USER_ID env with
  | Some admin =>
      Js.truthy admin && negb (bool_decide (Js.toString userId = admin))
  | None => false
  end.

Definition unauthorized_text : string := "❌ Unauthorized. Admin only command.".

(** ** The [/start] handler *)

Definition welcome_text : string :=
  "🎨 Welcome to WallSwipe! 🎨" +:+ nl +:+ nl +:+
  "Discover amazing wallpapers for your device." +:+ nl +:+
  "Join our channel to get daily wallpaper updates!".

Definition join_button : Button :=
  {| btn_text := "📢 Join WallSwipe Channel";
     btn_url := "https://t.me/WallSwipe" |}.

Definition view_button (wallpaperId : string) : Button :=
  {| btn_text := "🖼️ View Wallpaper";
     btn_url := "https://t.me/WallSwipe/" +:+ wallpaperId |}.

(** [wallpaperId] of the handler: [null] unless the trimmed capture is a
    non-empty string. *)
Definition start_wallpaperId (match1 : string) : option string :=
  let startParam := Js.trim match1 in
  if Js.truthy startParam then Some startParam else None.

Definition on_start (msg : Message) (match1 : string) : M unit :=
  let chatId := chat_id msg in
  let wallpaperId := start_wallpaperId match1 in
  saveUserData msg wallpaperId;;
  match wallpaperId with
  | Some wid => trackLinkClick (id (from msg)) (username (from msg)) wid
  | None => mret ()
  end;;
  let welcomeText :=
    match wallpaperId with
    | Some _ =>
        welcome_text +:+ nl +:+ nl +:+ "✨ Check out this amazing wallpaper!"
    | None => welcome_text
    end in
  let keyboard :=
    match wallpaperId with
    | Some wid => [[join_button]; [view_button wid]]
    | None => [[join_button]]
    end in
  try_catch
    (sendMessage chatId welcomeText
       {| parse_mode := Some "HTML"; reply_markup := keyboard |})
    (mret ()).

(** ** The [/stats] handler *)

(** The filter [{ firstSeen: { $gte: d } }]. *)
Definition firstSeen_gte (d : Z) (u : User.t) : bool := d <=? User.firstSeen u.

Definition stats_message (totalUsers newUsersToday newUsersWeek newUsersMonth
    premiumUsers totalClicks : Z) (updated : string) : string :=
  nl +:+ "📊 <b>Bot Statistics</b>" +:+ nl +:+ nl +:+
  "👥 <b>Total Users:</b> " +:+ Js.toString totalUsers +:+ nl +:+
  "✨ <b>New Today:</b> " +:+ Js.toString newUsersToday +:+ nl +:+
  "📅 <b>New This Week:</b> " +:+ Js.toString newUsersWeek +:+ nl +:+
  "📆 <b>New This Month:</b> " +:+ Js.toString newUsersMonth +:+ nl +:+
  "💎 <b>Premium Users:</b> " +:+ Js.toString premiumUsers +:+ nl +:+
  "🔗 <b>Total Link Clicks:</b> " +:+ Js.toString totalClicks +:+ nl +:+ nl +:+
  "Last updated: " +:+ updated +:+ nl +:+ "        ".

(** The handler past the admin check. *)
Definition stats_authorized (msg : Message) : M unit :=
  let chatId := chat_id msg in
  try_catch
    (totalUsers ← User_countDocuments (λ _, true);
     today ← newDate;
     let today := setHours0 (tz_offset env) today in
     newUsersToday ← User_countDocuments (firstSeen_gte today);
     last7Days ← newDate;
     let last7Days := minusDays last7Days 7 in
     newUsersWeek ← User_countDocuments (firstSeen_gte last7Days);
     last30Days ← newDate;
     let last30Days := minusDays last30Days 30 in
     newUsersMonth ← User_countDocuments (firstSeen_gte last30Days);
     premiumUsers ← User_countDocuments User.isPremium;
     totalClicks ← LinkClick_countDocuments (λ _, true);
     updated ← newDate;
     sendMessage chatId
       (stats_message totalUsers newUsersToday newUsersWeek newUsersMonth
          premiumUsers totalClicks (toLocaleString env updated))
       html)
    (sendMessage chatId "❌ Error fetching statistics." plain).

Definition on_stats (msg : Message) (_ : unit) : M unit :=
  if unauthorized (id (from msg))
  then sendMessage (chat_id msg) unauthorized_text plain
  else stats_authorized msg.

(** ** The [/toplinks] handler *)

(** [parseInt(match[1]) || 10] *)
Definition parse_limit (match1 : option string) : Z :=
  Js.num_or (Js.parseInt match1) 10.

Definition toplinks_row (index : nat) (link : Row) : string :=
  Js.toString (Z.of_nat index + 1) +:+ ". Wallpaper ID: <code>" +:+
    _id link +:+ "</code>" +:+ nl +:+
  "   📊 Clicks: " +:+ Js.toString (clicks link) +:+ nl +:+
  "   🔗 https://t.me/WallSwipe/" +:+ _id link +:+ nl +:+ nl.

Definition toplinks_message (limit : Z) (topLinks : list Row) : string :=
  "🔥 <b>Top " +:+ Js.toString limit +:+ " Performing Links</b>" +:+ nl +:+ nl
  +:+ concat_str (imap toplinks_row topLinks).

Definition toplinks_authorized (msg : Message) (limit : Z) : M unit :=
  let chatId := chat_id msg in
  try_catch
    (topLinks ← LinkClick_aggregate limit;
     if bool_decide (length topLinks = 0%nat)
     then sendMessage chatId "📊 No link clicks recorded yet." plain
     else sendMessage chatId (toplinks_message limit topLinks) html)
    (sendMessage chatId "❌ Error fetching top links." plain).

Definition on_toplinks (msg : Message) (match1 : option string) : M unit :=
  let limit := parse_limit match1 in
  if unauthorized (id (from msg))
  then sendMessage (chat_id msg) unauthorized_text plain
  else toplinks_authorized msg limit.

(** ** The [/recentusers] handler *)

Definition display_username (u : User.t) : string :=
  match User.username u with
  | Some n => if Js.truthy n then "@" +:+ n else "No username"
  | None => "No username"
  end.

Definition display_name (u : User.t) : string :=
  let name :=
    Js.trim (Js.or_empty (User.firstName u) +:+ " " +:+
             Js.or_empty (User.lastName u)) in
  if Js.truthy name then name else "No name".

Definition recentusers_row (index : nat) (user : User.t) : string :=
  let premium := if User.isPremium user then "💎" else "" in
  Js.toString (Z.of_nat index + 1) +:+ ". " +:+ display_name user +:+ " " +:+
    premium +:+ nl +:+
  "   👤 " +:+ display_username user +:+ nl +:+
  "   🆔 <code>" +:+ Js.toString (User.userId user) +:+ "</code>" +:+ nl +:+
  "   📅 Joined: " +:+ toLocaleDateString env (User.firstSeen user) +:+ nl +:+
  "   🔢 Interactions: " +:+ Js.toString (User.totalInteractions user) +:+
    nl +:+ nl.

Definition recentusers_message (limit : Z) (recentUsers : list User.t)
  : string :=
  "👥 <b>Recent " +:+ Js.toString limit +:+ " Users</b>" +:+ nl +:+ nl
  +:+ concat_str (imap recentusers_row recentUsers).

Definition recentusers_authorized (msg : Message) (limit : Z) : M unit :=
  let chatId := chat_id msg in
  try_catch
    (recentUsers ← User_find_recent limit;
     if bool_decide (length recentUsers = 0%nat)
     then sendMessage chatId "📊 No users found." plain
     else sendMessage chatId (recentusers_message limit recentUsers) html)
    (sendMessage chatId "❌ Error fetching recent users." plain).

Definition on_recentusers (msg : Message) (match1 : option string) : M unit :=
  let limit := parse_limit match1 in
  if unauthorized (id (from msg))
  then sendMessage (chat_id msg) unauthorized_text plain
  else recentusers_authorized msg limit.

(** ** The [/userinfo] handler *)

Definition userinfo_message (user : User.t) (clickCount : Z) : string :=
  let premium := if User.isPremium user then "💎 Yes" else "No" in
  let language :=
    match Js.or_null (User.languageCode user) with
    | Some l => l
    | None => "Unknown"
    end in
  "👤 <b>User Information</b>" +:+ nl +:+ nl +:+
  "<b>Name:</b> " +:+ display_name user +:+ nl +:+
  "<b>Username:</b> " +:+ display_username user +:+ nl +:+
  "<b>User ID:</b> <code>" +:+ Js.toString (User.userId user) +:+ "</code>"
    +:+ nl +:+
  "<b>Premium:</b> " +:+ premium +:+ nl +:+
  "<b>Language:</b> " +:+ language +:+ nl +:+
  "<b>First Seen:</b> " +:+ toLocaleString env (User.firstSeen user) +:+ nl +:+
  "<b>Last Active:</b> " +:+ toLocaleString env (User.lastActive user) +:+ nl
    +:+
  "<b>Total Interactions:</b> " +:+ Js.toString (User.totalInteractions user)
    +:+ nl +:+
  "<b>Link Clicks:</b> " +:+ Js.toString clickCount +:+ nl +:+
  "<b>Wallpapers Viewed:</b> " +:+
    Js.toString (Z.of_nat (length (User.wallpapersViewed user))) +:+ nl.

(** From [if (!user)] to the end of the [try] block. *)
Definition userinfo_reply (chatId : Z) (found : option (nat * User.t))
  : M unit :=
  match found with
  | None => sendMessage chatId "❌ User not found." plain
  | Some (_, user) =>
      clickCount ← LinkClick_countDocuments
        (λ c, bool_decide (LinkClick.userId c = User.userId user));
      sendMessage chatId (userinfo_message user clickCount) html
  end.

(** The [try] block and its [catch]. *)
Definition userinfo_lookup (chatId : Z) (query : string) : M unit :=
  try_catch
    (if Js.startsWith query "@" then
       let uname := Js.substring1 query in
       user ← User_findOne (λ u, User.username u = Some uname);
       userinfo_reply chatId user
     else
       match Js.parseIntStr query with
       | None => sendMessage chatId "❌ Invalid user ID." plain
       | Some userIdNum =>
           user ← User_findOne (λ u, User.userId u = userIdNum);
           userinfo_reply chatId user
       end)
    (sendMessage chatId "❌ Error fetching user information." plain).

(** The handler past the admin check. *)
Definition userinfo_authorized (msg : Message) (match1 : option string)
  : M unit :=
  let chatId := chat_id msg in
  match Js.or_null match1 with
  | None => sendMessage chatId "Usage: /userinfo <user_id or @username>" plain
  | Some query => userinfo_lookup chatId query
  end.

Definition on_userinfo (msg : Message) (match1 : option string) : M unit :=
  if unauthorized (id (from msg))
  then sendMessage (chat_id msg) unauthorized_text plain
  else userinfo_authorized msg match1.

(** ** The [/broadcast] handler *)

(** The delay after a send, in milliseconds. *)
Definition broadcast_delay : Z := 50.

(** [for (const user of users) { try {...} catch {...} }], with the two
    counters of the handler. *)
Fixpoint broadcast_loop (message : string) (recipients : list Z)
    (successCount failCount : Z) : M (Z * Z) :=
  match recipients with
  | [] => mret (successCount, failCount)
  | userId :: rest =>
      '(s, f) ← try_catch
        (sendMessage userId message html;;
         let s := successCount + 1 in
         delay broadcast_delay;;
         mret (s, failCount))
        (mret (successCount, failCount + 1));
      broadcast_loop message rest s f
  end.

Definition broadcast_start_text (n : nat) : string :=
  "📢 Starting broadcast to " +:+ Js.toString (Z.of_nat n) +:+ " users...".

Definition broadcast_done_text (successCount failCount : Z) : string :=
  "✅ Broadcast complete!" +:+ nl +:+ nl +:+
  "✔️ Sent: " +:+ Js.toString successCount +:+ nl +:+
  "❌ Failed: " +:+ Js.toString failCount.

(** The handler past the admin check. *)
Definition broadcast_authorized (msg : Message) (message : string) : M unit :=
  let chatId := chat_id msg in
  try_catch
    (recipients ← User_find_userId;
     sendMessage chatId (broadcast_start_text (length recipients)) plain;;
     '(successCount, failCount) ← broadcast_loop message recipients 0 0;
     sendMessage chatId (broadcast_done_text successCount failCount) plain)
    (sendMessage chatId "❌ Error during broadcast." plain).

Definition on_broadcast (msg : Message) (match1 : string) : M unit :=
  if unauthorized (id (from msg))
  then sendMessage (chat_id msg) unauthorized_text plain
  else broadcast_authorized msg match1.

(** ** The [/adminhelp] handler *)

Definition help_message : string :=
  nl +:+ "🔧 <b>Admin Commands</b>" +:+ nl +:+ nl +:+
  "📊 <b>/stats</b> - Get overall bot statistics" +:+ nl +:+
  "🔥 <b>/toplinks [limit]</b> - Top performing wallpaper links (default: 10)"
    +:+ nl +:+
  "👥 <b>/recentusers [limit]</b> - Recent users list (default: 10)" +:+ nl +:+
  "🔍 <b>/userinfo &lt;user_id/@username&gt;</b> - Get specific user details"
    +:+ nl +:+
  "📢 <b>/broadcast &lt;message&gt;</b> - Send message to all users" +:+ nl +:+
  "❓ <b>/adminhelp</b> - Show this help message" +:+ nl +:+ nl +:+
  "Examples:" +:+ nl +:+
  "• /toplinks 20" +:+ nl +:+
  "• /recentusers 15" +:+ nl +:+
  "• /userinfo @username" +:+ nl +:+
  "• /userinfo 123456789" +:+ nl +:+
  "• /broadcast Hello everyone! 🎨" +:+ nl +:+ "    ".

Definition adminhelp_authorized (msg : Message) : M unit :=
  sendMessage (chat_id msg) help_message html.

Definition on_adminhelp (msg : Message) (_ : unit) : M unit :=
  if unauthorized (id (from msg))
  then mret ()
  else adminhelp_authorized msg.

(** ** The command router

    [bot.processUpdate] tests the text of the message against the patterns
    in the order of their registration and calls the callback of every
    pattern that matches (the library's default, [onlyFirstMatch] unset).
    The callbacks are run one after the other; the result lists how each
    one ended. *)
Definition Dispatch : Type := list (Completion unit) * World.

Definition onText {A} (m : option A) (callback : A → M unit) (d : Dispatch)
  : Dispatch :=
  match m with
  | Some a => let '(r, w') := callback a d.2 in (d.1 ++ [r], w')
  | None => d
  end.

Definition processUpdate (msg : Message) (w : World) : Dispatch :=
  match Js.or_null (text msg) with
  | None => ([], w)
  | Some t =>
      onText (Re.adminhelp t) (on_adminhelp msg)
        (onText (Re.broadcast t) (on_broadcast msg)
           (onText (Re.userinfo t) (on_userinfo msg)
              (onText (Re.recentusers t) (on_recentusers msg)
                 (onText (Re.toplinks t) (on_toplinks msg)
                    (onText (Re.stats t) (on_stats msg)
                       (onText (Re.start t) (on_start msg) ([], w)))))))
  end.

End Bot.

(** ** Assumptions on the collaborators *)

(** Every call to the store resolves. *)
Definition store_up (env : Env) : Prop := ∀ k, store_ok env k = true.

(** The gateway accepts every message. *)
Definition gateway_up (env : Env) : Prop := ∀ k, send_ok env k = true.

(** Descending order of click counts: [{ $sort: { clicks: -1 } }]. *)
Definition clicks_ge (a b : Row) : Prop := clicks b ≤ clicks a.

#[global] Instance clicks_ge_dec : RelDecision clicks_ge.
Proof. intros a b. unfold clicks_ge. apply _. Defined.

(** Descending order of first-seen dates: [.sort({ firstSeen: -1 })]. *)
Definition firstSeen_ge (a b : User.t) : Prop :=
  User.firstSeen b ≤ User.firstSeen a.

#[global] Instance firstSeen_ge_dec : RelDecision firstSeen_ge.
Proof. intros a b. unfold firstSeen_ge. apply _. Defined.

(** The engine hands every row of the [$group] stage to the sort, once. *)
Definition rows_kept (env : Env) : Prop := ∀ l, scan_rows env l ≡ₚ l.

(** An environment to run the handlers in: an engine that scans in the
    order of insertion, UTC for the time zone, decimal milliseconds for the
    locale; the admin identifier and the two oracles are left open. *)
Definition reference_env (admin : option string) (sendOk storeOk : nat → bool)
  : Env :=
  {| ADMIN_USER_ID := admin;
     tz_offset := 0;
     send_ok := sendOk;
     store_ok := storeOk;
     scan_rows := λ l, l;
     scan_users := λ l, l;
     toLocaleString := Js.toString;
     toLocaleDateString := Js.toString |}.

Definition always : nat → bool := λ _, true.

Definition empty_world (now : Z) : World :=
  {| users := []; linkclicks := []; clock := now;
     sends := 0; queries := 0; trace := [] |}.

(** ** Sequences of interactions *)

(** A sequence of calls [saveUserData(msg, wallpaperId)], each one run to
    its end before the next. *)
Definition recordInteractions (env : Env)
    (calls : list (Message * option string)) (w : World) : World :=
  foldl (λ w c, (saveUserData env c.1 c.2 w).2) w calls.

(** The wallpaper ids that a sequence of calls supplies: the arguments the
    source takes as given ([if (wallpaperId)]). *)
Definition given_ids (calls : list (Message * option string)) : list string :=
  omap (λ c, Js.or_null c.2) calls.

(** The events a handler added to the trace. *)
Definition new_events (w w' : World) : list Event :=
  drop (length (trace w)) (trace w').

(** ** Admin commands *)

Inductive AdminCommand :=
| CmdStats
| CmdToplinks (match1 : option string)
| CmdRecentusers (match1 : option string)
| CmdUserinfo (match1 : option string)
| CmdBroadcast (match1 : string)
| CmdAdminhelp.

(** The callback registered for an admin command. *)
Definition admin_handler (env : Env) (c : AdminCommand) (msg : Message)
  : M unit :=
  match c with
  | CmdStats => on_stats env msg ()
  | CmdToplinks m => on_toplinks env msg m
  | CmdRecentusers m => on_recentusers env msg m
  | CmdUserinfo m => on_userinfo env msg m
  | CmdBroadcast m => on_broadcast env msg m
  | CmdAdminhelp => on_adminhelp env msg ()
  end.

(** The part of the callback that follows the admin check. *)
Definition admin_body (env : Env) (c : AdminCommand) (msg : Message)
  : M unit :=
  match c with
  | CmdStats => stats_authorized env msg
  | CmdToplinks m => toplinks_authorized env msg (parse_limit m)
  | CmdRecentusers m => recentusers_authorized env msg (parse_limit m)
  | CmdUserinfo m => userinfo_authorized env msg m
  | CmdBroadcast m => broadcast_authorized env msg m
  | CmdAdminhelp => adminhelp_authorized env msg
  end.

Definition is_store_event (e : Event) : bool :=
  match e with
  | EvStore _ _ => true
  | _ => false
  end.

(** A sender and a message to run the handlers on. *)
Definition sender_5 : Sender :=
  {| id := 5; is_bot := None; first_name := Some "Ada"; last_name := None;
     username := Some "ada"; language_code := Some "en";
     is_premium := None |}.

Definition msg_5 (t : string) : Message :=
  {| from := sender_5; chat_id := 5; text := Some t |}.

(** [countDocuments] with a filter, as a number. *)
Definition count_users (p : User.t → Prop) `{!∀ u, Decision (p u)}
    (us : list User.t) : Z :=
  Z.of_nat (length (filter p us)).

(** A record first seen at [seen], for the examples. *)
Definition user_seen (uid seen : Z) : User.t :=
  {| User.userId := uid; User.username := None; User.firstName := None;
     User.lastName := None; User.languageCode := None; User.isBot := false;
     User.isPremium := false; User.firstSeen := seen;
     User.lastActive := seen; User.totalInteractions := 1;
     User.wallpapersViewed := [] |}.

(** A store read at 01:00 UTC of the second day of the epoch: one user
    first seen at 00:00 of that day, one at 23:59 of the day before, one at
    00:30. *)
Definition stats_world : World :=
  {| users := [user_seen 1 86400000; user_seen 2 86340000;
               user_seen 3 88200000];
     linkclicks := []; clock := 90000000;
     sends := 0; queries := 0; trace := [] |}.

(** ** Profile snapshots *)

(** The five profile fields that the update branch of [saveUserData]
    assigns hold the values of the sender. *)
Definition five_fields_overwritten (user : Sender) (u : User.t) : Prop :=
  User.username u = Js.or_null (username user) ∧
  User.firstName u = Js.or_null (first_name user) ∧
  User.lastName u = Js.or_null (last_name user) ∧
  User.languageCode u = Js.or_null (language_code user) ∧
  User.isPremium u = Js.or_false (is_premium user).

(** All six profile fields hold the values of the sender. *)
Definition six_fields_overwritten (user : Sender) (u : User.t) : Prop :=
  five_fields_overwritten user u ∧
  User.isBot u = Js.or_false (is_bot user).

(** The reading of the profile claim on one interaction: if a record of the
    sender exists, the record found at its place afterwards has its six
    profile fields overwritten. *)
Definition overwrites_six_fields (env : Env) (msg : Message)
    (wid : option string) (w : World) : Prop :=
  ∀ i u,
    list_find (λ x, User.userId x = id (from msg)) (users w) = Some (i, u) →
    ∃ u', users (saveUserData env msg wid w).2 !! i = Some u' ∧
          six_fields_overwritten (from msg) u'.

(** The sender 5 seen again, now flagged as a bot by the gateway. *)
Definition sender_5_bot : Sender :=
  {| id := 5; is_bot := Some true; first_name := Some "Ada";
     last_name := None; username := Some "ada"; language_code := Some "en";
     is_premium := None |}.

Definition msg_5_bot : Message :=
  {| from := sender_5_bot; chat_id := 5; text := Some "/start" |}.

(** A store that already holds the record of user 5. *)
Definition world_with_5 : World :=
  {| users := [user_seen 5 0]; linkclicks := []; clock := 1000;
     sends := 0; queries := 0; trace := [] |}.

(** ** Replies *)




(** A gateway that refuses its calls number 0 and number 1. *)
Definition two_refusals : nat → bool := λ k, (2 <=? k)%nat.


(** [countDocuments({ userId })] on the link clicks. *)
Definition count_clicks_of (uid : Z) (cs : list LinkClick.t) : Z :=
  Z.of_nat (length (filter (λ c, LinkClick.userId c = uid) cs)).

(** ** Broadcast *)

(** What the loop of [/broadcast] does for one recipient when its send is
    the [k]-th call to the gateway: the send, and the delay if the gateway
    accepted the send. *)
Definition recipient_events (env : Env) (message : string) (k : nat) (r : Z)
  : list Event :=
  EvSend r message html (send_ok env k) ::
  (if send_ok env k then [EvDelay broadcast_delay] else []).

(** Among the [n] calls to the gateway that start at the [k0]-th, how many
    were accepted, and how many refused. *)
Definition sends_accepted (env : Env) (k0 n : nat) : Z :=
  Z.of_nat (length (filter (λ k, send_ok env k = true) (seq k0 n))).

Definition sends_refused (env : Env) (k0 n : nat) : Z :=
  Z.of_nat (length (filter (λ k, send_ok env k = false) (seq k0 n))).

(** No two sends of the broadcast text follow each other in the trace
    without something (a delay) between them. *)
Definition delay_between_sends (message : string) (evs : list Event) : Prop :=
  ∀ i r r' ok ok',
    evs !! i = Some (EvSend r message html ok) →
    evs !! S i = Some (EvSend r' message html ok') →
    False.

(** The reading of the broadcast claim on one invocation: every recipient
    whose send is accepted receives the text, a delay separates the sends,
    and the tally reports [n - |F|] and [|F|]. *)
Definition broadcast_as_claimed (env : Env) (msg : Message) (message : string)
    (w : World) : Prop :=
  let recipients := User.userId <$> users w in
  let n := length recipients in
  let k0 := S (sends w) in
  let F := sends_refused env k0 n in
  let evs := new_events w (on_broadcast env msg message w).2 in
  (∀ j r, recipients !! j = Some r → send_ok env (k0 + j) = true →
          EvSend r message html true ∈ evs) ∧
  delay_between_sends message evs ∧
  EvSend (chat_id msg) (broadcast_done_text (Z.of_nat n - F) F) plain
    (send_ok env (k0 + n)) ∈ evs.

(** Three recipients; the gateway refuses its call number 2, which is the
    send to the second recipient (call 0 is the announcement). *)
Definition three_users : World :=
  {| users := [user_seen 1 0; user_seen 2 0; user_seen 3 0];
     linkclicks := []; clock := 1000; sends := 0; queries := 0; trace := [] |}.

Definition second_fails : nat → bool := λ k, negb (k =? 2)%nat.

(** ** Top links *)

#[global] Instance Row_eq_dec : EqDecision Row.
Proof. solve_decision. Defined.

(** The click counts of the fixture: A 5, B 3, C 3, D 1, nothing else. *)
Definition fixture_count (k : string) : Z :=
  if bool_decide (k = "A") then 5
  else if bool_decide (k = "B") then 3
  else if bool_decide (k = "C") then 3
  else if bool_decide (k = "D") then 1
  else 0.

Definition click_on (k : string) : LinkClick.t :=
  {| LinkClick.wallpaperId := k; LinkClick.userId := 5;
     LinkClick.username := None; LinkClick.timestamp := 0 |}.

(** A log of clicks with the counts of the fixture. *)
Definition fixture_world : World :=
  {| users := [];
     linkclicks :=
       click_on <$> ["B"; "A"; "D"; "C"; "A"; "B"; "C"; "A"; "A"; "C"; "B";
                     "A"];
     clock := 1000; sends := 0; queries := 0; trace := [] |}.

(** The reply of [/toplinks] for the rows that the pipeline returned. *)
Definition toplinks_reply (chat : Z) (limit : Z) (rows : list Row)
  : bool → Event :=
  if bool_decide (length rows = 0%nat)
  then EvSend chat "📊 No link clicks recorded yet." plain
  else EvSend chat (toplinks_message limit rows) html.

(** ** Computations that leave the collections alone *)

(** [m] writes to neither collection, however it ends. *)
Definition read_only {A} (m : M A) : Prop :=
  ∀ w, users (m w).2 = users w ∧ linkclicks (m w).2 = linkclicks w.

(** ** Calls to the gateway in a trace *)

Definition is_gateway_event (e : Event) : bool :=
  match e with
  | EvSend _ _ _ _ => true
  | _ => false
  end.

(** The calls to the gateway among the events, in order. *)
Definition gateway_events (evs : list Event) : list Event :=
  filter (λ e, is_gateway_event e = true) evs.

(** The welcome text and the keyboard of [/start] for a wallpaper id. *)
Definition welcome_for (wallpaperId : option string) : string :=
  match wallpaperId with
  | Some _ =>
      welcome_text +:+ nl +:+ nl +:+ "✨ Check out this amazing wallpaper!"
  | None => welcome_text
  end.

Definition keyboard_for (wallpaperId : option string) : list (list Button) :=
  match wallpaperId with
  | Some wid => [[join_button]; [view_button wid]]
  | None => [[join_button]]
  end.

(** A record with every field set, for the examples. *)
Definition user_ada : User.t :=
  {| User.userId := 42; User.username := Some "ada";
     User.firstName := Some "Ada"; User.lastName := Some "Lovelace";
     User.languageCode := Some "en"; User.isBot := false;
     User.isPremium := true; User.firstSeen := 1000;
     User.lastActive := 2000; User.totalInteractions := 3;
     User.wallpapersViewed := ["wp1"; "wp2"] |}.

(** A store with two users, for the examples. *)
Definition two_users : World :=
  {| users := [user_seen 42 1000; user_seen (-7) 2000];
     linkclicks := [click_on "A"]; clock := 5000;
     sends := 0; queries := 0; trace := [] |}.

(** ** Interactions over time *)

Definition set_clock (now : Z) (w : World) : World :=
  {| users := users w; linkclicks := linkclicks w; clock := now;
     sends := sends w; queries := queries w; trace := trace w |}.

(** A sequence of calls [saveUserData(msg, wallpaperId)], each made at its
    own time. *)
Definition recordInteractionsAt (env : Env)
    (calls : list (Z * Message * option string)) (w : World) : World :=
  foldl (λ w c, (saveUserData env c.1.2 c.2 (set_clock c.1.1 w)).2) w calls.

(** A sequence of updates delivered to the router, each handled to its end
    before the next. *)
Definition processUpdates (env : Env) (msgs : list Message) (w : World)
  : World :=
  foldl (λ w msg, (processUpdate env msg w).2) w msgs.

(** The two collections agree: every link click belongs to a stored user
    who has the wallpaper among the viewed ones, and every viewed wallpaper
    of a stored user has a link click of that user. *)
Definition consistent (us : list User.t) (cs : list LinkClick.t) : Prop :=
  (∀ c, c ∈ cs →
     ∃ u, u ∈ us ∧ User.userId u = LinkClick.userId c ∧
          LinkClick.wallpaperId c ∈ User.wallpapersViewed u) ∧
  (∀ u k, u ∈ us → k ∈ User.wallpapersViewed u →
     ∃ c, c ∈ cs ∧ LinkClick.userId c = User.userId u ∧
          LinkClick.wallpaperId c = k).

Definition clicks_match_views (w : World) : Prop :=
  consistent (users w) (linkclicks w).

Definition sender_9 : Sender :=
  {| id := 9; is_bot := None; first_name := None; last_name := None;
     username := None; language_code := None; is_premium := Some true |}.

Definition msg_9 (t : string) : Message :=
  {| from := sender_9; chat_id := 9; text := Some t |}.

(** ** Recent users *)

(** The engine hands every document of the [find] to the sort, once. *)
Definition users_kept (env : Env) : Prop := ∀ l, scan_users env l ≡ₚ l.

(** The reply of [/recentusers] for the users that the query returned. *)
Definition recentusers_reply (env : Env) (chat : Z) (limit : Z)
    (rows : list User.t) : bool → Event :=
  if bool_decide (length rows = 0%nat)
  then EvSend chat "📊 No users found." plain
  else EvSend chat (recentusers_message env limit rows) html.

(** * The primitives *)

(** ** Texts *)

Lemma append_nil_l (s : string) : "" +:+ s = s.
Proof. reflexivity. Qed.

Lemma append_cons (a : ascii) (s t : string) :
  String a s +:+ t = String a (s +:+ t).
Proof. reflexivity. Qed.

Lemma append_nil_r (s : string) : s +:+ "" = s.
Proof. induction s as [|a s IH]; [done|]. by rewrite append_cons, IH. Qed.

Lemma append_assoc (s t u : string) : (s +:+ t) +:+ u = s +:+ (t +:+ u).
Proof. induction s as [|a s IH]; [done|]. by rewrite !append_cons, IH. Qed.

Lemma append_length (s t : string) :
  String.length (s +:+ t) = (String.length s + String.length t)%nat.
Proof. induction s as [|a s IH]; [done|]. rewrite append_cons. simpl. lia. Qed.

(** [stripPrefix p s] succeeds exactly when [s] is [p] followed by the
    result. *)
Lemma stripPrefix_Some p s r : Js.stripPrefix p s = Some r ↔ s = p +:+ r.
Proof.
  revert s. induction p as [|a p IH]; intros s; simpl.
  - rewrite append_nil_l. naive_solver.
  - rewrite append_cons. destruct s as [|b s]; [naive_solver|].
    case_bool_decide as Hab.
    + subst b. rewrite IH. naive_solver.
    + naive_solver.
Qed.

(** The result of [search] is the result of the matcher at the first place
    where the matcher succeeds. *)
Lemma search_leftmost {A} (m : string → option A) s r :
  Re.search m s = Some r →
  ∃ pre t,
    s = pre +:+ t ∧ m t = Some r ∧
    ∀ pre1 t1, s = pre1 +:+ t1 →
               (String.length pre1 < String.length pre)%nat → m t1 = None.
Proof.
  induction s as [|a s IH]; simpl.
  - destruct (m "") eqn:Hm; [|done]. intros [= <-]. exists "", "".
    split_and!; [done..|]. intros pre1 t1 _ Hlt. simpl in Hlt. lia.
  - destruct (m (String a s)) eqn:Hm.
    + intros [= <-]. exists "", (String a s).
      split_and!; [done..|]. intros pre1 t1 _ Hlt. simpl in Hlt. lia.
    + intros (pre & t & -> & Ht & Hfirst)%IH. exists (String a pre), t.
      split_and!; [done..|]. intros [|b pre1] t1 Heq Hlt.
      * rewrite append_nil_l in Heq. by subst t1.
      * rewrite !append_cons in Heq. injection Heq as -> Heq.
        apply (Hfirst pre1 t1 Heq). simpl in Hlt. lia.
Qed.

Lemma search_suffix {A} (m : string → option A) s r :
  Re.search m s = Some r → ∃ pre t, s = pre +:+ t ∧ m t = Some r.
Proof. intros (pre & t & Hs & Hm & _)%search_leftmost. by exists pre, t. Qed.

(** ** The character classes are those of JavaScript

    The classes are tested on bytes; they hold of the encodings of the
    white-space characters and of the line terminators of the language,
    and of nothing else. *)

Lemma N_of_ascii_eq a n : N_of_ascii a = n → a = ascii_of_N n.
Proof. intros <-. by rewrite ascii_N_embedding. Qed.

Lemma utf8_length cp : (0 < String.length (Js.utf8 cp))%nat.
Proof. unfold Js.utf8. repeat case_match; simpl; lia. Qed.

(** [s] starts with a white-space character, and [r] follows it. *)
Lemma afterSpaces_head s r :
  head (Js.afterSpaces s) = Some r ↔
  ∃ cp, cp ∈ Js.whiteSpaceChars ∧ s = Js.utf8 cp +:+ r.
Proof.
  split.
  - destruct s as [|a s]; [done|]. cbn [Js.afterSpaces].
    destruct (Js.whiteSpace1 a) eqn:H1.
    { intros [= ->]. exists (N_of_ascii a). revert H1.
      destruct a as [[] [] [] [] [] [] [] []]; try discriminate; intros _;
        (split; [apply (bool_decide_unpack _); by vm_compute|reflexivity]). }
    destruct s as [|b s]; [done|].
    destruct (Js.whiteSpace2 a b) eqn:H2.
    { intros [= ->]. exists 0xA0%N.
      split; [apply (bool_decide_unpack _); by vm_compute|].
      unfold Js.whiteSpace2 in H2.
      apply andb_true_iff in H2 as [Ha%N.eqb_eq%N_of_ascii_eq
                                     Hb%N.eqb_eq%N_of_ascii_eq].
      by subst. }
    destruct s as [|c s]; [done|].
    destruct (Js.whiteSpace3 a b c) eqn:H3; [|done].
    intros [= ->].
    unfold Js.whiteSpace3 in H3.
    rewrite !orb_true_iff, !andb_true_iff, !orb_true_iff, !andb_true_iff,
      !N.eqb_eq, !N.leb_le in H3.
    assert (∃ cp, cp ∈ Js.whiteSpaceChars ∧
              String a (String b (String c "")) = Js.utf8 cp)
      as (cp & Hcp & Heq).
    { destruct H3 as [[[[H|H]|H]|H]|H].
      - destruct H as [[Ha%N_of_ascii_eq Hb%N_of_ascii_eq] Hc%N_of_ascii_eq].
        subst. exists 0x1680%N.
        split; [apply (bool_decide_unpack _); by vm_compute|reflexivity].
      - destruct H as [[Ha%N_of_ascii_eq Hb%N_of_ascii_eq] Hc].
        assert (∃ n, N_of_ascii c = n ∧
                  n ∈ [0x80; 0x81; 0x82; 0x83; 0x84; 0x85; 0x86; 0x87; 0x88;
                       0x89; 0x8A; 0xA8; 0xA9; 0xAF]%N) as (n & Hn & Hin).
        { exists (N_of_ascii c). split; [done|].
          rewrite !elem_of_cons. lia. }
        clear Hc. apply N_of_ascii_eq in Hn. subst a b c.
        exists (0x2000 + (n - 0x80))%N.
        rewrite !elem_of_cons, elem_of_nil in Hin.
        repeat destruct Hin as [->|Hin]; try done;
          (split; [apply (bool_decide_unpack _); by vm_compute|reflexivity]).
      - destruct H as [[Ha%N_of_ascii_eq Hb%N_of_ascii_eq] Hc%N_of_ascii_eq].
        subst. exists 0x205F%N.
        split; [apply (bool_decide_unpack _); by vm_compute|reflexivity].
      - destruct H as [[Ha%N_of_ascii_eq Hb%N_of_ascii_eq] Hc%N_of_ascii_eq].
        subst. exists 0x3000%N.
        split; [apply (bool_decide_unpack _); by vm_compute|reflexivity].
      - destruct H as [[Ha%N_of_ascii_eq Hb%N_of_ascii_eq] Hc%N_of_ascii_eq].
        subst. exists 0xFEFF%N.
        split; [apply (bool_decide_unpack _); by vm_compute|reflexivity]. }
    exists cp. split; [done|]. by rewrite <-Heq.
  - intros (cp & Hcp & ->). unfold Js.whiteSpaceChars in Hcp.
    repeat (apply elem_of_cons in Hcp as [->|Hcp]; [reflexivity|]).
    by apply elem_of_nil in Hcp.
Qed.

(** [s] starts with a line terminator. *)
Lemma lineTerminatorAt_iff s :
  Js.lineTerminatorAt s = true ↔
  ∃ cp r, cp ∈ Js.lineTerminators ∧ s = Js.utf8 cp +:+ r.
Proof.
  split.
  - destruct s as [|a s]; [done|]. unfold Js.lineTerminatorAt.
    destruct (Js.lineTerminator1 a) eqn:H1.
    { intros _. exists (N_of_ascii a), s. revert H1.
      destruct a as [[] [] [] [] [] [] [] []]; try discriminate; intros _;
        (split; [apply (bool_decide_unpack _); by vm_compute|reflexivity]). }
    destruct s as [|b [|c s]]; try done. cbn [orb].
    unfold Js.lineTerminator3.
    rewrite !andb_true_iff, orb_true_iff, !N.eqb_eq.
    intros [[Ha%N_of_ascii_eq Hb%N_of_ascii_eq]
            [Hc%N_of_ascii_eq|Hc%N_of_ascii_eq]]; subst.
    + exists 0x2028%N, s.
      split; [apply (bool_decide_unpack _); by vm_compute|reflexivity].
    + exists 0x2029%N, s.
      split; [apply (bool_decide_unpack _); by vm_compute|reflexivity].
  - intros (cp & r & Hcp & ->). unfold Js.lineTerminators in Hcp.
    repeat (apply elem_of_cons in Hcp as [->|Hcp]; [reflexivity|]).
    by apply elem_of_nil in Hcp.
Qed.

(** ** Trimming *)

Lemma afterSpaces_step s :
  Js.afterSpaces s =
    match head (Js.afterSpaces s) with
    | Some r => r :: Js.afterSpaces r
    | None => []
    end.
Proof.
  destruct s as [|a s]; [done|]. cbn [Js.afterSpaces].
  destruct (Js.whiteSpace1 a); [done|].
  destruct s as [|b s]; [done|]. destruct (Js.whiteSpace2 a b); [done|].
  destruct s as [|c s]; [done|]. by destruct (Js.whiteSpace3 a b c).
Qed.

Lemma trimStart_step s r :
  head (Js.afterSpaces s) = Some r → Js.trimStart s = Js.trimStart r.
Proof.
  intros Hr. unfold Js.trimStart. rewrite (afterSpaces_step s), Hr.
  destruct (Js.afterSpaces r) as [|x l]; [done|].
  change (last (r :: x :: l)) with (last (x :: l)).
  by destruct (last (x :: l)) eqn:Hl; [|apply last_None in Hl].
Qed.

Lemma trimStart_none s :
  head (Js.afterSpaces s) = None → Js.trimStart s = s.
Proof.
  intros Hr. unfold Js.trimStart. by rewrite (afterSpaces_step s), Hr.
Qed.

(** [trimStart] removes white-space characters, and leaves a text that
    starts with none. *)
Lemma trimStart_spec s :
  ∃ run,
    Forall (λ cp, cp ∈ Js.whiteSpaceChars) run ∧
    s = Js.encode run +:+ Js.trimStart s ∧
    head (Js.afterSpaces (Js.trimStart s)) = None.
Proof.
  remember (String.length s) as n eqn:Hn.
  revert s Hn. induction (lt_wf n) as [n _ IH]. intros s ->.
  destruct (head (Js.afterSpaces s)) as [r|] eqn:Hr.
  - pose proof Hr as (cp & Hcp & Hs)%afterSpaces_head.
    destruct (IH (String.length r)) with (s := r) as (run & Hrun & Heq & Hno);
      [|done|].
    { rewrite Hs, append_length. pose proof (utf8_length cp). lia. }
    exists (cp :: run). rewrite (trimStart_step s r Hr). split_and!.
    + by constructor.
    + cbn [Js.encode foldr]. fold (Js.encode run).
      by rewrite append_assoc, <-Heq.
    + done.
  - exists []. rewrite (trimStart_none s Hr). by split_and!.
Qed.

(** [trimEnd] removes an end of the text that is white space only, and no
    longer end of the text is white space only. *)
Lemma trimEnd_spec s :
  ∃ u,
    s = Js.trimEnd s +:+ u ∧ Js.trimStart u = "" ∧
    ∀ p u', Js.trimEnd s = p +:+ u' → u' ≠ "" →
            Js.trimStart (u' +:+ u) ≠ "".
Proof.
  induction s as [|a s IH].
  - exists "". split_and!; [done..|]. intros p u' Heq. by destruct p, u'.
  - cbn [Js.trimEnd]. case_bool_decide as Hall.
    + exists (String a s). split_and!; [done..|].
      intros p u' Heq. by destruct p, u'.
    + destruct IH as (u & Hs & Hu & Hmax). exists u. split_and!.
      * rewrite append_cons. by f_equal.
      * done.
      * intros [|b p] u' Heq Hne.
        -- rewrite append_nil_l in Heq. subst u'.
           by rewrite append_cons, <-Hs.
        -- rewrite append_cons in Heq. injection Heq as -> Heq.
           by apply (Hmax p u').
Qed.

(** [trim]: the text is white space, then [trim s], then white space, and
    [trim s] neither starts nor ends with a white-space character. *)
Lemma trim_spec s :
  ∃ l r,
    Forall (λ cp, cp ∈ Js.whiteSpaceChars) l ∧
    Forall (λ cp, cp ∈ Js.whiteSpaceChars) r ∧
    s = Js.encode l +:+ Js.trim s +:+ Js.encode r ∧
    (∀ cp t, cp ∈ Js.whiteSpaceChars → Js.trim s ≠ Js.utf8 cp +:+ t) ∧
    (∀ cp t, cp ∈ Js.whiteSpaceChars → Js.trim s ≠ t +:+ Js.utf8 cp).
Proof.
  unfold Js.trim.
  destruct (trimStart_spec s) as (l & Hl & Hs & Hno).
  destruct (trimEnd_spec (Js.trimStart s)) as (u & Ht & Hu & Hmax).
  destruct (trimStart_spec u) as (r & Hr & Hur & _).
  rewrite Hu, append_nil_r in Hur.
  exists l, r. split_and!; [done..| | |].
  - by rewrite <-Hur, <-Ht.
  - intros cp t Hcp Heq.
    assert (head (Js.afterSpaces (Js.trimStart s)) = Some (t +:+ u)) as Hhd.
    { apply afterSpaces_head. exists cp. split; [done|].
      by rewrite Ht at 1; rewrite Heq, append_assoc. }
    by rewrite Hhd in Hno.
  - intros cp t Hcp Heq.
    apply (Hmax t (Js.utf8 cp) Heq).
    + pose proof (utf8_length cp) as Hlen. intros Hnil.
      rewrite Hnil in Hlen. simpl in Hlen. lia.
    + rewrite (trimStart_step (Js.utf8 cp +:+ u) u); [done|].
      apply afterSpaces_head. by exists cp.
Qed.

(** ** The group of a line *)

Lemma dotStar_eq s :
  Re.dotStar s =
    if Js.lineTerminatorAt s then ""
    else match s with String a r => String a (Re.dotStar r) | "" => "" end.
Proof. by destruct s. Qed.

Lemma lineTerminatorAt_app p q :
  Js.lineTerminatorAt p = true → Js.lineTerminatorAt (p +:+ q) = true.
Proof.
  destruct p as [|a p]; [done|]. rewrite append_cons.
  unfold Js.lineTerminatorAt. destruct (Js.lineTerminator1 a); [done|].
  by destruct p as [|b [|c p]].
Qed.

(** The group [.*] takes the text up to its end or to the first line
    terminator, and holds no line terminator. *)
Lemma dotStar_spec s :
  ∃ post,
    s = Re.dotStar s +:+ post ∧
    (post = "" ∨ ∃ cp r, cp ∈ Js.lineTerminators ∧ post = Js.utf8 cp +:+ r) ∧
    ∀ cp p q, cp ∈ Js.lineTerminators → Re.dotStar s ≠ p +:+ Js.utf8 cp +:+ q.
Proof.
  assert (∃ post,
    s = Re.dotStar s +:+ post ∧
    (post = "" ∨ Js.lineTerminatorAt post = true) ∧
    ∀ pre' post', Re.dotStar s = pre' +:+ post' → post' ≠ "" →
                  Js.lineTerminatorAt (post' +:+ post) = false)
    as (post & Hs & Hpost & Hno).
  { induction s as [|a s IH].
    - exists "". split_and!; [done|by left|].
      intros pre' post' Heq Hne. by destruct pre', post'.
    - rewrite dotStar_eq.
      destruct (Js.lineTerminatorAt (String a s)) eqn:Hlt.
      + exists (String a s). split_and!; [done|by right|].
        intros pre' post' Heq Hne. by destruct pre', post'.
      + destruct IH as (post & Hs & Hpost & Hno). exists post. split_and!.
        * rewrite append_cons. by f_equal.
        * done.
        * intros [|b pre'] post' Heq Hne.
          -- rewrite append_nil_l in Heq. subst post'.
             by rewrite append_cons, <-Hs.
          -- rewrite append_cons in Heq. injection Heq as -> Heq.
             by apply (Hno pre' post'). }
  exists post. split_and!; [done| |].
  - destruct Hpost as [->|Hlt]; [by left|]. right.
    by apply lineTerminatorAt_iff.
  - intros cp p q Hcp Heq.
    assert (Js.lineTerminatorAt (Js.utf8 cp +:+ q) = true) as Hlt.
    { apply lineTerminatorAt_iff. by exists cp, q. }
    pose proof (lineTerminatorAt_app _ post Hlt) as Ht.
    rewrite (Hno p (Js.utf8 cp +:+ q) Heq) in Ht; [done|].
    pose proof (utf8_length cp) as Hlen. intros Hnil.
    apply (f_equal String.length) in Hnil.
    rewrite append_length in Hnil. simpl in Hnil. lia.
Qed.

(** ** The primitives on examples *)


Example parseInt_examples :
  Js.parseIntStr "42" = Some 42 ∧ Js.parseIntStr "  -7x" = Some (-7) ∧
  Js.parseIntStr "0x1F" = Some 31 ∧ Js.parseIntStr "notanumber" = None ∧
  Js.parseIntStr "12abc" = Some 12 ∧ Js.parseIntStr "" = None ∧
  Js.parseIntStr "+5" = Some 5 ∧ Js.parseIntStr "-0X1f" = Some (-31) ∧
  Js.parseIntStr "- 5" = None ∧ Js.parseIntStr "5.9" = Some 5 ∧
  Js.toString 1234567890 = "1234567890" ∧ Js.trim "  wp 123 " = "wp 123" ∧
  Js.parseIntStr (nbsp +:+ line_separator +:+ "42") = Some 42 ∧
  Js.trim (nbsp +:+ " wp" +:+ nbsp +:+ "9 " +:+ line_separator +:+ nbsp) =
    "wp" +:+ nbsp +:+ "9" ∧
  Js.trim (" " +:+ nbsp +:+ line_separator) = "".
Proof. vm_compute. repeat split. Qed.

Example regex_examples :
  Re.start "/start wp123" = Some " wp123" ∧ Re.start "/start" = Some "" ∧
  Re.start "/stats" = None ∧
  Re.toplinks "/toplinks 25" = Some (Some "25") ∧
  Re.toplinks "/toplinks x" = Some None ∧
  Re.userinfo "/userinfo   " = Some (Some " ") ∧
  Re.userinfo "/userinfo @bob" = Some (Some "@bob") ∧
  Re.broadcast "/broadcast" = None ∧ Re.broadcast "/broadcast " = None ∧
  Re.broadcast "/broadcast hi all" = Some "hi all" ∧
  Re.broadcast ("/broadcast hi" +:+ line_separator +:+ "all") = Some "hi" ∧
  Re.start ("/start" +:+ nbsp +:+ "wp9" +:+ nl +:+ "x") =
    Some (nbsp +:+ "wp9") ∧
  Re.toplinks ("/toplinks" +:+ nbsp +:+ " 25") = Some (Some "25") ∧
  Re.userinfo ("/userinfo" +:+ nbsp +:+ "@bob") = Some (Some "@bob") ∧
  Re.userinfo ("/userinfo " +:+ line_separator) = Some None ∧
  Re.userinfo ("/userinfo " +:+ nbsp) = Some (Some nbsp).
Proof. vm_compute. repeat split. Qed.

(** ** The messages on examples *)

Example message_examples :
  let env := reference_env None always always in
  toplinks_message 3 [{| _id := "A"; clicks := 5 |};
                      {| _id := "C"; clicks := 3 |}] =
    "🔥 <b>Top 3 Performing Links</b>" +:+ nl +:+ nl +:+
    "1. Wallpaper ID: <code>A</code>" +:+ nl +:+
    "   📊 Clicks: 5" +:+ nl +:+
    "   🔗 https://t.me/WallSwipe/A" +:+ nl +:+ nl +:+
    "2. Wallpaper ID: <code>C</code>" +:+ nl +:+
    "   📊 Clicks: 3" +:+ nl +:+
    "   🔗 https://t.me/WallSwipe/C" +:+ nl +:+ nl ∧
  recentusers_message env 2 [user_ada; user_seen 7 5000] =
    "👥 <b>Recent 2 Users</b>" +:+ nl +:+ nl +:+
    "1. Ada Lovelace 💎" +:+ nl +:+
    "   👤 @ada" +:+ nl +:+
    "   🆔 <code>42</code>" +:+ nl +:+
    "   📅 Joined: 1000" +:+ nl +:+
    "   🔢 Interactions: 3" +:+ nl +:+ nl +:+
    "2. No name " +:+ nl +:+
    "   👤 No username" +:+ nl +:+
    "   🆔 <code>7</code>" +:+ nl +:+
    "   📅 Joined: 5000" +:+ nl +:+
    "   🔢 Interactions: 1" +:+ nl +:+ nl ∧
  userinfo_message env user_ada 4 =
    "👤 <b>User Information</b>" +:+ nl +:+ nl +:+
    "<b>Name:</b> Ada Lovelace" +:+ nl +:+
    "<b>Username:</b> @ada" +:+ nl +:+
    "<b>User ID:</b> <code>42</code>" +:+ nl +:+
    "<b>Premium:</b> 💎 Yes" +:+ nl +:+
    "<b>Language:</b> en" +:+ nl +:+
    "<b>First Seen:</b> 1000" +:+ nl +:+
    "<b>Last Active:</b> 2000" +:+ nl +:+
    "<b>Total Interactions:</b> 3" +:+ nl +:+
    "<b>Link Clicks:</b> 4" +:+ nl +:+
    "<b>Wallpapers Viewed:</b> 2" +:+ nl ∧
  userinfo_message env (user_seen 7 5000) 0 =
    "👤 <b>User Information</b>" +:+ nl +:+ nl +:+
    "<b>Name:</b> No name" +:+ nl +:+
    "<b>Username:</b> No username" +:+ nl +:+
    "<b>User ID:</b> <code>7</code>" +:+ nl +:+
    "<b>Premium:</b> No" +:+ nl +:+
    "<b>Language:</b> Unknown" +:+ nl +:+
    "<b>First Seen:</b> 5000" +:+ nl +:+
    "<b>Last Active:</b> 5000" +:+ nl +:+
    "<b>Total Interactions:</b> 1" +:+ nl +:+
    "<b>Link Clicks:</b> 0" +:+ nl +:+
    "<b>Wallpapers Viewed:</b> 0" +:+ nl ∧
  stats_message 9 1 2 3 4 7 "now" =
    nl +:+ "📊 <b>Bot Statistics</b>" +:+ nl +:+ nl +:+
    "👥 <b>Total Users:</b> 9" +:+ nl +:+
    "✨ <b>New Today:</b> 1" +:+ nl +:+
    "📅 <b>New This Week:</b> 2" +:+ nl +:+
    "📆 <b>New This Month:</b> 3" +:+ nl +:+
    "💎 <b>Premium Users:</b> 4" +:+ nl +:+
    "🔗 <b>Total Link Clicks:</b> 7" +:+ nl +:+ nl +:+
    "Last updated: now" +:+ nl +:+ "        " ∧
  welcome_for (Some "wp9") =
    "🎨 Welcome to WallSwipe! 🎨" +:+ nl +:+ nl +:+
    "Discover amazing wallpapers for your device." +:+ nl +:+
    "Join our channel to get daily wallpaper updates!" +:+ nl +:+ nl +:+
    "✨ Check out this amazing wallpaper!" ∧
  keyboard_for (Some "wp9") =
    [[{| btn_text := "📢 Join WallSwipe Channel";
         btn_url := "https://t.me/WallSwipe" |}];
     [{| btn_text := "🖼️ View Wallpaper";
         btn_url := "https://t.me/WallSwipe/wp9" |}]] ∧
  broadcast_start_text 3 = "📢 Starting broadcast to 3 users..." ∧
  broadcast_done_text 2 1 =
    "✅ Broadcast complete!" +:+ nl +:+ nl +:+
    "✔️ Sent: 2" +:+ nl +:+ "❌ Failed: 1".
Proof. vm_compute. repeat split. Qed.

(** * Running the monad *)

Lemma storeCall_ok {A} env op (f : World → A * World) w :
  store_ok env (queries w) = true →
  storeCall env op f w =
    (Resolved (f (record (EvStore op true) (count_query w))).1,
     (f (record (EvStore op true) (count_query w))).2).
Proof.
  intros Hok. unfold storeCall. rewrite Hok.
  by destruct (f _).
Qed.

Lemma sendMessage_ok env chat body opts w :
  send_ok env (sends w) = true →
  sendMessage env chat body opts w =
    (Resolved (), record (EvSend chat body opts true) (count_send w)).
Proof. intros Hok. unfold sendMessage. by rewrite Hok. Qed.

(** * The user tracker *)

Section Tracker.

Variable env : Env.
Hypothesis Hstore : store_up env.

(** First interaction: no record carries the identifier of the sender. *)
Lemma saveUserData_create msg wid w :
  list_find (λ u, User.userId u = id (from msg)) (users w) = None →
  users (saveUserData env msg wid w).2 =
    users w ++ [created_user (from msg) wid (clock w)].
Proof.
  intros Hnone. unfold saveUserData, try_catch, User_findOne.
  unfold mbind, M_bind.
  rewrite storeCall_ok by apply Hstore. simpl. rewrite Hnone. simpl.
  unfold User_save_new. rewrite storeCall_ok by apply Hstore. reflexivity.
Qed.

(** Later interaction: [findOne] returns the record at place [i]. *)
Lemma saveUserData_update msg wid w i u :
  list_find (λ u, User.userId u = id (from msg)) (users w) = Some (i, u) →
  users (saveUserData env msg wid w).2 =
    <[i := updated_user u (from msg) wid (clock w)]> (users w).
Proof.
  intros Hsome. unfold saveUserData, try_catch, User_findOne.
  unfold mbind, M_bind.
  rewrite storeCall_ok by apply Hstore. simpl. rewrite Hsome. simpl.
  unfold User_save_at. rewrite storeCall_ok by apply Hstore. reflexivity.
Qed.

Lemma saveUserData_clock msg wid w :
  clock (saveUserData env msg wid w).2 = clock w.
Proof.
  unfold saveUserData, try_catch, User_findOne.
  unfold mbind, M_bind.
  rewrite storeCall_ok by apply Hstore. simpl.
  destruct (list_find _ _) as [[i u]|]; simpl.
  - unfold User_save_at. by rewrite storeCall_ok by apply Hstore.
  - unfold User_save_new. by rewrite storeCall_ok by apply Hstore.
Qed.

End Tracker.

(** What one more call does to the viewed wallpapers of a record. *)
Lemma updated_user_viewed u user wid now k :
  k ∈ User.wallpapersViewed (updated_user u user wid now) ↔
  k ∈ User.wallpapersViewed u ∨ Js.or_null wid = Some k.
Proof.
  unfold updated_user, Js.or_null, Js.includes; simpl.
  destruct wid as [s|]; [|naive_solver].
  destruct (Js.truthy s) eqn:Ht; simpl; [|naive_solver].
  case_bool_decide as Hin; simpl.
  - split; [auto|]. intros [?|[= <-]]; done.
  - rewrite elem_of_app, list_elem_of_singleton. naive_solver.
Qed.

Lemma updated_user_NoDup u user wid now :
  NoDup (User.wallpapersViewed u) →
  NoDup (User.wallpapersViewed (updated_user u user wid now)).
Proof.
  intros Hnd. unfold updated_user, Js.includes; simpl.
  destruct wid as [s|]; [|done].
  destruct (Js.truthy s); simpl; [|done].
  case_bool_decide as Hin; simpl; [done|].
  apply NoDup_app. split_and!; [done| |apply NoDup_singleton].
  intros x Hx ->%list_elem_of_singleton. done.
Qed.

Lemma created_user_viewed user wid now k :
  k ∈ User.wallpapersViewed (created_user user wid now) ↔
  Js.or_null wid = Some k.
Proof.
  unfold created_user, Js.or_null; simpl.
  destruct wid as [s|]; [|by rewrite elem_of_nil].
  destruct (Js.truthy s); [|by rewrite elem_of_nil].
  rewrite list_elem_of_singleton. naive_solver.
Qed.

Lemma created_user_NoDup user wid now :
  NoDup (User.wallpapersViewed (created_user user wid now)).
Proof.
  unfold created_user; simpl. destruct wid as [s|]; [|constructor].
  destruct (Js.truthy s); [apply NoDup_singleton|constructor].
Qed.

(** The record of [uid] is the last of the collection and the only one that
    carries [uid]: [findOne] returns it. *)
Lemma findOne_last (l : list User.t) u uid :
  (∀ x, x ∈ l → User.userId x ≠ uid) →
  User.userId u = uid →
  list_find (λ x, User.userId x = uid) (l ++ [u]) = Some (length l, u).
Proof.
  intros Hl Hu. apply list_find_Some. split_and!.
  - by rewrite lookup_app_r, Nat.sub_diag.
  - done.
  - intros j y Hj Hlt. rewrite lookup_app_l in Hj by done.
    apply Hl. by eapply list_elem_of_lookup_2.
Qed.

Lemma findOne_absent (l : list User.t) uid :
  (∀ x, x ∈ l → User.userId x ≠ uid) →
  list_find (λ x, User.userId x = uid) l = None.
Proof.
  intros Hl. apply list_find_None, Forall_forall. intros x Hx. by apply Hl.
Qed.

Lemma filter_absent (l : list User.t) uid :
  (∀ x, x ∈ l → User.userId x ≠ uid) →
  filter (λ x, User.userId x = uid) l = [].
Proof.
  induction l as [|x l IH]; intros Hl; [done|].
  rewrite filter_cons_False by (apply Hl; left).
  apply IH. intros y Hy. apply Hl. by right.
Qed.

(** The invariant of a run of interactions of one user, once the record
    exists: it stays where it is, its counter counts the calls, and its
    viewed wallpapers are the ids given so far, without repetition. *)
Lemma recordInteractions_invariant env uid calls :
  store_up env →
  ∀ w l u (seen : list string),
  (∀ c, c ∈ calls → id (from c.1) = uid) →
  users w = l ++ [u] →
  (∀ x, x ∈ l → User.userId x ≠ uid) →
  User.userId u = uid →
  NoDup (User.wallpapersViewed u) →
  (∀ k, k ∈ User.wallpapersViewed u ↔ k ∈ seen) →
  ∃ u',
    users (recordInteractions env calls w) = l ++ [u'] ∧
    User.userId u' = uid ∧
    User.isBot u' = User.isBot u ∧
    User.firstSeen u' = User.firstSeen u ∧
    User.totalInteractions u' =
      User.totalInteractions u + Z.of_nat (length calls) ∧
    NoDup (User.wallpapersViewed u') ∧
    (∀ k, k ∈ User.wallpapersViewed u' ↔ k ∈ seen ++ given_ids calls).
Proof.
  intros Hstore. induction calls as [|[msg wid] calls IH];
    intros w l u seen Hids Hw Hl Hu Hnd Hseen.
  - exists u. simpl. rewrite app_nil_r.
    split_and!; [done..|lia|done|done].
  - simpl.
    assert (id (from msg) = uid) as Hmsg by (apply (Hids (msg, wid)); left).
    pose proof (saveUserData_update env Hstore msg wid w (length l) u) as Hstep.
    rewrite Hmsg, Hw in Hstep.
    specialize (Hstep (findOne_last l u uid Hl Hu)).
    replace (length l) with (length l + 0)%nat in Hstep by lia.
    rewrite insert_app_r in Hstep. simpl in Hstep.
    set (u1 := updated_user u (from msg) wid (clock w)) in *.
    destruct (IH (saveUserData env msg wid w).2 l u1
                (seen ++ option_list (Js.or_null wid)))
      as (u' & Hus & Hid & Hbot & Hfs & Htot & Hnd' & Hmem).
    + intros c Hc. apply Hids. by right.
    + done.
    + done.
    + done.
    + by apply updated_user_NoDup.
    + intros k. unfold u1. rewrite updated_user_viewed, Hseen, elem_of_app.
      destruct (Js.or_null wid) as [s|]; simpl.
      * rewrite list_elem_of_singleton. naive_solver.
      * rewrite elem_of_nil. naive_solver.
    + exists u'. unfold recordInteractions in Hus. split_and!; try done.
      * rewrite Htot. unfold u1; simpl. lia.
      * intros k. rewrite Hmem. unfold given_ids; simpl.
        rewrite <-(assoc_L (++)).
        destruct (Js.or_null wid) as [s|]; simpl; done.
Qed.

(** C1.  For every non-empty sequence of [saveUserData] calls that carry
    the same user identifier, run on a store that holds no record for that
    identifier and accepts every call: afterwards exactly one [User] record
    carries the identifier, its [totalInteractions] is the number of calls,
    and its [wallpapersViewed] holds each wallpaper id given in the sequence
    exactly once, however often it was given. *)
Theorem C1_one_record_per_user env uid calls w :
  store_up env →
  calls ≠ [] →
  (∀ c, c ∈ calls → id (from c.1) = uid) →
  (∀ x, x ∈ users w → User.userId x ≠ uid) →
  ∃ u,
    filter (λ x, User.userId x = uid)
      (users (recordInteractions env calls w)) = [u] ∧
    User.totalInteractions u = Z.of_nat (length calls) ∧
    NoDup (User.wallpapersViewed u) ∧
    (∀ k, k ∈ User.wallpapersViewed u ↔ k ∈ given_ids calls).
Proof.
  intros Hstore Hne Hids Hfresh.
  destruct calls as [|[msg wid] calls]; [done|].
  change (recordInteractions env ((msg, wid) :: calls) w)
    with (recordInteractions env calls (saveUserData env msg wid w).2).
  assert (id (from msg) = uid) as Hmsg by (apply (Hids (msg, wid)); left).
  pose proof (saveUserData_create env Hstore msg wid w) as Hstep.
  rewrite Hmsg in Hstep. specialize (Hstep (findOne_absent _ _ Hfresh)).
  set (u0 := created_user (from msg) wid (clock w)) in *.
  destruct (recordInteractions_invariant env uid calls Hstore
              (saveUserData env msg wid w).2 (users w) u0
              (option_list (Js.or_null wid)))
    as (u & Hus & Hid & _ & _ & Htot & Hnd & Hmem).
  - intros c Hc. apply Hids. by right.
  - done.
  - done.
  - done.
  - apply created_user_NoDup.
  - intros k. unfold u0. rewrite created_user_viewed.
    destruct (Js.or_null wid) as [s|]; simpl.
    + rewrite list_elem_of_singleton. naive_solver.
    + rewrite elem_of_nil. naive_solver.
  - exists u. rewrite Hus.
    split_and!.
    + rewrite filter_app, (filter_absent _ _ Hfresh).
      by rewrite filter_cons_True, filter_nil.
    + rewrite Htot. unfold u0; simpl length; simpl. lia.
    + done.
    + intros k. rewrite Hmem. unfold given_ids; simpl.
      destruct (Js.or_null wid) as [s|]; done.
Qed.

Lemma C1_one_record_per_user_witness :
  ∃ u,
    filter (λ x, User.userId x = 5)
      (users (recordInteractions (reference_env None always always)
                [(msg_5 "/start A", Some "A"); (msg_5 "/start A", Some "A");
                 (msg_5 "/start", None); (msg_5 "/start B", Some "B")]
                (empty_world 0))) = [u] ∧
    User.totalInteractions u = 4 ∧
    NoDup (User.wallpapersViewed u) ∧
    (∀ k, k ∈ User.wallpapersViewed u ↔ k ∈ ["A"; "A"; "B"]).
Proof.
  apply (C1_one_record_per_user (reference_env None always always) 5
           [(msg_5 "/start A", Some "A"); (msg_5 "/start A", Some "A");
            (msg_5 "/start", None); (msg_5 "/start B", Some "B")]
           (empty_world 0)).
  - intros k. reflexivity.
  - discriminate.
  - intros c Hc. repeat (apply elem_of_cons in Hc as [->|Hc]; [reflexivity|]).
    by apply elem_of_nil in Hc.
  - intros x Hx. by apply elem_of_nil in Hx.
Defined.

(** * The admin gate *)

Lemma unauthorized_mismatch env admin userId :
  Js.or_null (ADMIN_USER_ID env) = Some admin →
  Js.toString userId ≠ admin →
  unauthorized env userId = true.
Proof.
  unfold unauthorized, Js.or_null. intros Hadmin Hne.
  destruct (ADMIN_USER_ID env) as [a|]; [|done].
  destruct (Js.truthy a); [|done]. injection Hadmin as ->.
  by rewrite bool_decide_false.
Qed.

Lemma unauthorized_unset env userId :
  Js.or_null (ADMIN_USER_ID env) = None →
  unauthorized env userId = false.
Proof.
  unfold unauthorized, Js.or_null. intros Hadmin.
  destruct (ADMIN_USER_ID env) as [a|]; [|done].
  by destruct (Js.truthy a).
Qed.

Lemma new_events_app w w' evs :
  trace w' = trace w ++ evs → new_events w w' = evs.
Proof. intros H. unfold new_events. by rewrite H, drop_app_length. Qed.

(** C2.  For every admin command and every caller.  If an admin identifier
    is configured (the variable holds a non-empty string) and the caller's
    identifier, rendered as a string, differs from it, then the handler
    makes no store query and leaves both collections as they were; its only
    action is one [sendMessage] of the unauthorized reply to the chat, and
    for [/adminhelp] it does nothing at all.  If no admin identifier is
    configured, the handler is the part that follows the check, whoever the
    caller is. *)
Theorem C2_admin_gate env (c : AdminCommand) msg w :
  (∀ admin,
     Js.or_null (ADMIN_USER_ID env) = Some admin →
     Js.toString (id (from msg)) ≠ admin →
     let w' := (admin_handler env c msg w).2 in
     users w' = users w ∧ linkclicks w' = linkclicks w ∧
     queries w' = queries w ∧
     new_events w w' =
       match c with
       | CmdAdminhelp => []
       | _ => [EvSend (chat_id msg) unauthorized_text plain
                 (send_ok env (sends w))]
       end) ∧
  (Js.or_null (ADMIN_USER_ID env) = None →
   admin_handler env c msg w = admin_body env c msg w).
Proof.
  split.
  - intros admin Hadmin Hne.
    pose proof (unauthorized_mismatch env admin _ Hadmin Hne) as Hun.
    destruct c; simpl;
      unfold on_stats, on_toplinks, on_recentusers, on_userinfo,
        on_broadcast, on_adminhelp; rewrite Hun; simpl;
      (split_and!; [done..|]); apply new_events_app; simpl;
      by rewrite ?app_nil_r.
  - intros Hunset.
    pose proof (unauthorized_unset env (id (from msg)) Hunset) as Hun.
    destruct c; simpl;
      unfold on_stats, on_toplinks, on_recentusers, on_userinfo,
        on_broadcast, on_adminhelp; by rewrite Hun.
Qed.

Lemma C2_admin_gate_witness :
  (let w' := (admin_handler (reference_env (Some "1") always always)
                CmdStats (msg_5 "/stats") (empty_world 0)).2 in
   users w' = [] ∧ linkclicks w' = [] ∧ queries w' = 0%nat ∧
   new_events (empty_world 0) w' = [EvSend 5 unauthorized_text plain true]) ∧
  admin_handler (reference_env None always always)
    CmdAdminhelp (msg_5 "/adminhelp") (empty_world 0) =
  admin_body (reference_env None always always)
    CmdAdminhelp (msg_5 "/adminhelp") (empty_world 0).
Proof.
  split.
  - apply (proj1 (C2_admin_gate (reference_env (Some "1") always always)
                    CmdStats (msg_5 "/stats") (empty_world 0)) "1").
    + reflexivity.
    + vm_compute. discriminate.
  - apply (proj2 (C2_admin_gate (reference_env None always always)
                    CmdAdminhelp (msg_5 "/adminhelp") (empty_world 0))).
    reflexivity.
Defined.

(** * Read-only computations

    Every admin handler only reads the store: whatever the store and the
    gateway answer, the two collections are the same before and after. *)

Lemma read_only_ret {A} (a : A) : read_only (mret a).
Proof. by intros w. Qed.

Lemma read_only_bind {A B} (m : M A) (k : A → M B) :
  read_only m → (∀ a, read_only (k a)) → read_only (m ≫= k).
Proof.
  intros Hm Hk w. unfold mbind, M_bind.
  destruct (Hm w) as [Hu Hl]. destruct (m w) as [[a|] w1]; simpl in *.
  - destruct (Hk a w1) as [Hu' Hl']. by rewrite Hu', Hl'.
  - done.
Qed.

Lemma read_only_try_catch {A} (body handler : M A) :
  read_only body → read_only handler → read_only (try_catch body handler).
Proof.
  intros Hb Hh w. unfold try_catch.
  destruct (Hb w) as [Hu Hl]. destruct (body w) as [[a|] w1]; simpl in *.
  - done.
  - destruct (Hh w1) as [Hu' Hl']. by rewrite Hu', Hl'.
Qed.

Lemma read_only_sendMessage env chat body opts :
  read_only (sendMessage env chat body opts).
Proof. by intros w. Qed.

Lemma read_only_delay ms : read_only (delay ms).
Proof. by intros w. Qed.

Lemma read_only_newDate : read_only newDate.
Proof. by intros w. Qed.

Lemma read_only_storeCall {A} env op (f : World → A * World) :
  (∀ w, (f w).2 = w) → read_only (storeCall env op f).
Proof.
  intros Hf w. unfold storeCall.
  destruct (store_ok env (queries w)); [|done].
  specialize (Hf (record (EvStore op true) (count_query w))).
  destruct (f _) as [a w1]. simpl in *. by subst w1.
Qed.

Lemma read_only_if {A} (b : bool) (m1 m2 : M A) :
  read_only m1 → read_only m2 → read_only (if b then m1 else m2).
Proof. by destruct b. Qed.

Create HintDb read_only.

#[local] Hint Resolve read_only_ret read_only_try_catch read_only_sendMessage
  read_only_delay read_only_newDate read_only_if : read_only.

#[local] Hint Extern 1 (read_only (_ ≫= _)) =>
  apply read_only_bind; [|intros ?] : read_only.

#[local] Hint Extern 1 (read_only (storeCall _ _ _)) =>
  apply read_only_storeCall; intros ?; reflexivity : read_only.

Lemma read_only_broadcast_loop env message recipients :
  ∀ s f, read_only (broadcast_loop env message recipients s f).
Proof.
  induction recipients as [|r rest IH]; intros s f; simpl.
  - auto with read_only.
  - apply read_only_bind; [auto 6 with read_only|].
    intros [s' f']. apply IH.
Qed.

Lemma read_only_admin_body env c msg : read_only (admin_body env c msg).
Proof.
  destruct c; simpl.
  - unfold stats_authorized, User_countDocuments, LinkClick_countDocuments.
    auto 20 with read_only.
  - unfold toplinks_authorized, LinkClick_aggregate.
    auto 8 with read_only.
  - unfold recentusers_authorized, User_find_recent.
    auto 8 with read_only.
  - unfold userinfo_authorized, userinfo_lookup.
    destruct (Js.or_null match1) as [query|]; [|auto with read_only].
    assert (∀ found, read_only (userinfo_reply env (chat_id msg) found))
      as Hreply.
    { intros [[i user]|]; unfold userinfo_reply, LinkClick_countDocuments;
        auto 6 with read_only. }
    apply read_only_try_catch; [|auto with read_only].
    destruct (Js.startsWith query "@").
    + unfold User_findOne. apply read_only_bind; [auto with read_only|done].
    + destruct (Js.parseIntStr query); [|auto with read_only].
      unfold User_findOne. apply read_only_bind; [auto with read_only|done].
  - unfold broadcast_authorized, User_find_userId.
    apply read_only_try_catch; [|auto with read_only].
    apply read_only_bind; [auto with read_only|]. intros recipients.
    apply read_only_bind; [auto with read_only|]. intros _.
    apply read_only_bind; [apply read_only_broadcast_loop|].
    intros [s f]. auto with read_only.
  - unfold adminhelp_authorized. auto with read_only.
Qed.

Lemma read_only_admin_handler env c msg : read_only (admin_handler env c msg).
Proof.
  pose proof (read_only_admin_body env c msg) as Hbody.
  destruct c; simpl in *;
    unfold on_stats, on_toplinks, on_recentusers, on_userinfo, on_broadcast,
      on_adminhelp; auto with read_only.
Qed.

(** The callback of a pattern that matched leaves the [LinkClick]
    collection alone when it is read-only. *)
Lemma onText_read_only {A} (m : option A) (callback : A → M unit) d :
  (∀ a, read_only (callback a)) →
  linkclicks (onText m callback d).2 = linkclicks d.2.
Proof.
  intros Hcb. unfold onText. destruct m as [a|]; [|done].
  destruct (Hcb a d.2) as [_ Hl]. by destruct (callback a d.2).
Qed.

(** Only the [/start] callback writes link clicks: after the router has
    run every callback that matches, the [LinkClick] collection is what the
    [/start] callback left, or what it was if [/start] did not match. *)
Lemma processUpdate_linkclicks env msg t w :
  Js.or_null (text msg) = Some t →
  linkclicks (processUpdate env msg w).2 =
    match Re.start t with
    | Some match1 => linkclicks (on_start env msg match1 w).2
    | None => linkclicks w
    end.
Proof.
  intros Ht. unfold processUpdate. rewrite Ht.
  rewrite (onText_read_only _ (on_adminhelp env msg))
    by (intros []; apply (read_only_admin_handler env CmdAdminhelp)).
  rewrite (onText_read_only _ (on_broadcast env msg))
    by (intros m; apply (read_only_admin_handler env (CmdBroadcast m))).
  rewrite (onText_read_only _ (on_userinfo env msg))
    by (intros m; apply (read_only_admin_handler env (CmdUserinfo m))).
  rewrite (onText_read_only _ (on_recentusers env msg))
    by (intros m; apply (read_only_admin_handler env (CmdRecentusers m))).
  rewrite (onText_read_only _ (on_toplinks env msg))
    by (intros m; apply (read_only_admin_handler env (CmdToplinks m))).
  rewrite (onText_read_only _ (on_stats env msg))
    by (intros []; apply (read_only_admin_handler env CmdStats)).
  unfold onText. destruct (Re.start t) as [match1|]; [|done].
  cbn [fst snd]. by destruct (on_start env msg match1 w).
Qed.

(** * The [/start] handler *)

(** [saveUserData] swallows every rejection of the store. *)
Lemma saveUserData_resolves env msg wid w :
  ∃ r, (saveUserData env msg wid w).1 = Resolved r.
Proof.
  unfold saveUserData, try_catch, User_findOne, mbind, M_bind, storeCall.
  destruct (store_ok env (queries w)); simpl; [|by eexists].
  destruct (list_find _ _) as [[i u]|]; simpl;
    unfold User_save_at, User_save_new, storeCall; simpl;
    destruct (store_ok env (S (queries w))); simpl; by eexists.
Qed.

(** [saveUserData] never touches the [LinkClick] collection. *)
Lemma saveUserData_linkclicks env msg wid w :
  linkclicks (saveUserData env msg wid w).2 = linkclicks w.
Proof.
  unfold saveUserData, try_catch, User_findOne, mbind, M_bind, storeCall.
  destruct (store_ok env (queries w)); simpl; [|done].
  destruct (list_find _ _) as [[i u]|]; simpl;
    unfold User_save_at, User_save_new, storeCall; simpl;
    by destruct (store_ok env (S (queries w))).
Qed.

Lemma trackLinkClick_resolves env userId uname wid w :
  (trackLinkClick env userId uname wid w).1 = Resolved ().
Proof.
  unfold trackLinkClick, try_catch, LinkClick_save, mbind, M_bind, storeCall.
  simpl. destruct (Js.truthy wid); [|done].
  by destruct (store_ok env (queries w)).
Qed.

Lemma trackLinkClick_linkclicks env userId uname wid w :
  store_up env →
  wid ≠ "" →
  linkclicks (trackLinkClick env userId uname wid w).2 =
    linkclicks w ++
      [{| LinkClick.wallpaperId := wid; LinkClick.userId := userId;
          LinkClick.username := Js.or_null uname;
          LinkClick.timestamp := clock w |}].
Proof.
  intros Hstore Hwid.
  unfold trackLinkClick, try_catch, LinkClick_save, mbind, M_bind, storeCall.
  simpl. unfold Js.truthy. rewrite bool_decide_false by done. simpl.
  by rewrite Hstore.
Qed.

(** The welcome message is sent under [try]/[catch]: the handler resolves
    whatever the gateway answers, and only the trace records the call. *)
Lemma guarded_send env chat body opts w :
  try_catch (sendMessage env chat body opts) (mret ()) w =
    (Resolved (), (sendMessage env chat body opts w).2).
Proof.
  unfold try_catch, sendMessage. by destruct (send_ok env (sends w)).
Qed.

Lemma on_start_linkclicks env msg match1 w :
  linkclicks (on_start env msg match1 w).2 =
    match start_wallpaperId match1 with
    | Some wid =>
        linkclicks
          (trackLinkClick env (id (from msg)) (username (from msg)) wid
             (saveUserData env msg (Some wid) w).2).2
    | None => linkclicks w
    end.
Proof.
  unfold on_start.
  destruct (start_wallpaperId match1) as [wid|]; unfold mbind, M_bind.
  - destruct (saveUserData_resolves env msg (Some wid) w) as [r Hr].
    destruct (saveUserData env msg (Some wid) w) as [r1 w1].
    simpl in Hr; subst r1; simpl.
    pose proof (trackLinkClick_resolves env (id (from msg))
                  (username (from msg)) wid w1) as Ht.
    destruct (trackLinkClick _ _ _ _ w1) as [r2 w2].
    simpl in Ht; subst r2; simpl.
    by rewrite guarded_send.
  - destruct (saveUserData_resolves env msg None w) as [r Hr].
    pose proof (saveUserData_linkclicks env msg None w) as Hl.
    destruct (saveUserData env msg None w) as [r1 w1].
    simpl in Hr, Hl; subst r1; simpl.
    by rewrite guarded_send.
Qed.

(** The capture of the [/start] pattern: what follows the first [/start]
    of the text, up to the end of the text or to the first line
    terminator. *)
Lemma start_capture t match1 :
  Re.start t = Some match1 →
  ∃ pre post,
    t = pre +:+ "/start" +:+ match1 +:+ post ∧
    (∀ pre1 post1, t = pre1 +:+ "/start" +:+ post1 →
                   (String.length pre ≤ String.length pre1)%nat) ∧
    (post = "" ∨ ∃ cp r, cp ∈ Js.lineTerminators ∧ post = Js.utf8 cp +:+ r) ∧
    (∀ cp p q, cp ∈ Js.lineTerminators → match1 ≠ p +:+ Js.utf8 cp +:+ q).
Proof.
  unfold Re.start. intros (pre & t' & -> & Hm & Hfirst)%search_leftmost.
  destruct (Js.stripPrefix "/start" t') as [rest|] eqn:Hrest; [|done].
  apply stripPrefix_Some in Hrest as ->. injection Hm as <-.
  destruct (dotStar_spec rest) as (post & Hr & Hpost & Hno).
  exists pre, post. split_and!; [by rewrite <-Hr| |done..].
  intros pre1 post1 Heq.
  destruct (decide (String.length pre ≤ String.length pre1)%nat)
    as [|Hlt]; [done|].
  specialize (Hfirst pre1 ("/start" +:+ post1) Heq ltac:(lia)).
  by rewrite (proj2 (stripPrefix_Some "/start" _ post1) eq_refl) in Hfirst.
Qed.

(** C3.  For every message whose text matches the [/start] pattern, with
    [param] the trimmed capture, after the router has run every callback
    that the text matches.  If [param] is empty, the [LinkClick] collection
    is as it was (whatever the store and the gateway answer).  If [param] is
    not empty and the store accepts the calls, exactly one [LinkClick] was
    appended, whose wallpaper id is [param], whose user id is the sender's,
    and whose username is the sender's username (or [null]).  The capture
    is what follows the first [/start] of the text up to the end of the
    text or to the first line terminator, and [param] is the capture
    without the white-space characters at its two ends: [/start wp123] has
    [param = wp123] and [/start] has none, a no-break space alone is no
    parameter, and [wp9] between no-break spaces is [wp9]. *)
Theorem C3_start_link_click env msg t match1 w :
  text msg = Some t →
  Re.start t = Some match1 →
  let w' := (processUpdate env msg w).2 in
  let param := Js.trim match1 in
  (param = "" → linkclicks w' = linkclicks w) ∧
  (store_up env → param ≠ "" →
   linkclicks w' =
     linkclicks w ++
       [{| LinkClick.wallpaperId := param;
           LinkClick.userId := id (from msg);
           LinkClick.username := Js.or_null (username (from msg));
           LinkClick.timestamp := clock w |}]) ∧
  (∃ pre post,
     t = pre +:+ "/start" +:+ match1 +:+ post ∧
     (∀ pre1 post1, t = pre1 +:+ "/start" +:+ post1 →
                    (String.length pre ≤ String.length pre1)%nat) ∧
     (post = "" ∨
      ∃ cp r, cp ∈ Js.lineTerminators ∧ post = Js.utf8 cp +:+ r) ∧
     (∀ cp p q, cp ∈ Js.lineTerminators →
                match1 ≠ p +:+ Js.utf8 cp +:+ q)) ∧
  (∃ l r,
     Forall (λ cp, cp ∈ Js.whiteSpaceChars) l ∧
     Forall (λ cp, cp ∈ Js.whiteSpaceChars) r ∧
     match1 = Js.encode l +:+ param +:+ Js.encode r ∧
     (∀ cp s, cp ∈ Js.whiteSpaceChars → param ≠ Js.utf8 cp +:+ s) ∧
     (∀ cp s, cp ∈ Js.whiteSpaceChars → param ≠ s +:+ Js.utf8 cp)) ∧
  (∀ rest, Re.start ("/start" +:+ rest) = Some (Re.dotStar rest)) ∧
  Js.trim (Re.dotStar " wp123") = "wp123" ∧
  Js.trim (Re.dotStar "") = "" ∧
  Js.trim (Re.dotStar nbsp) = "" ∧
  Js.trim (Re.dotStar (nbsp +:+ "wp9" +:+ nbsp +:+ " ")) = "wp9" ∧
  Js.trim (Re.dotStar (" wp9 " +:+ line_separator +:+ "x")) = "wp9".
Proof.
  intros Htext Hre w' param. subst w' param.
  split; [|split]; [| |split; [by apply start_capture|]];
    [| |split; [apply trim_spec|by split_and!]];
    assert (Js.or_null (text msg) = Some t) as Ht
      by (rewrite Htext; destruct t; [done|reflexivity]);
    rewrite (processUpdate_linkclicks env msg t w Ht), Hre.
  - intros Hparam. rewrite on_start_linkclicks.
    unfold start_wallpaperId, Js.truthy. rewrite Hparam. done.
  - intros Hstore Hparam. rewrite on_start_linkclicks.
    unfold start_wallpaperId, Js.truthy.
    rewrite bool_decide_false by done. simpl.
    rewrite trackLinkClick_linkclicks by done.
    by rewrite saveUserData_linkclicks, saveUserData_clock.
Qed.

Lemma C3_start_link_click_witness :
  linkclicks
    (processUpdate (reference_env None always (λ _, false)) (msg_5 "/start")
       (empty_world 7)).2 = [] ∧
  linkclicks
    (processUpdate (reference_env None always always) (msg_5 "/start wp123")
       (empty_world 7)).2 =
    [{| LinkClick.wallpaperId := "wp123"; LinkClick.userId := 5;
        LinkClick.username := Some "ada"; LinkClick.timestamp := 7 |}] ∧
  linkclicks
    (processUpdate (reference_env None always always)
       (msg_5 ("/start" +:+ nbsp)) (empty_world 7)).2 = [] ∧
  linkclicks
    (processUpdate (reference_env None always always)
       (msg_5 ("/start" +:+ nbsp +:+ "wp9 ")) (empty_world 7)).2 =
    [{| LinkClick.wallpaperId := "wp9"; LinkClick.userId := 5;
        LinkClick.username := Some "ada"; LinkClick.timestamp := 7 |}].
Proof.
  split_and!.
  - apply (proj1 (C3_start_link_click (reference_env None always (λ _, false))
                    (msg_5 "/start") "/start" "" (empty_world 7)
                    eq_refl eq_refl)).
    reflexivity.
  - apply (proj1 (proj2 (C3_start_link_click
                           (reference_env None always always)
                           (msg_5 "/start wp123") "/start wp123" " wp123"
                           (empty_world 7) eq_refl eq_refl))).
    + intros k. reflexivity.
    + vm_compute. discriminate.
  - apply (proj1 (C3_start_link_click (reference_env None always always)
                    (msg_5 ("/start" +:+ nbsp)) ("/start" +:+ nbsp) nbsp
                    (empty_world 7) eq_refl eq_refl)).
    reflexivity.
  - apply (proj1 (proj2 (C3_start_link_click
                           (reference_env None always always)
                           (msg_5 ("/start" +:+ nbsp +:+ "wp9 "))
                           ("/start" +:+ nbsp +:+ "wp9 ") (nbsp +:+ "wp9 ")
                           (empty_world 7) eq_refl eq_refl))).
    + intros k. reflexivity.
    + vm_compute. discriminate.
Defined.

(** * The command router *)

(** C9.  [/toplinks 0] and [/recentusers 0] behave exactly like the
    commands without argument: the captured [0] parses to a falsy number,
    the limit falls back to 10, the callback is the same function of the
    message for the capture [0] and for no capture, and the router produces
    the same outcome and the same world for both texts. *)
Theorem C9_zero_limit_is_default env sender chat w :
  parse_limit (Some "0") = 10 ∧ parse_limit None = 10 ∧
  (∀ msg, on_toplinks env msg (Some "0") = on_toplinks env msg None) ∧
  (∀ msg, on_recentusers env msg (Some "0") = on_recentusers env msg None) ∧
  Re.toplinks "/toplinks 0" = Some (Some "0") ∧
  Re.recentusers "/recentusers 0" = Some (Some "0") ∧
  processUpdate env
    {| from := sender; chat_id := chat; text := Some "/toplinks 0" |} w =
  processUpdate env
    {| from := sender; chat_id := chat; text := Some "/toplinks" |} w ∧
  processUpdate env
    {| from := sender; chat_id := chat; text := Some "/recentusers 0" |} w =
  processUpdate env
    {| from := sender; chat_id := chat; text := Some "/recentusers" |} w.
Proof. split_and!; reflexivity. Qed.

(** C10.  The bare text [/broadcast] matches none of the seven patterns:
    the router calls no handler, the world is unchanged (no reply, no read
    of the users, no message to anyone). *)
Theorem C10_bare_broadcast_is_no_op env sender chat w :
  Re.start "/broadcast" = None ∧ Re.stats "/broadcast" = None ∧
  Re.toplinks "/broadcast" = None ∧ Re.recentusers "/broadcast" = None ∧
  Re.userinfo "/broadcast" = None ∧ Re.broadcast "/broadcast" = None ∧
  Re.adminhelp "/broadcast" = None ∧
  processUpdate env
    {| from := sender; chat_id := chat; text := Some "/broadcast" |} w =
  ([], w).
Proof. split_and!; reflexivity. Qed.

(** * The [/stats] handler *)

(** Puts the trace of a world built by the primitives in the form
    [trace w ++ events]. *)
Ltac trace_norm :=
  cbn [fst snd trace record count_send count_query advance set_users
       set_linkclicks users linkclicks clock sends queries];
  rewrite <-?(assoc_L (++)); cbn [app].

Lemma filter_always {A} (l : list A) : filter (λ _, true = true) l = l.
Proof.
  induction l as [|x l IH]; [done|].
  by rewrite filter_cons_True, IH.
Qed.

Lemma firstSeen_gte_le d u : firstSeen_gte d u = true ↔ d ≤ User.firstSeen u.
Proof. unfold firstSeen_gte. apply Z.leb_le. Qed.

Lemma count_firstSeen_gte d (us : list User.t) :
  Z.of_nat (length (filter (λ u, firstSeen_gte d u = true) us)) =
  count_users (λ u, d ≤ User.firstSeen u) us.
Proof.
  unfold count_users. do 2 f_equal.
  apply list_filter_iff. intros u. apply firstSeen_gte_le.
Qed.

(** [setHours(0, 0, 0, 0)] yields the local midnight that opens the day of
    its argument. *)
Lemma setHours0_midnight tz d :
  setHours0 tz d ≤ d < setHours0 tz d + ms_per_day ∧
  (setHours0 tz d + tz) `mod` ms_per_day = 0.
Proof.
  unfold setHours0, ms_per_day.
  pose proof (Z.mod_pos_bound (d + tz) 86400000 eq_refl) as Hb.
  split; [lia|].
  replace (d - (d + tz) `mod` 86400000 + tz)
    with ((d + tz) - (d + tz) `mod` 86400000) by lia.
  rewrite Zminus_mod, Z.mod_mod, Z.sub_diag by lia. done.
Qed.

(** What the handler does past the admin check when the store answers:
    six counts, then the report (and the error reply if the gateway
    refused the report). *)
Lemma stats_authorized_run env msg w :
  store_up env →
  let today := setHours0 (tz_offset env) (clock w) in
  let report :=
    stats_message
      (Z.of_nat (length (users w)))
      (count_users (λ u, today ≤ User.firstSeen u) (users w))
      (count_users (λ u, minusDays (clock w) 7 ≤ User.firstSeen u) (users w))
      (count_users (λ u, minusDays (clock w) 30 ≤ User.firstSeen u) (users w))
      (count_users (λ u, User.isPremium u = true) (users w))
      (Z.of_nat (length (linkclicks w)))
      (toLocaleString env (clock w)) in
  new_events w (stats_authorized env msg w).2 =
    [EvStore UserCountDocuments true; EvStore UserCountDocuments true;
     EvStore UserCountDocuments true; EvStore UserCountDocuments true;
     EvStore UserCountDocuments true; EvStore LinkClickCountDocuments true;
     EvSend (chat_id msg) report html (send_ok env (sends w))] ++
    (if send_ok env (sends w) then []
     else [EvSend (chat_id msg) "❌ Error fetching statistics." plain
             (send_ok env (S (sends w)))]).
Proof.
  intros Hstore today report.
  unfold stats_authorized, try_catch, mbind, M_bind, User_countDocuments,
    LinkClick_countDocuments, newDate.
  repeat (rewrite storeCall_ok by apply Hstore; cbn [fst snd]).
  cbn [clock record count_query users linkclicks].
  rewrite !filter_always, !count_firstSeen_gte.
  fold today. fold (count_users (λ u, User.isPremium u = true) (users w)).
  fold report.
  apply new_events_app. unfold sendMessage.
  cbn [sends record count_query count_send trace].
  destruct (send_ok env (sends w)); trace_norm; reflexivity.
Qed.

(** C8.  The "new today" count of [/stats] is the number of users whose
    first-seen date is at or after the local midnight that opens the current
    day: the bound is inclusive, so a user first seen exactly at that
    midnight is counted, and a user first seen one minute before it (23:59
    of the day before) is not. *)
Theorem C8_new_today_boundary env msg w :
  let today := setHours0 (tz_offset env) (clock w) in
  let newToday := count_users (λ u, today ≤ User.firstSeen u) in
  (today ≤ clock w < today + ms_per_day ∧
   (today + tz_offset env) `mod` ms_per_day = 0) ∧
  (store_up env → unauthorized env (id (from msg)) = false →
   new_events w (on_stats env msg () w).2 =
     [EvStore UserCountDocuments true; EvStore UserCountDocuments true;
      EvStore UserCountDocuments true; EvStore UserCountDocuments true;
      EvStore UserCountDocuments true; EvStore LinkClickCountDocuments true;
      EvSend (chat_id msg)
        (stats_message
           (Z.of_nat (length (users w)))
           (newToday (users w))
           (count_users (λ u, minusDays (clock w) 7 ≤ User.firstSeen u)
              (users w))
           (count_users (λ u, minusDays (clock w) 30 ≤ User.firstSeen u)
              (users w))
           (count_users (λ u, User.isPremium u = true) (users w))
           (Z.of_nat (length (linkclicks w)))
           (toLocaleString env (clock w)))
        html (send_ok env (sends w))] ++
     (if send_ok env (sends w) then []
      else [EvSend (chat_id msg) "❌ Error fetching statistics." plain
              (send_ok env (S (sends w)))])) ∧
  (∀ u us, User.firstSeen u = today → newToday (u :: us) = newToday us + 1) ∧
  (∀ u us, User.firstSeen u = today - 60000 → newToday (u :: us) = newToday us).
Proof.
  intros today newToday. split; [apply setHours0_midnight|]. split; [|split].
  - intros Hstore Hauth. unfold on_stats. rewrite Hauth.
    by rewrite stats_authorized_run by done.
  - intros u us Hu. unfold newToday, count_users.
    rewrite filter_cons_True by lia. simpl length. lia.
  - intros u us Hu. unfold newToday, count_users.
    rewrite filter_cons_False by lia. done.
Qed.

Lemma C8_new_today_boundary_witness :
  new_events stats_world
    (on_stats (reference_env None always always) (msg_5 "/stats") ()
       stats_world).2 =
    [EvStore UserCountDocuments true; EvStore UserCountDocuments true;
     EvStore UserCountDocuments true; EvStore UserCountDocuments true;
     EvStore UserCountDocuments true; EvStore LinkClickCountDocuments true;
     EvSend 5 (stats_message 3 2 3 3 0 0 "90000000") html true].
Proof.
  apply (proj1 (proj2 (C8_new_today_boundary
                         (reference_env None always always)
                         (msg_5 "/stats") stats_world))).
  - intros k. reflexivity.
  - reflexivity.
Defined.

(** * Profile snapshots *)

(** The claim as stated fails: the record of user 5 was created with
    [isBot = false]; an interaction whose sender carries [is_bot = true]
    leaves [isBot] at [false]. *)
Lemma C5_bot_flag_counterexample :
  ¬ overwrites_six_fields (reference_env None always always)
      msg_5_bot None world_with_5.
Proof.
  intros H. destruct (H 0%nat (user_seen 5 0) eq_refl) as (u' & Hu' & _ & Hbot).
  vm_compute in Hu'. injection Hu' as <-. vm_compute in Hbot. discriminate.
Qed.

(** C5 (amended).  On every interaction with an already-existing [User]
    record that the store accepts, [saveUserData] writes the record back at
    its place with five profile fields overwritten by the values the gateway
    supplied (username, first name, last name, language code, premium flag;
    an absent or empty value becomes [null], resp. [false]; the previous
    values are not kept), while the bot flag keeps the value it was created
    with. *)
Theorem C5_profile_overwrite env msg wid w i u :
  store_up env →
  list_find (λ x, User.userId x = id (from msg)) (users w) = Some (i, u) →
  ∃ u',
    users (saveUserData env msg wid w).2 = <[i := u']> (users w) ∧
    users (saveUserData env msg wid w).2 !! i = Some u' ∧
    five_fields_overwritten (from msg) u' ∧
    User.isBot u' = User.isBot u.
Proof.
  intros Hstore Hfind.
  exists (updated_user u (from msg) wid (clock w)).
  rewrite (saveUserData_update env Hstore msg wid w i u Hfind).
  split_and!; [done| |done|done].
  apply list_lookup_insert_eq.
  apply list_find_Some in Hfind as (Hi & _ & _).
  by eapply lookup_lt_Some.
Qed.

Lemma C5_profile_overwrite_witness :
  ∃ u',
    users (saveUserData (reference_env None always always)
             msg_5_bot None world_with_5).2 = <[0%nat := u']> [user_seen 5 0] ∧
    users (saveUserData (reference_env None always always)
             msg_5_bot None world_with_5).2 !! 0%nat = Some u' ∧
    five_fields_overwritten sender_5_bot u' ∧
    User.isBot u' = false.
Proof.
  apply (C5_profile_overwrite (reference_env None always always)
           msg_5_bot None world_with_5 0 (user_seen 5 0)).
  - intros k. reflexivity.
  - reflexivity.
Defined.

(** * The [/userinfo] handler *)


Lemma count_clicks_of_filter uid (cs : list LinkClick.t) :
  Z.of_nat (length (filter
    (λ c, bool_decide (LinkClick.userId c = uid) = true) cs)) =
  count_clicks_of uid cs.
Proof.
  unfold count_clicks_of. do 2 f_equal. apply list_filter_iff.
  intros c. by rewrite bool_decide_eq_true.
Qed.

Section Userinfo.

Variable env : Env.
Hypothesis Hgateway : gateway_up env.



(** The same lookup when the store answers and finds a record. *)
Lemma userinfo_lookup_by_found (p : User.t → Prop)
    `{!∀ u, Decision (p u)} chat w i user :
  store_ok env (queries w) = true →
  store_ok env (S (queries w)) = true →
  list_find p (users w) = Some (i, user) →
  new_events w
    (try_catch (user ← User_findOne env p; userinfo_reply env chat user)
       (sendMessage env chat "❌ Error fetching user information." plain)
       w).2 =
  [EvStore UserFindOne true; EvStore LinkClickCountDocuments true;
   EvSend chat
     (userinfo_message env user
        (count_clicks_of (User.userId user) (linkclicks w)))
     html true].
Proof.
  intros Hq0 Hq1 Hsome.
  unfold try_catch, mbind, M_bind, User_findOne, userinfo_reply,
    LinkClick_countDocuments, storeCall, sendMessage.
  rewrite Hq0; cbn [fst snd]. cbn [users record count_query queries].
  rewrite Hsome; cbn [fst snd].
  unfold mbind, M_bind; cbn [queries record count_query].
  rewrite Hq1; cbn [fst snd].
  rewrite !Hgateway; cbn [fst snd].
  cbn [linkclicks record count_query]. rewrite count_clicks_of_filter.
  apply new_events_app. trace_norm. reflexivity.
Qed.

End Userinfo.











(** * The [/broadcast] handler *)

Lemma sends_accepted_S env k0 n :
  sends_accepted env k0 (S n) =
  (if send_ok env k0 then 1 else 0) + sends_accepted env (S k0) n.
Proof.
  unfold sends_accepted. simpl seq. rewrite filter_cons.
  destruct (send_ok env k0); case_decide; try done; simpl length; lia.
Qed.

Lemma sends_refused_S env k0 n :
  sends_refused env k0 (S n) =
  (if send_ok env k0 then 0 else 1) + sends_refused env (S k0) n.
Proof.
  unfold sends_refused. simpl seq. rewrite filter_cons.
  destruct (send_ok env k0); case_decide; try done; simpl length; lia.
Qed.

Lemma sends_accepted_refused env k0 n :
  sends_accepted env k0 n + sends_refused env k0 n = Z.of_nat n ∧
  0 ≤ sends_refused env k0 n.
Proof.
  revert k0. induction n as [|n IH]; intros k0.
  - unfold sends_accepted, sends_refused. simpl. lia.
  - rewrite sends_accepted_S, sends_refused_S.
    specialize (IH (S k0)). destruct (send_ok env k0); lia.
Qed.

(** The loop: one send per recipient, in order, whatever the outcome of the
    sends before; a delay after each accepted send; the counters count the
    accepted and the refused sends. *)
Lemma broadcast_loop_run env message recipients :
  ∀ s f w,
  ∃ w',
    broadcast_loop env message recipients s f w =
      (Resolved (s + sends_accepted env (sends w) (length recipients),
                 f + sends_refused env (sends w) (length recipients)), w') ∧
    trace w' =
      trace w ++
      mjoin (imap (λ j r, recipient_events env message (sends w + j) r)
               recipients) ∧
    sends w' = (sends w + length recipients)%nat ∧
    users w' = users w ∧ linkclicks w' = linkclicks w ∧
    queries w' = queries w.
Proof.
  induction recipients as [|r rest IH]; intros s f w.
  - exists w. simpl. unfold sends_accepted, sends_refused. simpl.
    rewrite !Z.add_0_r, app_nil_r, Nat.add_0_r. done.
  - cbn [broadcast_loop]. unfold mbind at 1, M_bind at 1.
    unfold try_catch at 1. unfold mbind at 1, M_bind at 1.
    unfold sendMessage at 1.
    cbn [length]. rewrite sends_accepted_S, sends_refused_S, imap_cons.
    cbn [mjoin list_join]. unfold recipient_events at 1.
    rewrite Nat.add_0_r.
    destruct (send_ok env (sends w)) eqn:Hok.
    + unfold mbind at 1, M_bind at 1. unfold delay at 1.
      unfold mret at 1, M_ret at 1. cbn beta iota.
      set (w1 := record (EvDelay broadcast_delay) _).
      destruct (IH (s + 1) f w1) as (w' & Hrun & Htr & Hs & Hu & Hl & Hq).
      subst w1.
      cbn [record advance count_send sends users linkclicks queries trace]
        in Hrun, Htr, Hs, Hu, Hl, Hq.
      exists w'. rewrite Hrun, Htr, Hs, Hu, Hl, Hq.
      split_and!; try done.
      * do 3 f_equal; lia.
      * rewrite <-!(assoc_L (++)). cbn [app]. do 4 f_equal.
        apply imap_ext. intros j x _. simpl. f_equal. lia.
      * lia.
    + unfold mret at 1, M_ret at 1. cbn beta iota.
      set (w1 := record _ _).
      destruct (IH s (f + 1) w1) as (w' & Hrun & Htr & Hs & Hu & Hl & Hq).
      subst w1.
      cbn [record advance count_send sends users linkclicks queries trace]
        in Hrun, Htr, Hs, Hu, Hl, Hq.
      exists w'. rewrite Hrun, Htr, Hs, Hu, Hl, Hq.
      split_and!; try done.
      * do 3 f_equal; lia.
      * rewrite <-!(assoc_L (++)). cbn [app]. do 3 f_equal.
        apply imap_ext. intros j x _. simpl. f_equal. lia.
      * lia.
Qed.

(** The claim as stated fails on its own example: with three recipients
    and the second send refused, the send to the third recipient follows
    the refused send at once, with no delay between them. *)
Lemma C4_no_delay_after_failure_counterexample :
  ¬ broadcast_as_claimed (reference_env None second_fails always)
      (msg_5 "/broadcast hello") "hello" three_users.
Proof.
  intros (_ & Hdelay & _).
  apply (Hdelay 4%nat 2 3 false true); reflexivity.
Qed.

(** C4 (amended).  For every [/broadcast] invocation by an authorized
    caller, once the users are read and the announcement is accepted, with
    [n] recipients of which the sends in [F] are refused: the handler sends
    the text to every recipient, one at a time and in order, whatever the
    outcome of the sends before (so every recipient outside [F] receives
    it); a delay of 50 ms follows each accepted send, and none follows a
    refused one; then the tally sent to the invoker shows [n - |F|] sent and
    [|F|] failed.  With 3 recipients and only the 2nd send refused the tally
    is 2 and 1. *)
Theorem C4_broadcast_tally env msg message w :
  unauthorized env (id (from msg)) = false →
  store_ok env (queries w) = true →
  send_ok env (sends w) = true →
  let chat := chat_id msg in
  let recipients := User.userId <$> users w in
  let n := length recipients in
  let k0 := S (sends w) in
  let F := sends_refused env k0 n in
  let evs := new_events w (on_broadcast env msg message w).2 in
  evs =
    [EvStore UserFind true;
     EvSend chat (broadcast_start_text n) plain true] ++
    mjoin (imap (λ j r, recipient_events env message (k0 + j) r)
             recipients) ++
    EvSend chat (broadcast_done_text (Z.of_nat n - F) F) plain
      (send_ok env (k0 + n)) ::
    (if send_ok env (k0 + n) then []
     else [EvSend chat "❌ Error during broadcast." plain
             (send_ok env (S (k0 + n)))]) ∧
  0 ≤ F ≤ Z.of_nat n ∧
  (∀ j r, recipients !! j = Some r →
          EvSend r message html (send_ok env (k0 + j)) ∈ evs) ∧
  (n = 3%nat → send_ok env k0 = true → send_ok env (k0 + 1) = false →
   send_ok env (k0 + 2) = true → Z.of_nat n - F = 2 ∧ F = 1).
Proof.
  intros Hauth Hq Hs chat recipients n k0 F evs.
  assert (evs =
    [EvStore UserFind true;
     EvSend chat (broadcast_start_text n) plain true] ++
    mjoin (imap (λ j r, recipient_events env message (k0 + j) r)
             recipients) ++
    EvSend chat (broadcast_done_text (Z.of_nat n - F) F) plain
      (send_ok env (k0 + n)) ::
    (if send_ok env (k0 + n) then []
     else [EvSend chat "❌ Error during broadcast." plain
             (send_ok env (S (k0 + n)))])) as Hevs.
  { unfold evs, on_broadcast. rewrite Hauth.
    unfold broadcast_authorized, try_catch.
    unfold mbind at 1, M_bind at 1. unfold User_find_userId.
    rewrite storeCall_ok by done. cbn [fst snd].
    cbn [users record count_query]. fold recipients. fold n. fold chat.
    unfold mbind at 1, M_bind at 1.
    rewrite sendMessage_ok by done.
    unfold mbind at 1, M_bind at 1.
    set (w1 := record (EvSend _ _ _ _) _).
    destruct (broadcast_loop_run env message recipients 0 0 w1)
      as (w2 & Hrun & Htr & Hsends & _).
    subst w1.
    cbn [record count_send count_query sends trace] in Hrun, Htr, Hsends.
    rewrite Hrun. fold n in Hrun, Hsends |- *. fold k0 in Htr, Hsends |- *.
    fold F. rewrite !Z.add_0_l.
    destruct (sends_accepted_refused env k0 n) as [Hsum _]. fold F in Hsum.
    replace (sends_accepted env k0 n) with (Z.of_nat n - F) by lia.
    unfold sendMessage. rewrite Hsends.
    apply new_events_app.
    destruct (send_ok env (k0 + n)); trace_norm; rewrite ?Hsends, Htr;
      rewrite <-!(assoc_L (++)); reflexivity. }
  split; [done|]. split; [|split].
  - destruct (sends_accepted_refused env k0 n) as [Hsum Hpos].
    fold F in Hsum, Hpos. split; [done|].
    assert (0 ≤ sends_accepted env k0 n) by (unfold sends_accepted; lia).
    lia.
  - intros j r Hj. rewrite Hevs.
    apply elem_of_app; right. apply elem_of_app; left.
    apply list_elem_of_join.
    exists (recipient_events env message (k0 + j) r). split.
    + unfold recipient_events. left.
    + apply elem_of_lookup_imap. by exists j, r.
  - intros Hn H0 H1 H2. rewrite Hn. unfold F. rewrite Hn.
    rewrite !sends_refused_S.
    replace (S k0) with (k0 + 1)%nat by lia.
    replace (S (k0 + 1)) with (k0 + 2)%nat by lia.
    rewrite H0, H1, H2. unfold sends_refused. simpl. lia.
Qed.

Lemma C4_broadcast_tally_witness :
  new_events three_users
    (on_broadcast (reference_env None second_fails always)
       (msg_5 "/broadcast hello") "hello" three_users).2 =
    [EvStore UserFind true;
     EvSend 5 (broadcast_start_text 3) plain true;
     EvSend 1 "hello" html true; EvDelay 50;
     EvSend 2 "hello" html false;
     EvSend 3 "hello" html true; EvDelay 50;
     EvSend 5 (broadcast_done_text 2 1) plain true].
Proof.
  apply (proj1 (C4_broadcast_tally (reference_env None second_fails always)
                  (msg_5 "/broadcast hello") "hello" three_users
                  eq_refl eq_refl eq_refl)).
Defined.

(** * The [/toplinks] handler *)

(** ** The capture is a run of digits, so the limit is at least 1 *)

(** A text that starts with no lead byte of a white-space character has
    no leading white space. *)
Lemma afterSpaces_not_lead a s :
  Js.whiteSpaceLead a = false → Js.afterSpaces (String a s) = [].
Proof.
  destruct a as [[] [] [] [] [] [] [] []]; try discriminate; intros _;
    by destruct s as [|b [|c s]].
Qed.

Lemma trimStart_not_lead a s :
  Js.whiteSpaceLead a = false → Js.trimStart (String a s) = String a s.
Proof. intros Ha. unfold Js.trimStart. by rewrite afterSpaces_not_lead. Qed.

Lemma isDigit_value c :
  Js.isDigit c = true →
  Js.whiteSpaceLead c = false ∧ c ≠ "-"%char ∧ c ≠ "+"%char ∧
  c ≠ "x"%char ∧ c ≠ "X"%char ∧
  ∃ d, Js.digitValue 10 c = Some d ∧ 0 ≤ d.
Proof.
  destruct c as [[] [] [] [] [] [] [] []]; try discriminate; intros _;
    (split_and!; [reflexivity|discriminate..|eexists; split;
      [reflexivity|vm_compute; discriminate]]).
Qed.

Lemma takeWhile_all p s :
  ∀ c, c ∈ String.list_ascii_of_string (Js.takeWhile p s) → p c = true.
Proof.
  induction s as [|a s IH]; simpl; intros c Hc.
  - by apply elem_of_nil in Hc.
  - destruct (p a) eqn:Hp; simpl in Hc.
    + apply elem_of_cons in Hc as [->|Hc]; auto.
    + by apply elem_of_nil in Hc.
Qed.

Lemma parseDigits_digits s :
  (∀ c, c ∈ String.list_ascii_of_string s → Js.isDigit c = true) →
  ∀ acc seen, 0 ≤ acc → (seen = true ∨ s ≠ "") →
  ∃ v, Js.parseDigits 10 s acc seen = Some v ∧ 0 ≤ v.
Proof.
  induction s as [|a s IH]; intros Hall acc seen Hacc Hseen.
  - destruct Hseen as [->|?]; [|done]. by exists acc.
  - simpl.
    destruct (isDigit_value a) as (_ & _ & _ & _ & _ & d & -> & Hd).
    { apply Hall. simpl. left. }
    apply IH; [|lia|by left].
    intros c Hc. apply Hall. simpl. by right.
Qed.

Lemma parseIntStr_digits s :
  s ≠ "" →
  (∀ c, c ∈ String.list_ascii_of_string s → Js.isDigit c = true) →
  ∃ v, Js.parseIntStr s = Some v ∧ 0 ≤ v.
Proof.
  intros Hne Hall. destruct s as [|a s]; [done|].
  destruct (isDigit_value a) as (Hws & Hm & Hp & _ & _ & _).
  { apply Hall. simpl. left. }
  unfold Js.parseIntStr. rewrite (trimStart_not_lead _ _ Hws).
  assert (∃ v, Js.parseDigits 10 (String a s) 0 false = Some v ∧ 0 ≤ v)
    as (v & Hv & Hpos) by (apply parseDigits_digits; [done|lia|by right]).
  assert (∀ r : string,
    (let '(radix, s2) :=
       match String a s with
       | String "0"%char (String "x"%char r) => (16, r)
       | String "0"%char (String "X"%char r) => (16, r)
       | _ => (10, String a s)
       end in
     match Js.parseDigits radix s2 0 false with
     | Some v => Some (1 * v)
     | None => None
     end) = Some v) as Hradix.
  { intros _. destruct s as [|b s].
    - destruct a as [[] [] [] [] [] [] [] []]; by rewrite Hv, Z.mul_1_l.
    - destruct (isDigit_value b) as (_ & _ & _ & Hx & HX & _).
      { apply Hall. simpl. right. left. }
      destruct a as [[] [] [] [] [] [] [] []]; try by rewrite Hv, Z.mul_1_l.
      destruct b as [[] [] [] [] [] [] [] []]; try done;
        by rewrite Hv, Z.mul_1_l. }
  exists v. split; [|done].
  destruct a as [[] [] [] [] [] [] [] []]; try done; apply (Hradix "").
Qed.

Lemma search_Some {A} (m : string → option A) s r :
  Re.search m s = Some r → ∃ t, m t = Some r.
Proof.
  induction s as [|a s IH]; simpl.
  - destruct (m "") eqn:Hm; [|done]. intros [= <-]. eauto.
  - destruct (m (String a s)) eqn:Hm; [intros [= <-]; eauto|]. apply IH.
Qed.

(** Whatever the text, the limit that [/toplinks] computes from the capture
    of its pattern is at least 1. *)
Lemma toplinks_limit_pos t match1 :
  Re.toplinks t = Some match1 → 1 ≤ parse_limit match1.
Proof.
  unfold Re.toplinks. intros (t' & Hm)%search_Some.
  destruct (Js.stripPrefix "/toplinks" t') as [r|]; [|done].
  injection Hm as <-. unfold parse_limit, Js.parseInt, Re.spacesThenDigits.
  destruct (last (Js.afterSpaces r)) as [r'|]; [|done].
  destruct (Js.truthy _) eqn:Hd; [|done].
  destruct (parseIntStr_digits (Js.takeWhile Js.isDigit r'))
    as (v & -> & Hv).
  - unfold Js.truthy in Hd. by case_bool_decide.
  - apply takeWhile_all.
  - unfold Js.num_or. destruct (Z.eqb_spec v 0); lia.
Qed.

(** ** The pipeline *)

Lemma StronglySorted_impl {A} (R S : relation A) (l : list A) :
  (∀ a b, R a b → S a b) → StronglySorted R l → StronglySorted S l.
Proof.
  intros HRS. induction 1 as [|a l _ IH Ha]; constructor; [done|].
  eapply Forall_impl; [exact Ha|]. intros b. apply HRS.
Qed.

#[global] Instance sort_le_total {A} (key : A → Z) (direction : Z) :
  Total (sort_le key direction).
Proof. intros a b. unfold sort_le. lia. Qed.

#[global] Instance sort_le_trans {A} (key : A → Z) (direction : Z) :
  Transitive (sort_le key direction).
Proof. intros a b c. unfold sort_le. lia. Qed.

(** A sort stage reorders its input into the order of its specification. *)
Lemma sort_stage_spec {A} (key : A → Z) (direction : Z) (l : list A) :
  sort_stage key direction l ≡ₚ l ∧
  StronglySorted (sort_le key direction) (sort_stage key direction l).
Proof.
  unfold sort_stage. split.
  - apply merge_sort_Permutation.
  - apply StronglySorted_merge_sort; apply _.
Qed.

(** The [$sort] stage of [/toplinks]: descending order of clicks. *)
Lemma sorted_rows_spec env (l : list Row) :
  rows_kept env →
  let sorted := sort_stage clicks (-1) (scan_rows env l) in
  sorted ≡ₚ l ∧ StronglySorted clicks_ge sorted.
Proof.
  intros Hscan sorted.
  destruct (sort_stage_spec clicks (-1) (scan_rows env l)) as [Hperm Hsorted].
  split.
  - unfold sorted. by rewrite Hperm.
  - eapply StronglySorted_impl; [|exact Hsorted].
    intros a b. unfold sort_le, clicks_ge. lia.
Qed.

Section Pipeline.

Variable env : Env.
Hypothesis Hscan : rows_kept env.
Variable cs : list LinkClick.t.
Variable limit : Z.

Let ids := LinkClick.wallpaperId <$> cs.
Let sorted := sort_stage clicks (-1) (scan_rows env (group_stage cs)).
Let rows := topLinks_pipeline env limit cs.
Let Hsort : sorted ≡ₚ group_stage cs ∧ StronglySorted clicks_ge sorted :=
  sorted_rows_spec env (group_stage cs) Hscan.

Lemma group_stage_ids : _id <$> group_stage cs = remove_dups ids.
Proof.
  unfold group_stage. fold ids. rewrite <-list_fmap_compose.
  induction (remove_dups ids) as [|k l IH]; [done|]. simpl. by f_equal.
Qed.

Lemma group_stage_elem r :
  r ∈ group_stage cs ↔
  _id r ∈ ids ∧ r = {| _id := _id r; clicks := count_id ids (_id r) |}.
Proof.
  unfold group_stage. fold ids. rewrite list_elem_of_fmap. split.
  - intros (k & -> & Hk). rewrite elem_of_remove_dups in Hk. by simpl.
  - intros [Hk Hr]. exists (_id r). by rewrite elem_of_remove_dups.
Qed.

Lemma group_stage_NoDup : NoDup (group_stage cs).
Proof. eapply NoDup_fmap_1. rewrite group_stage_ids. apply NoDup_remove_dups. Qed.

Lemma pipeline_split : sorted = rows ++ drop (Z.to_nat limit) sorted.
Proof. unfold rows, topLinks_pipeline, limit_stage. by rewrite take_drop. Qed.

Lemma pipeline_elem r : r ∈ rows → r ∈ group_stage cs.
Proof.
  intros Hr. destruct Hsort as [Hperm _].
  rewrite <-Hperm, pipeline_split. apply elem_of_app. by left.
Qed.

(** At most [limit] rows, and never more rows than distinct ids. *)
Lemma pipeline_length :
  length rows = Nat.min (Z.to_nat limit) (length (remove_dups ids)).
Proof.
  unfold rows, topLinks_pipeline, limit_stage. rewrite length_take.
  fold sorted. destruct Hsort as [Hperm _]. rewrite Hperm.
  by rewrite <-group_stage_ids, length_fmap.
Qed.

(** One row per wallpaper id. *)
Lemma pipeline_NoDup : NoDup (_id <$> rows).
Proof.
  destruct Hsort as [Hperm _].
  apply sublist_NoDup with (_id <$> sorted).
  - rewrite Hperm, group_stage_ids. apply NoDup_remove_dups.
  - unfold rows, topLinks_pipeline, limit_stage.
    rewrite fmap_take. apply sublist_take.
Qed.

(** Every row is a wallpaper id of the log with its number of clicks. *)
Lemma pipeline_counts r :
  r ∈ rows → _id r ∈ ids ∧ clicks r = count_id ids (_id r).
Proof.
  intros [Hid Hr]%pipeline_elem%group_stage_elem. split; [done|].
  by rewrite Hr at 1.
Qed.

(** The rows are in descending order of clicks. *)
Lemma pipeline_sorted : StronglySorted clicks_ge rows.
Proof.
  destruct Hsort as [_ Hsorted].
  rewrite pipeline_split in Hsorted.
  by apply StronglySorted_app_1_l in Hsorted.
Qed.

(** A wallpaper id that is left out has no more clicks than any row. *)
Lemma pipeline_top k r :
  k ∈ ids → k ∉ _id <$> rows → r ∈ rows → count_id ids k ≤ clicks r.
Proof.
  intros Hk Hout Hr.
  destruct Hsort as [Hperm Hsorted].
  set (rk := {| _id := k; clicks := count_id ids k |}).
  assert (rk ∈ group_stage cs) as Hrk by (by apply group_stage_elem).
  rewrite <-Hperm, pipeline_split in Hrk.
  apply elem_of_app in Hrk as [Hrk|Hrk].
  - destruct Hout. apply list_elem_of_fmap. by exists rk.
  - rewrite pipeline_split in Hsorted.
    apply (StronglySorted_app_1_elem_of _ _ _ r rk Hsorted Hr Hrk).
Qed.

(** With a limit of at least 1 there is no row only if there is no click. *)
Lemma pipeline_empty : 1 ≤ limit → rows = [] ↔ cs = [].
Proof.
  intros Hlimit. destruct Hsort as [Hperm _]. split.
  - intros Hrows. apply (f_equal length) in Hrows.
    rewrite pipeline_length in Hrows. simpl in Hrows.
    assert (length (remove_dups ids) = 0%nat) as Hnil%nil_length_inv by lia.
    destruct cs as [|c cs']; [done|].
    assert (LinkClick.wallpaperId c ∈ remove_dups ids) as Hc.
    { apply elem_of_remove_dups. unfold ids. simpl. left. }
    rewrite Hnil in Hc. by apply elem_of_nil in Hc.
  - intros Hcs. apply nil_length_inv. rewrite pipeline_length.
    unfold ids. rewrite Hcs. simpl. lia.
Qed.

End Pipeline.

(** ** The fixture *)

Lemma count_id_pos (ids : list string) k : k ∈ ids ↔ 0 < count_id ids k.
Proof.
  unfold count_id. induction ids as [|x ids IH].
  - rewrite elem_of_nil. simpl. lia.
  - rewrite elem_of_cons, filter_cons. case_decide; simpl length.
    + subst x. split; [lia|by left].
    + rewrite IH. naive_solver.
Qed.

Lemma fixture_groups cs :
  (∀ k, count_id (LinkClick.wallpaperId <$> cs) k = fixture_count k) →
  group_stage cs ≡ₚ
    [{| _id := "A"; clicks := 5 |}; {| _id := "B"; clicks := 3 |};
     {| _id := "C"; clicks := 3 |}; {| _id := "D"; clicks := 1 |}].
Proof.
  intros Hcount. apply NoDup_Permutation.
  - apply group_stage_NoDup.
  - apply (bool_decide_unpack _). by vm_compute.
  - intros [k c]. rewrite group_stage_elem, count_id_pos, Hcount. simpl.
    rewrite !elem_of_cons, elem_of_nil. unfold fixture_count. split.
    + intros [Hpos [= ->]]. revert Hpos.
      repeat case_bool_decide; subst; intros; auto; lia.
    + intros [[= -> ->]|[[= -> ->]|[[= -> ->]|[[= -> ->]|[]]]]]; done.
Qed.

(** On any log with the counts of the fixture and with limit 3, the
    pipeline returns three rows: A with 5 clicks, then B and C with 3
    clicks each, in the order the engine chose. *)
Lemma pipeline_fixture env cs :
  rows_kept env →
  (∀ k, count_id (LinkClick.wallpaperId <$> cs) k = fixture_count k) →
  ∃ x y,
    topLinks_pipeline env 3 cs = [{| _id := "A"; clicks := 5 |}; x; y] ∧
    [x; y] ≡ₚ [{| _id := "B"; clicks := 3 |}; {| _id := "C"; clicks := 3 |}].
Proof.
  intros Hscan Hcount. unfold topLinks_pipeline, limit_stage.
  destruct (sorted_rows_spec env (group_stage cs) Hscan) as [Hperm Hsorted].
  pose proof (fixture_groups cs Hcount) as Hgroups.
  apply (Permutation_trans Hperm) in Hgroups. clear Hperm.
  rename Hgroups into Hperm.
  set (sorted := sort_stage clicks (-1) (scan_rows env (group_stage cs))) in *.
  clearbody sorted.
  symmetry in Hperm. apply permutations_Permutation in Hperm.
  apply (bool_decide_pack _) in Hsorted.
  cbv [permutations interleave fmap list_fmap mbind list_bind app] in Hperm.
  repeat (apply elem_of_cons in Hperm as [->|Hperm];
          [first [ by vm_compute in Hsorted
                 | by eexists _, _; split; [reflexivity|constructor]
                 | by eexists _, _; split; [reflexivity|apply perm_swap] ]|]).
  by apply elem_of_nil in Hperm.
Qed.

(** ** The reference engine keeps the rows *)

Lemma reference_env_rows_kept admin sendOk storeOk :
  rows_kept (reference_env admin sendOk storeOk).
Proof. by intros l. Qed.

(** ** The handler *)

Lemma toplinks_authorized_run env msg limit w :
  store_ok env (queries w) = true →
  let rows := topLinks_pipeline env limit (linkclicks w) in
  new_events w (toplinks_authorized env msg limit w).2 =
    [EvStore LinkClickAggregate true;
     toplinks_reply (chat_id msg) limit rows (send_ok env (sends w))] ++
    (if send_ok env (sends w) then []
     else [EvSend (chat_id msg) "❌ Error fetching top links." plain
             (send_ok env (S (sends w)))]).
Proof.
  intros Hq rows.
  unfold toplinks_authorized, try_catch, mbind, M_bind, LinkClick_aggregate.
  rewrite storeCall_ok by done. cbn [fst snd].
  cbn [linkclicks record count_query]. fold rows.
  unfold toplinks_reply. apply new_events_app.
  destruct (bool_decide (length rows = 0%nat)); unfold sendMessage;
    cbn [sends record count_query];
    destruct (send_ok env (sends w)); trace_norm; reflexivity.
Qed.

(** C6.  For every [/toplinks] invocation by an authorized caller whose
    aggregate call the store accepts, with [L] the limit computed from the
    capture of the pattern, [L] being at most [Number.MAX_SAFE_INTEGER],
    and any engine that hands every group to the sort.  The pipeline groups
    the clicks by wallpaper id, sorts the groups by [{ clicks: -1 }] and
    keeps the first [L]: the rows of the reply are one row per wallpaper
    id, each with the number of clicks that carry the id, in descending
    order of clicks, every id left out having no more clicks than any row,
    and there are [min L d] rows for [d] distinct ids (never a row for an id
    that has no click).  The reply lists these rows, and it is the no-clicks
    message exactly when the log is empty.  On a log with the counts A 5,
    B 3, C 3, D 1 and [L = 3] the rows are A with 5, then B and C with 3
    each in some order. *)
Theorem C6_toplinks env msg t match1 w :
  Re.toplinks t = Some match1 →
  parse_limit match1 ≤ Js.MAX_SAFE_INTEGER →
  unauthorized env (id (from msg)) = false →
  store_ok env (queries w) = true →
  rows_kept env →
  let L := parse_limit match1 in
  let ids := LinkClick.wallpaperId <$> linkclicks w in
  let rows := topLinks_pipeline env L (linkclicks w) in
  new_events w (on_toplinks env msg match1 w).2 =
    [EvStore LinkClickAggregate true;
     toplinks_reply (chat_id msg) L rows (send_ok env (sends w))] ++
    (if send_ok env (sends w) then []
     else [EvSend (chat_id msg) "❌ Error fetching top links." plain
             (send_ok env (S (sends w)))]) ∧
  1 ≤ L ∧
  length rows = Nat.min (Z.to_nat L) (length (remove_dups ids)) ∧
  NoDup (_id <$> rows) ∧
  (∀ r, r ∈ rows → _id r ∈ ids ∧ clicks r = count_id ids (_id r)) ∧
  StronglySorted clicks_ge rows ∧
  (∀ k r, k ∈ ids → k ∉ _id <$> rows → r ∈ rows →
          count_id ids k ≤ clicks r) ∧
  (length rows = 0%nat ↔ linkclicks w = []) ∧
  (linkclicks w = [] →
   toplinks_reply (chat_id msg) L rows =
     EvSend (chat_id msg) "📊 No link clicks recorded yet." plain) ∧
  (linkclicks w ≠ [] →
   toplinks_reply (chat_id msg) L rows =
     EvSend (chat_id msg) (toplinks_message L rows) html) ∧
  (L = 3 → (∀ k, count_id ids k = fixture_count k) →
   ∃ x y,
     rows = [{| _id := "A"; clicks := 5 |}; x; y] ∧
     [x; y] ≡ₚ [{| _id := "B"; clicks := 3 |};
                {| _id := "C"; clicks := 3 |}]).
Proof.
  intros Hre Hsafe Hauth Hq Hsort L ids rows.
  pose proof (toplinks_limit_pos t match1 Hre) as HL. fold L in HL.
  split_and!.
  - unfold on_toplinks. rewrite Hauth. by apply toplinks_authorized_run.
  - done.
  - by apply pipeline_length.
  - by apply pipeline_NoDup.
  - intros r. by apply pipeline_counts.
  - by apply pipeline_sorted.
  - intros k r. by apply pipeline_top.
  - rewrite <-(pipeline_empty env Hsort (linkclicks w) L HL). fold rows.
    split; [apply nil_length_inv|by intros ->].
  - intros Hnil%(pipeline_empty env Hsort (linkclicks w) L HL).
    fold rows in Hnil. unfold toplinks_reply. by rewrite Hnil.
  - intros Hne. unfold toplinks_reply. rewrite bool_decide_false; [done|].
    intros Hnil%nil_length_inv. apply Hne.
    by apply (pipeline_empty env Hsort (linkclicks w) L HL).
  - intros HL3 Hcount. unfold rows. rewrite HL3.
    by apply pipeline_fixture.
Qed.

Lemma fixture_world_counts k :
  count_id (LinkClick.wallpaperId <$> linkclicks fixture_world) k =
  fixture_count k.
Proof.
  unfold fixture_count.
  repeat case_bool_decide; subst; try reflexivity.
  unfold count_id. simpl.
  by repeat (rewrite filter_cons_False by (by intros <-)).
Qed.

Lemma C6_toplinks_witness :
  new_events fixture_world
    (on_toplinks (reference_env None always always) (msg_5 "/toplinks 3")
       (Some "3") fixture_world).2 =
    [EvStore LinkClickAggregate true;
     EvSend 5
       (toplinks_message 3
          [{| _id := "A"; clicks := 5 |}; {| _id := "C"; clicks := 3 |};
           {| _id := "B"; clicks := 3 |}])
       html true] ∧
  ∃ x y,
    topLinks_pipeline (reference_env None always always) 3
      (linkclicks fixture_world) = [{| _id := "A"; clicks := 5 |}; x; y] ∧
    [x; y] ≡ₚ [{| _id := "B"; clicks := 3 |}; {| _id := "C"; clicks := 3 |}].
Proof.
  pose proof (C6_toplinks (reference_env None always always)
                (msg_5 "/toplinks 3") "/toplinks 3" (Some "3")
                fixture_world eq_refl ltac:(by vm_compute) eq_refl eq_refl
                (reference_env_rows_kept None always always)) as H.
  split.
  - exact (proj1 H).
  - exact (proj2 (proj2 (proj2 (proj2 (proj2 (proj2 (proj2 (proj2
             (proj2 (proj2 H)))))))))
             eq_refl fixture_world_counts).
Defined.

(** * Beyond the claims: what the handlers do when a collaborator fails *)

Lemma onText_read_only_users {A} (m : option A) (callback : A → M unit) d :
  (∀ a, read_only (callback a)) →
  users (onText m callback d).2 = users d.2.
Proof.
  intros Hcb. unfold onText. destruct m as [a|]; [|done].
  destruct (Hcb a d.2) as [Hu _]. by destruct (callback a d.2).
Qed.

Lemma processUpdate_users env msg t w :
  Js.or_null (text msg) = Some t →
  users (processUpdate env msg w).2 =
    match Re.start t with
    | Some match1 => users (on_start env msg match1 w).2
    | None => users w
    end.
Proof.
  intros Ht. unfold processUpdate. rewrite Ht.
  rewrite (onText_read_only_users _ (on_adminhelp env msg))
    by (intros []; apply (read_only_admin_handler env CmdAdminhelp)).
  rewrite (onText_read_only_users _ (on_broadcast env msg))
    by (intros m; apply (read_only_admin_handler env (CmdBroadcast m))).
  rewrite (onText_read_only_users _ (on_userinfo env msg))
    by (intros m; apply (read_only_admin_handler env (CmdUserinfo m))).
  rewrite (onText_read_only_users _ (on_recentusers env msg))
    by (intros m; apply (read_only_admin_handler env (CmdRecentusers m))).
  rewrite (onText_read_only_users _ (on_toplinks env msg))
    by (intros m; apply (read_only_admin_handler env (CmdToplinks m))).
  rewrite (onText_read_only_users _ (on_stats env msg))
    by (intros []; apply (read_only_admin_handler env CmdStats)).
  unfold onText. destruct (Re.start t) as [match1|]; [|done].
  cbn [fst snd]. by destruct (on_start env msg match1 w).
Qed.

(** X1.  The admin commands only read the store.  Whatever the store and
    the gateway answer, and whether or not the caller is authorized, no
    admin handler changes the [User] or the [LinkClick] collection; and a
    message whose text does not match the [/start] pattern leaves both
    collections as they were, whichever callbacks the router runs. *)
Theorem X1_admin_commands_read_only env msg w :
  (∀ c : AdminCommand,
     users (admin_handler env c msg w).2 = users w ∧
     linkclicks (admin_handler env c msg w).2 = linkclicks w) ∧
  (∀ t, text msg = Some t → Re.start t = None →
     users (processUpdate env msg w).2 = users w ∧
     linkclicks (processUpdate env msg w).2 = linkclicks w).
Proof.
  split.
  - intros c. apply read_only_admin_handler.
  - intros t Htext Hre. destruct t as [|a t].
    + unfold processUpdate. by rewrite Htext.
    + assert (Js.or_null (text msg) = Some (String a t)) as Ht
        by (by rewrite Htext).
      rewrite (processUpdate_users env msg _ w Ht).
      rewrite (processUpdate_linkclicks env msg _ w Ht).
      by rewrite Hre.
Qed.

Lemma X1_admin_commands_read_only_witness :
  users (processUpdate (reference_env None always always)
           (msg_5 "/broadcast hello /stats") three_users).2 =
    users three_users ∧
  linkclicks (processUpdate (reference_env None always always)
                (msg_5 "/broadcast hello /stats") three_users).2 = [].
Proof.
  apply (proj2 (X1_admin_commands_read_only
                  (reference_env None always always)
                  (msg_5 "/broadcast hello /stats") three_users)
           "/broadcast hello /stats" eq_refl eq_refl).
Defined.

(** What [saveUserData] adds to the trace: calls to the store only. *)
Lemma saveUserData_trace env msg wid w :
  ∃ evs,
    trace (saveUserData env msg wid w).2 = trace w ++ evs ∧
    Forall (λ e, is_store_event e = true) evs ∧
    sends (saveUserData env msg wid w).2 = sends w.
Proof.
  unfold saveUserData, try_catch, User_findOne, mbind, M_bind, storeCall.
  destruct (store_ok env (queries w)); cbn [fst snd].
  - cbn [users record count_query].
    destruct (list_find _ _) as [[i u]|]; cbn [fst snd];
      unfold User_save_at, User_save_new, storeCall, mbind, M_bind, newDate,
        mret, M_ret;
      cbn [fst snd queries record count_query];
      destruct (store_ok env (S (queries w))); cbn [fst snd];
      (eexists [_; _]; split_and!;
        [trace_norm; reflexivity|by repeat constructor|done]).
  - eexists [_]. split_and!;
      [trace_norm; reflexivity|by repeat constructor|done].
Qed.

Lemma trackLinkClick_trace env userId uname wid w :
  ∃ evs,
    trace (trackLinkClick env userId uname wid w).2 = trace w ++ evs ∧
    Forall (λ e, is_store_event e = true) evs ∧
    sends (trackLinkClick env userId uname wid w).2 = sends w.
Proof.
  unfold trackLinkClick, try_catch, LinkClick_save, mbind, M_bind, storeCall,
    newDate, mret, M_ret.
  cbn [fst snd LinkClick.wallpaperId]. destruct (Js.truthy wid).
  - destruct (store_ok env (queries w)); cbn [fst snd];
      (eexists [_]; split_and!;
        [trace_norm; reflexivity|by repeat constructor|done]).
  - exists []. by rewrite app_nil_r.
Qed.

Lemma gateway_events_store evs :
  Forall (λ e, is_store_event e = true) evs → gateway_events evs = [].
Proof.
  unfold gateway_events. induction 1 as [|e evs He _ IH]; [done|].
  rewrite filter_cons_False; [done|]. by destruct e.
Qed.

Lemma gateway_events_app evs1 evs2 :
  gateway_events (evs1 ++ evs2) = gateway_events evs1 ++ gateway_events evs2.
Proof. apply filter_app. Qed.

(** X2.  [saveUserData] is best effort.  It never rejects and never
    touches the link clicks; when the store rejects the lookup or the save,
    it returns [undefined] and the [User] collection is as it was: nothing
    is retried and nothing is half-written. *)
Theorem X2_saveUserData_best_effort env msg wid w :
  (∃ r, (saveUserData env msg wid w).1 = Resolved r) ∧
  linkclicks (saveUserData env msg wid w).2 = linkclicks w ∧
  (store_ok env (queries w) = false ∨ store_ok env (S (queries w)) = false →
   (saveUserData env msg wid w).1 = Resolved None ∧
   users (saveUserData env msg wid w).2 = users w).
Proof.
  split; [apply saveUserData_resolves|].
  split; [apply saveUserData_linkclicks|].
  intros Hfail.
  unfold saveUserData, try_catch, User_findOne, mbind, M_bind, storeCall.
  destruct (store_ok env (queries w)) eqn:Hq0; cbn [fst snd]; [|done].
  destruct Hfail as [?|Hq1]; [done|].
  cbn [users record count_query].
  destruct (list_find _ _) as [[i u]|]; cbn [fst snd];
    unfold User_save_at, User_save_new, storeCall, mbind, M_bind, newDate,
      mret, M_ret;
    cbn [fst snd queries record count_query]; by rewrite Hq1.
Qed.

Lemma X2_saveUserData_best_effort_witness :
  (saveUserData (reference_env None always (λ k, (k =? 0)%nat))
     msg_5_bot (Some "A") world_with_5).1 = Resolved None ∧
  users (saveUserData (reference_env None always (λ k, (k =? 0)%nat))
           msg_5_bot (Some "A") world_with_5).2 = [user_seen 5 0].
Proof.
  apply (proj2 (proj2 (X2_saveUserData_best_effort
                         (reference_env None always (λ k, (k =? 0)%nat))
                         msg_5_bot (Some "A") world_with_5))).
  right. reflexivity.
Defined.

Lemma sendMessage_trace env chat body opts w :
  trace (sendMessage env chat body opts w).2 =
    trace w ++ [EvSend chat body opts (send_ok env (sends w))].
Proof. reflexivity. Qed.

(** X3.  The [/start] handler cannot fail.  Whatever the store and the
    gateway answer it resolves, and it calls the gateway exactly once: the
    welcome message to the chat, in HTML mode, with the channel button
    always and the wallpaper button (linking to the trimmed parameter)
    exactly when the parameter is not empty. *)
Theorem X3_start_never_fails env msg match1 w :
  let out := on_start env msg match1 w in
  let wallpaperId := start_wallpaperId match1 in
  out.1 = Resolved () ∧
  ∃ ok,
    gateway_events (new_events w out.2) =
      [EvSend (chat_id msg) (welcome_for wallpaperId)
         {| parse_mode := Some "HTML";
            reply_markup := keyboard_for wallpaperId |} ok].
Proof.
  cbv zeta. unfold on_start.
  destruct (start_wallpaperId match1) as [wid|]; unfold mbind, M_bind.
  - destruct (saveUserData_resolves env msg (Some wid) w) as [r Hr].
    destruct (saveUserData_trace env msg (Some wid) w)
      as (evs1 & Htr1 & Hev1 & Hs1).
    destruct (saveUserData env msg (Some wid) w) as [r1 w1].
    cbn [fst snd] in Hr, Htr1, Hs1; subst r1. cbn beta iota.
    pose proof (trackLinkClick_resolves env (id (from msg))
                  (username (from msg)) wid w1) as Ht.
    destruct (trackLinkClick_trace env (id (from msg))
                (username (from msg)) wid w1) as (evs2 & Htr2 & Hev2 & Hs2).
    destruct (trackLinkClick _ _ _ _ w1) as [r2 w2].
    cbn [fst snd] in Ht, Htr2, Hs2; subst r2. cbn beta iota.
    rewrite guarded_send.
    set (w3 := (sendMessage env _ _ _ w2).2). cbn [fst snd]. subst w3.
    split; [done|].
    exists (send_ok env (sends w2)).
    rewrite (new_events_app w _
      (evs1 ++ evs2 ++
       [EvSend (chat_id msg) (welcome_for (Some wid))
          {| parse_mode := Some "HTML";
             reply_markup := keyboard_for (Some wid) |}
          (send_ok env (sends w2))])).
    2:{ rewrite sendMessage_trace, Htr2, Htr1.
        by rewrite <-!(assoc_L (++)). }
    by rewrite !gateway_events_app, !gateway_events_store by done.
  - destruct (saveUserData_resolves env msg None w) as [r Hr].
    destruct (saveUserData_trace env msg None w)
      as (evs1 & Htr1 & Hev1 & Hs1).
    destruct (saveUserData env msg None w) as [r1 w1].
    cbn [fst snd] in Hr, Htr1, Hs1; subst r1.
    cbn beta iota.
    change (@mret M M_ret unit () w1) with (@Resolved unit (), w1).
    cbn beta iota.
    rewrite guarded_send.
    set (w3 := (sendMessage env _ _ _ w1).2). cbn [fst snd]. subst w3.
    split; [done|].
    exists (send_ok env (sends w1)).
    rewrite (new_events_app w _
      (evs1 ++
       [EvSend (chat_id msg) (welcome_for None)
          {| parse_mode := Some "HTML"; reply_markup := keyboard_for None |}
          (send_ok env (sends w1))])).
    2:{ rewrite sendMessage_trace, Htr1.
        by rewrite <-!(assoc_L (++)). }
    by rewrite !gateway_events_app, !gateway_events_store by done.
Qed.

(** X4.  The replies of the admin handlers are not guarded.  For every
    admin command but [/adminhelp], when the caller is unauthorized and the
    gateway refuses the unauthorized reply, the handler rejects: nothing
    catches the failed send.  Past the check, when the store rejects the
    first call of [/stats] and the gateway refuses the error reply sent from
    the [catch] block, the handler rejects as well.  [/adminhelp] called by
    an unauthorized caller resolves without calling anything. *)
Theorem X4_admin_replies_unguarded env msg w :
  (∀ c : AdminCommand,
     c ≠ CmdAdminhelp →
     unauthorized env (id (from msg)) = true →
     send_ok env (sends w) = false →
     (admin_handler env c msg w).1 = Rejected) ∧
  (unauthorized env (id (from msg)) = false →
   store_ok env (queries w) = false →
   send_ok env (sends w) = false →
   (on_stats env msg () w).1 = Rejected) ∧
  (unauthorized env (id (from msg)) = true →
   on_adminhelp env msg () w = (Resolved (), w)).
Proof.
  split_and!.
  - intros c Hc Hun Hsend.
    destruct c; try done; simpl;
      unfold on_stats, on_toplinks, on_recentusers, on_userinfo,
        on_broadcast; rewrite Hun; unfold sendMessage; by rewrite Hsend.
  - intros Hauth Hq Hsend. unfold on_stats. rewrite Hauth.
    unfold stats_authorized, try_catch, mbind, M_bind, User_countDocuments,
      storeCall.
    rewrite Hq. cbn [fst snd]. unfold sendMessage.
    cbn [sends record count_query]. by rewrite Hsend.
  - intros Hun. unfold on_adminhelp. by rewrite Hun.
Qed.

Lemma X4_admin_replies_unguarded_witness :
  (admin_handler (reference_env (Some "1") two_refusals always)
     (CmdBroadcast "hello") (msg_5 "/broadcast hello") three_users).1 =
    Rejected ∧
  (on_stats (reference_env None two_refusals (λ _, false))
     (msg_5 "/stats") () three_users).1 = Rejected.
Proof.
  pose proof (X4_admin_replies_unguarded
                (reference_env (Some "1") two_refusals always)
                (msg_5 "/broadcast hello") three_users) as H1.
  pose proof (X4_admin_replies_unguarded
                (reference_env None two_refusals (λ _, false))
                (msg_5 "/stats") three_users) as H2.
  split.
  - apply (proj1 H1 (CmdBroadcast "hello")); [discriminate|reflexivity..].
  - apply (proj1 (proj2 H2)); reflexivity.
Defined.

(** * Beyond the claims: identifiers printed and parsed *)

Lemma pretty_N_char_digit d :
  (d < 10)%N →
  Js.digitValue 10 (pretty_N_char d) = Some (Z.of_N d) ∧
  Js.isDigit (pretty_N_char d) = true.
Proof.
  intros Hd.
  assert (d = 0 ∨ d = 1 ∨ d = 2 ∨ d = 3 ∨ d = 4 ∨ d = 5 ∨ d = 6 ∨ d = 7 ∨
          d = 8 ∨ d = 9)%N as Hcases by lia.
  repeat destruct Hcases as [->|Hcases]; try subst d; by vm_compute.
Qed.

(** Reading back the digits that [toString] wrote for [x]. *)
Lemma parseDigits_pretty_N_go x :
  (0 < x)%N →
  ∀ s seen,
    Js.parseDigits 10 (pretty_N_go x s) 0 seen =
    Js.parseDigits 10 s (Z.of_N x) true.
Proof.
  induction (N.lt_wf_0 x) as [x _ IH]; intros Hx s seen.
  rewrite pretty_N_go_step by done.
  destruct (pretty_N_char_digit (x `mod` 10)) as [Hval _].
  { by apply N.mod_lt. }
  pose proof (N.div_mod x 10 ltac:(done)) as Hdm.
  assert (x `div` 10 < x)%N as Hlt by (by apply N.div_lt).
  revert Hval Hdm Hlt.
  generalize (x `mod` 10)%N (x `div` 10)%N. intros m q Hval Hdm Hlt.
  destruct (decide (q = 0)%N) as [Hz|Hnz].
  - rewrite Hz, pretty_N_go_0. cbn [Js.parseDigits]. rewrite Hval.
    f_equal. lia.
  - rewrite IH; [|done|lia].
    cbn [Js.parseDigits]. rewrite Hval. f_equal. lia.
Qed.

Lemma pretty_N_go_digits x :
  ∀ s,
    (∀ c, c ∈ String.list_ascii_of_string s → Js.isDigit c = true) →
    ∀ c, c ∈ String.list_ascii_of_string (pretty_N_go x s) →
         Js.isDigit c = true.
Proof.
  induction (N.lt_wf_0 x) as [x _ IH]; intros s Hs.
  destruct (decide (0 < x)%N) as [Hx|Hx].
  - rewrite pretty_N_go_step by done. apply IH; [by apply N.div_lt|].
    intros c [->|Hc]%elem_of_cons; [|by apply Hs].
    apply pretty_N_char_digit. by apply N.mod_lt.
  - replace x with 0%N by lia. by rewrite pretty_N_go_0.
Qed.

Lemma pretty_N_go_nonempty x s : s ≠ "" → pretty_N_go x s ≠ "".
Proof.
  revert s. induction (N.lt_wf_0 x) as [x _ IH]; intros s Hs.
  destruct (decide (0 < x)%N) as [Hx|Hx].
  - rewrite pretty_N_go_step by done. apply IH; [by apply N.div_lt|done].
  - replace x with 0%N by lia. by rewrite pretty_N_go_0.
Qed.

(** On a non-empty run of decimal digits [parseInt] takes no sign and no
    hexadecimal prefix: it reads the digits in radix 10. *)
Lemma parseIntStr_decimal s :
  s ≠ "" →
  (∀ c, c ∈ String.list_ascii_of_string s → Js.isDigit c = true) →
  Js.parseIntStr s =
    (λ v, 1 * v) <$> Js.parseDigits 10 s 0 false.
Proof.
  intros Hne Hall. destruct s as [|a s]; [done|].
  destruct (isDigit_value a) as (Hws & Hm & Hp & _ & _ & _).
  { apply Hall. simpl. left. }
  unfold Js.parseIntStr. rewrite (trimStart_not_lead _ _ Hws).
  destruct s as [|b s].
  - destruct a as [[] [] [] [] [] [] [] []]; try done;
      by destruct (Js.parseDigits 10 _ 0 false).
  - destruct (isDigit_value b) as (_ & _ & _ & Hx & HX & _).
    { apply Hall. simpl. right. left. }
    destruct a as [[] [] [] [] [] [] [] []]; try done;
      try (by destruct (Js.parseDigits 10 _ 0 false));
      destruct b as [[] [] [] [] [] [] [] []]; try done;
      by destruct (Js.parseDigits 10 _ 0 false).
Qed.

(** A minus sign before a digit: [parseInt] negates what follows. *)
Lemma parseIntStr_minus a r :
  Js.isDigit a = true →
  Js.parseIntStr (String "-" (String a r)) =
    Z.opp <$> Js.parseIntStr (String a r).
Proof.
  intros Hdig. destruct (isDigit_value a Hdig) as (Hws & _).
  unfold Js.parseIntStr.
  rewrite (trimStart_not_lead "-" (String a r) eq_refl).
  rewrite (trimStart_not_lead a r Hws). cbn iota.
  destruct a as [[] [] [] [] [] [] [] []]; try done; cbn iota;
    try (destruct (Js.parseDigits 10 _ 0 false) as [v|]; simpl;
         [f_equal; lia|done]).
  destruct r as [|[[] [] [] [] [] [] [] []] r]; cbn iota;
    destruct (Js.parseDigits _ _ 0 false) as [v|]; simpl;
    by (f_equal; lia).
Qed.

Lemma parseIntStr_pretty_N x :
  (0 < x)%N →
  Js.parseIntStr (pretty_N_go x "") = Some (Z.of_N x) ∧
  ∃ a r, pretty_N_go x "" = String a r ∧ Js.isDigit a = true.
Proof.
  intros Hx.
  assert (∀ c, c ∈ String.list_ascii_of_string (pretty_N_go x "") →
               Js.isDigit c = true) as Hall.
  { apply pretty_N_go_digits. intros c Hc. by apply elem_of_nil in Hc. }
  assert (pretty_N_go x "" ≠ "") as Hne.
  { rewrite pretty_N_go_step by done. by apply pretty_N_go_nonempty. }
  split.
  - rewrite parseIntStr_decimal by done.
    rewrite parseDigits_pretty_N_go by done. simpl. f_equal. lia.
  - destruct (pretty_N_go x "") as [|a r]; [done|].
    exists a, r. split; [done|]. apply Hall. simpl. left.
Qed.

Lemma parseInt_toString n :
  Js.parseIntStr (Js.toString n) = Some n ∧
  Js.truthy (Js.toString n) = true ∧
  Js.startsWith (Js.toString n) "@" = false.
Proof.
  unfold Js.toString, pretty, pretty_Z.
  destruct n as [|p|p].
  - by vm_compute.
  - unfold pretty, pretty_positive, pretty, pretty_N.
    rewrite decide_False by done.
    destruct (parseIntStr_pretty_N (N.pos p) ltac:(done))
      as (Hparse & a & r & Hstr & Hdig).
    split; [by rewrite Hparse|]. rewrite Hstr. split; [done|].
    unfold Js.startsWith. cbn [Js.stripPrefix].
    rewrite bool_decide_false; [done|]. intros <-. done.
  - unfold pretty, pretty_positive, pretty, pretty_N.
    rewrite decide_False by done.
    destruct (parseIntStr_pretty_N (N.pos p) ltac:(done))
      as (Hparse & a & r & Hstr & Hdig).
    rewrite Hstr in Hparse |- *.
    change ("-" +:+ String a r) with (String "-" (String a r)).
    split; [|done].
    by rewrite parseIntStr_minus, Hparse.
Qed.

(** The place of a record in a collection where identifiers are unique. *)
Lemma findOne_unique (l : list User.t) u :
  u ∈ l →
  NoDup (User.userId <$> l) →
  ∃ i, list_find (λ x, User.userId x = User.userId u) l = Some (i, u).
Proof.
  intros [i Hi]%list_elem_of_lookup Hnd. exists i.
  apply list_find_Some. split_and!; [done..|].
  intros j y Hj Hlt Heq.
  assert (j = i); [|lia].
  apply (NoDup_lookup _ j i (User.userId u) Hnd).
  - by rewrite list_lookup_fmap, Hj, <-Heq.
  - by rewrite list_lookup_fmap, Hi.
Qed.

(** X6.  The identifier that the bot prints for a user finds that user.
    For an authorized caller, a store that holds one record per identifier
    and answers, and a gateway that accepts the reply: [/userinfo] with the
    argument [userId.toString()] of a stored user replies with the profile
    of exactly that user, with the number of that user's link clicks. *)
Theorem X6_userinfo_by_printed_id env msg w u :
  unauthorized env (id (from msg)) = false →
  gateway_up env →
  store_up env →
  u ∈ users w →
  NoDup (User.userId <$> users w) →
  new_events w
    (on_userinfo env msg (Some (Js.toString (User.userId u))) w).2 =
    [EvStore UserFindOne true; EvStore LinkClickCountDocuments true;
     EvSend (chat_id msg)
       (userinfo_message env u
          (count_clicks_of (User.userId u) (linkclicks w)))
       html true].
Proof.
  intros Hauth Hgw Hstore Hu Hnd.
  destruct (parseInt_toString (User.userId u))
    as (Hparse & Htruthy & Hat).
  destruct (findOne_unique _ u Hu Hnd) as [i Hfind].
  unfold on_userinfo. rewrite Hauth.
  unfold userinfo_authorized, Js.or_null. rewrite Htruthy.
  unfold userinfo_lookup. rewrite Hat, Hparse.
  by eapply userinfo_lookup_by_found.
Qed.

Lemma X6_userinfo_by_printed_id_witness :
  new_events two_users
    (on_userinfo (reference_env None always always)
       (msg_5 "/userinfo -7") (Some (Js.toString (-7))) two_users).2 =
    [EvStore UserFindOne true; EvStore LinkClickCountDocuments true;
     EvSend 5
       (userinfo_message (reference_env None always always)
          (user_seen (-7) 2000) 0)
       html true].
Proof.
  apply (X6_userinfo_by_printed_id (reference_env None always always)
           (msg_5 "/userinfo -7") two_users (user_seen (-7) 2000)).
  - reflexivity.
  - intros k. reflexivity.
  - intros k. reflexivity.
  - right. left.
  - apply (bool_decide_unpack _). by vm_compute.
Defined.

(** * Beyond the claims: what [saveUserData] keeps *)

(** The three things [saveUserData] can do to the [User] collection. *)
Lemma saveUserData_users_cases env msg wid w :
  let w' := (saveUserData env msg wid w).2 in
  let found := list_find (λ u, User.userId u = id (from msg)) (users w) in
  users w' = users w ∨
  (∃ i u, found = Some (i, u) ∧
          users w' = <[i := updated_user u (from msg) wid (clock w)]>
                       (users w)) ∨
  (found = None ∧
   users w' = users w ++ [created_user (from msg) wid (clock w)]).
Proof.
  cbv zeta.
  unfold saveUserData, try_catch, User_findOne, mbind, M_bind, storeCall.
  destruct (store_ok env (queries w)); cbn [fst snd]; [|by left].
  cbn [users record count_query].
  destruct (list_find _ _) as [[i u]|] eqn:Hfind; cbn [fst snd];
    unfold User_save_at, User_save_new, storeCall, mbind, M_bind, newDate,
      mret, M_ret;
    cbn [fst snd queries record count_query];
    (destruct (store_ok env (S (queries w))); cbn [fst snd]; [|by left]).
  - right; left. by exists i, u.
  - right; right. done.
Qed.

(** X7.  [saveUserData] keeps one record per identifier.  Whatever the
    store answers: if no two records carry the same identifier before the
    call, none do after it; every record of another user stays at its place
    unchanged; and no record is ever removed (the collection keeps its
    length or grows by one). *)
Theorem X7_user_ids_stay_unique env msg wid w :
  let w' := (saveUserData env msg wid w).2 in
  (NoDup (User.userId <$> users w) → NoDup (User.userId <$> users w')) ∧
  (∀ j u, users w !! j = Some u → User.userId u ≠ id (from msg) →
          users w' !! j = Some u) ∧
  (length (users w) ≤ length (users w') ≤ S (length (users w)))%nat.
Proof.
  cbv zeta.
  destruct (saveUserData_users_cases env msg wid w)
    as [->|[(i & u & Hfind & ->)|[Hfind ->]]].
  - split_and!; [done|done|lia..].
  - apply list_find_Some in Hfind as (Hi & Hid & _).
    split_and!.
    + intros Hnd. rewrite list_fmap_insert. cbn [updated_user User.userId].
      rewrite list_insert_id; [done|]. by rewrite list_lookup_fmap, Hi.
    + intros j u' Hj Hne. rewrite list_lookup_insert_ne; [done|].
      intros ->. rewrite Hi in Hj. by injection Hj as ->.
    + rewrite length_insert. lia.
    + rewrite length_insert. lia.
  - apply list_find_None in Hfind. rewrite Forall_forall in Hfind.
    split_and!.
    + intros Hnd. rewrite fmap_app. apply NoDup_app. split_and!.
      * done.
      * intros x (u & Hx & Hu)%list_elem_of_fmap Hnew.
        apply list_elem_of_singleton in Hnew. simpl in Hnew.
        apply (Hfind u Hu). congruence.
      * apply NoDup_singleton.
    + intros j u' Hj _. by apply lookup_app_l_Some.
    + rewrite length_app. lia.
    + rewrite length_app. simpl. lia.
Qed.

Lemma X7_user_ids_stay_unique_witness :
  NoDup (User.userId <$>
           users (saveUserData (reference_env None always always)
                    (msg_5 "/start A") (Some "A") two_users).2) ∧
  users (saveUserData (reference_env None always always)
           (msg_5 "/start A") (Some "A") two_users).2 !! 1%nat =
    Some (user_seen (-7) 2000).
Proof.
  pose proof (X7_user_ids_stay_unique (reference_env None always always)
                (msg_5 "/start A") (Some "A") two_users) as (H1 & H2 & _).
  split.
  - apply H1. apply (bool_decide_unpack _). by vm_compute.
  - apply H2; [reflexivity|discriminate].
Defined.

(** The invariant of a run of dated interactions of one user, once the
    record exists: the run changes neither the first-seen date nor the bot
    flag, and the record carries the date and the profile of the last
    interaction. *)
Lemma recordInteractionsAt_invariant env uid calls :
  store_up env →
  ∀ w l u,
  (∀ c, c ∈ calls → id (from c.1.2) = uid) →
  users w = l ++ [u] →
  (∀ x, x ∈ l → User.userId x ≠ uid) →
  User.userId u = uid →
  ∃ u',
    users (recordInteractionsAt env calls w) = l ++ [u'] ∧
    User.userId u' = uid ∧
    User.firstSeen u' = User.firstSeen u ∧
    User.isBot u' = User.isBot u ∧
    match last calls with
    | None => u' = u
    | Some c =>
        User.lastActive u' = c.1.1 ∧ five_fields_overwritten (from c.1.2) u'
    end.
Proof.
  intros Hstore. induction calls as [|[[t msg] wid] calls IH];
    intros w l u Hids Hw Hl Hu.
  - by exists u.
  - assert (id (from msg) = uid) as Hmsg
      by (apply (Hids (t, msg, wid)); left).
    pose proof (saveUserData_update env Hstore msg wid (set_clock t w)
                  (length l) u) as Hstep.
    cbn [users clock set_clock] in Hstep. rewrite Hmsg, Hw in Hstep.
    specialize (Hstep (findOne_last l u uid Hl Hu)).
    replace (length l) with (length l + 0)%nat in Hstep by lia.
    rewrite insert_app_r in Hstep. cbn [insert list_insert] in Hstep.
    set (u1 := updated_user u (from msg) wid t) in *.
    destruct (IH (saveUserData env msg wid (set_clock t w)).2 l u1)
      as (u' & Hus & Hid & Hfs & Hbot & Hlast).
    + intros c Hc. apply Hids. by right.
    + done.
    + done.
    + done.
    + exists u'.
      split_and!; [exact Hus|done|by rewrite Hfs|by rewrite Hbot|].
      destruct calls as [|c calls].
      * cbn [last] in Hlast |- *. subst u'. cbn [fst snd]. by split.
      * rewrite last_cons_cons.
        destruct (last (c :: calls)) eqn:Hc; [done|].
        by apply last_None in Hc.
Qed.

(** X8.  First-seen is written once, last-active every time.  For every
    non-empty run of dated [saveUserData] calls of one user on a store that
    holds no record of that user and accepts the calls: the one record of
    the user has the date of the first call as first-seen and the bot flag
    of the first sender, and has the date of the last call as last-active
    and the username, names, language and premium flag of the last
    sender. *)
Theorem X8_first_seen_once env uid first rest w :
  store_up env →
  (∀ c, c ∈ first :: rest → id (from c.1.2) = uid) →
  (∀ x, x ∈ users w → User.userId x ≠ uid) →
  ∃ u,
    filter (λ x, User.userId x = uid)
      (users (recordInteractionsAt env (first :: rest) w)) = [u] ∧
    User.firstSeen u = first.1.1 ∧
    User.isBot u = Js.or_false (is_bot (from first.1.2)) ∧
    ∀ c, last (first :: rest) = Some c →
         User.lastActive u = c.1.1 ∧ five_fields_overwritten (from c.1.2) u.
Proof.
  intros Hstore Hids Hfresh. destruct first as [[t msg] wid].
  change (recordInteractionsAt env ((t, msg, wid) :: rest) w)
    with (recordInteractionsAt env rest
            (saveUserData env msg wid (set_clock t w)).2).
  assert (id (from msg) = uid) as Hmsg
    by (apply (Hids (t, msg, wid)); left).
  pose proof (saveUserData_create env Hstore msg wid (set_clock t w))
    as Hstep.
  cbn [users clock set_clock] in Hstep. rewrite Hmsg in Hstep.
  specialize (Hstep (findOne_absent _ _ Hfresh)).
  set (u0 := created_user (from msg) wid t) in *.
  destruct (recordInteractionsAt_invariant env uid rest Hstore
              (saveUserData env msg wid (set_clock t w)).2 (users w) u0)
    as (u & Hus & Hid & Hfs & Hbot & Hlast); [|done..|].
  { intros c Hc. apply Hids. by right. }
  exists u. rewrite Hus. split_and!.
  - rewrite filter_app, (filter_absent _ _ Hfresh).
    by rewrite filter_cons_True, filter_nil.
  - by rewrite Hfs.
  - by rewrite Hbot.
  - intros c Hc. destruct rest as [|c' rest].
    + cbn [last] in Hlast, Hc. injection Hc as <-. subst u.
      cbn [fst snd]. by split.
    + rewrite last_cons_cons in Hc. by rewrite Hc in Hlast.
Qed.

Lemma X8_first_seen_once_witness :
  ∃ u,
    filter (λ x, User.userId x = 5)
      (users (recordInteractionsAt (reference_env None always always)
                [(100, msg_5 "/start A", Some "A");
                 (200, msg_5_bot, None)] (empty_world 0))) = [u] ∧
    User.firstSeen u = 100 ∧
    User.isBot u = false ∧
    ∀ c, Some (200, msg_5_bot, @None string) = Some c →
         User.lastActive u = c.1.1 ∧ five_fields_overwritten (from c.1.2) u.
Proof.
  apply (X8_first_seen_once (reference_env None always always) 5
           (100, msg_5 "/start A", Some "A") [(200, msg_5_bot, None)]
           (empty_world 0)).
  - intros k. reflexivity.
  - intros c Hc. repeat (apply elem_of_cons in Hc as [->|Hc]; [reflexivity|]).
    by apply elem_of_nil in Hc.
  - intros x Hx. by apply elem_of_nil in Hx.
Defined.

(** * Beyond the claims: the two collections agree *)

Lemma trackLinkClick_users env userId uname wid w :
  users (trackLinkClick env userId uname wid w).2 = users w.
Proof.
  unfold trackLinkClick, try_catch, LinkClick_save, mbind, M_bind, storeCall,
    newDate, mret, M_ret.
  cbn [fst snd LinkClick.wallpaperId]. destruct (Js.truthy wid); [|done].
  by destruct (store_ok env (queries w)).
Qed.

Lemma on_start_users env msg match1 w :
  users (on_start env msg match1 w).2 =
    users (saveUserData env msg (start_wallpaperId match1) w).2.
Proof.
  unfold on_start.
  destruct (start_wallpaperId match1) as [wid|]; unfold mbind, M_bind.
  - destruct (saveUserData_resolves env msg (Some wid) w) as [r Hr].
    destruct (saveUserData env msg (Some wid) w) as [r1 w1].
    simpl in Hr; subst r1; simpl.
    pose proof (trackLinkClick_resolves env (id (from msg))
                  (username (from msg)) wid w1) as Ht.
    pose proof (trackLinkClick_users env (id (from msg))
                  (username (from msg)) wid w1) as Hu.
    destruct (trackLinkClick _ _ _ _ w1) as [r2 w2].
    simpl in Ht, Hu; subst r2; simpl.
    by rewrite guarded_send.
  - destruct (saveUserData_resolves env msg None w) as [r Hr].
    destruct (saveUserData env msg None w) as [r1 w1].
    simpl in Hr; subst r1; simpl.
    by rewrite guarded_send.
Qed.

(** A record is rewritten in place, with at most one more viewed wallpaper
    [p] for which the click [c] is logged. *)
Lemma consistent_update us cs i u u' (new : option (string * LinkClick.t)) :
  us !! i = Some u →
  User.userId u' = User.userId u →
  (∀ k, k ∈ User.wallpapersViewed u' ↔
        k ∈ User.wallpapersViewed u ∨
        ∃ c, new = Some (k, c)) →
  (∀ p c, new = Some (p, c) →
          LinkClick.wallpaperId c = p ∧ LinkClick.userId c = User.userId u) →
  consistent us cs →
  consistent (<[i := u']> us)
    (cs ++ match new with Some (_, c) => [c] | None => [] end).
Proof.
  intros Hi Hid Hviewed Hnew [Hclicks Hviews].
  assert (i < length us)%nat as Hlen by (by eapply lookup_lt_Some).
  assert (u' ∈ <[i := u']> us) as Hu' by (by apply list_elem_of_insert).
  split.
  - intros c [Hc|Hc]%elem_of_app.
    + destruct (Hclicks c Hc) as (u0 & [j Hj]%list_elem_of_lookup & Hu0 & Hk).
      destruct (decide (j = i)) as [->|Hne].
      * rewrite Hi in Hj. injection Hj as <-.
        exists u'. split_and!; [done|congruence|]. apply Hviewed. by left.
      * exists u0. split_and!; [|done..].
        apply list_elem_of_lookup. exists j.
        by rewrite list_lookup_insert_ne.
    + destruct new as [[p c0]|]; [|by apply elem_of_nil in Hc].
      apply list_elem_of_singleton in Hc as ->.
      destruct (Hnew p c0 eq_refl) as [Hp Hc0].
      exists u'. split_and!; [done|congruence|].
      apply Hviewed. right. exists c0. by rewrite Hp.
  - intros u0 k [j Hj]%list_elem_of_lookup Hk.
    apply list_lookup_insert_Some in Hj as [(-> & <- & _)|[Hne Hj]].
    + apply Hviewed in Hk as [Hk|[c0 Hc0]].
      * destruct (Hviews u k) as (c & Hc & Hcu & Hck);
          [by eapply list_elem_of_lookup_2|done|].
        exists c. split_and!; [apply elem_of_app; by left|congruence|done].
      * destruct (Hnew k c0 Hc0) as [Hp Hcu]. subst new.
        exists c0. split_and!; [|congruence|done].
        apply elem_of_app. right. by apply list_elem_of_singleton.
    + destruct (Hviews u0 k) as (c & Hc & Hcu & Hck);
        [by eapply list_elem_of_lookup_2|done|].
      exists c. split_and!; [apply elem_of_app; by left|done..].
Qed.

(** A record is appended, with at most one viewed wallpaper [p] for which
    the click [c] is logged. *)
Lemma consistent_create us cs u' (new : option (string * LinkClick.t)) :
  (∀ k, k ∈ User.wallpapersViewed u' ↔ ∃ c, new = Some (k, c)) →
  (∀ p c, new = Some (p, c) →
          LinkClick.wallpaperId c = p ∧ LinkClick.userId c = User.userId u') →
  consistent us cs →
  consistent (us ++ [u'])
    (cs ++ match new with Some (_, c) => [c] | None => [] end).
Proof.
  intros Hviewed Hnew [Hclicks Hviews]. split.
  - intros c [Hc|Hc]%elem_of_app.
    + destruct (Hclicks c Hc) as (u0 & Hu0 & Hid & Hk).
      exists u0. split_and!; [apply elem_of_app; by left|done..].
    + destruct new as [[p c0]|]; [|by apply elem_of_nil in Hc].
      apply list_elem_of_singleton in Hc as ->.
      destruct (Hnew p c0 eq_refl) as [Hp Hc0].
      exists u'. split_and!; [|done|].
      * apply elem_of_app. right. by apply list_elem_of_singleton.
      * apply Hviewed. exists c0. by rewrite Hp.
  - intros u0 k [Hu0|Hu0]%elem_of_app Hk.
    + destruct (Hviews u0 k Hu0 Hk) as (c & Hc & Hcu & Hck).
      exists c. split_and!; [apply elem_of_app; by left|done..].
    + apply list_elem_of_singleton in Hu0 as ->.
      apply Hviewed in Hk as [c0 Hc0].
      destruct (Hnew k c0 Hc0) as [Hp Hcu]. subst new.
      exists c0. split_and!; [|done..].
      apply elem_of_app. right. by apply list_elem_of_singleton.
Qed.

(** One [/start] on a store that accepts the calls keeps the collections
    in agreement. *)
Lemma on_start_consistent env msg match1 w :
  store_up env →
  clicks_match_views w →
  clicks_match_views (on_start env msg match1 w).2.
Proof.
  intros Hstore Hw. unfold clicks_match_views.
  rewrite on_start_users, on_start_linkclicks.
  set (wid := start_wallpaperId match1).
  set (new := (λ p, (p, {| LinkClick.wallpaperId := p;
                           LinkClick.userId := id (from msg);
                           LinkClick.username :=
                             Js.or_null (username (from msg));
                           LinkClick.timestamp := clock w |})) <$> wid).
  assert (Js.or_null wid = wid) as Hwid.
  { unfold wid, start_wallpaperId.
    destruct (Js.truthy (Js.trim match1)) eqn:Ht; [|done].
    unfold Js.or_null. by rewrite Ht. }
  assert (linkclicks w ++ match new with Some (_, c) => [c] | None => [] end =
          match wid with
          | Some p =>
              linkclicks
                (trackLinkClick env (id (from msg)) (username (from msg)) p
                   (saveUserData env msg (Some p) w).2).2
          | None => linkclicks w
          end) as <-.
  { unfold new. destruct wid as [p|]; simpl.
    - rewrite trackLinkClick_linkclicks; [|done|by intros ->].
      by rewrite saveUserData_linkclicks, saveUserData_clock.
    - by rewrite app_nil_r. }
  assert (∀ k, Js.or_null wid = Some k ↔ ∃ c, new = Some (k, c)) as Hnewk.
  { intros k. rewrite Hwid. unfold new.
    destruct wid as [p|]; simpl; [|naive_solver].
    split; [intros [= ->]; eauto|]. by intros [c [= ->]]. }
  destruct (list_find (λ u, User.userId u = id (from msg)) (users w))
    as [[i u]|] eqn:Hfind.
  - rewrite (saveUserData_update env Hstore msg wid w i u Hfind).
    apply list_find_Some in Hfind as (Hi & Hid & _).
    apply (consistent_update _ _ i u); [done|done| |  |done].
    + intros k. by rewrite updated_user_viewed, Hnewk.
    + intros p c Hpc. unfold new in Hpc.
      destruct wid as [p'|]; simpl in Hpc; [|done].
      injection Hpc as <- <-. by simpl.
  - rewrite (saveUserData_create env Hstore msg wid w Hfind).
    apply consistent_create; [| |done].
    + intros k. by rewrite created_user_viewed, Hnewk.
    + intros p c Hpc. unfold new in Hpc.
      destruct wid as [p'|]; simpl in Hpc; [|done].
      injection Hpc as <- <-. by simpl.
Qed.

(** X9.  The router keeps the two collections in agreement.  On a store
    that accepts every call, after any sequence of updates handled one
    after the other: every link click belongs to a stored user who has that
    wallpaper among the viewed ones, and every viewed wallpaper of a stored
    user has a link click of that user, provided this held before (as it
    does on an empty store). *)
Theorem X9_clicks_match_views env msgs w :
  store_up env →
  clicks_match_views w →
  clicks_match_views (processUpdates env msgs w).
Proof.
  intros Hstore. revert w.
  induction msgs as [|msg msgs IH]; intros w Hw; [done|].
  apply IH. unfold clicks_match_views.
  destruct (Js.or_null (text msg)) as [t|] eqn:Ht.
  - rewrite (processUpdate_users env msg t w Ht).
    rewrite (processUpdate_linkclicks env msg t w Ht).
    destruct (Re.start t) as [match1|]; [|done].
    by apply on_start_consistent.
  - unfold processUpdate. by rewrite Ht.
Qed.

Lemma X9_clicks_match_views_witness :
  clicks_match_views
    (processUpdates (reference_env None always always)
       [msg_5 "/start A"; msg_9 "/start A"; msg_5 "/stats";
        msg_5 "/start B"; msg_9 "/start"; msg_5 "/start A"]
       (empty_world 0)).
Proof.
  apply (X9_clicks_match_views (reference_env None always always)
           [msg_5 "/start A"; msg_9 "/start A"; msg_5 "/stats";
            msg_5 "/start B"; msg_9 "/start"; msg_5 "/start A"]
           (empty_world 0)).
  - intros k. reflexivity.
  - split.
    + intros c Hc. by apply elem_of_nil in Hc.
    + intros u k Hu. by apply elem_of_nil in Hu.
Defined.

(** * Beyond the claims: the [/recentusers] handler *)

Lemma recentusers_limit_pos t match1 :
  Re.recentusers t = Some match1 → 1 ≤ parse_limit match1.
Proof.
  unfold Re.recentusers. intros (t' & Hm)%search_Some.
  destruct (Js.stripPrefix "/recentusers" t') as [r|]; [|done].
  injection Hm as <-. unfold parse_limit, Js.parseInt, Re.spacesThenDigits.
  destruct (last (Js.afterSpaces r)) as [r'|]; [|done].
  destruct (Js.truthy _) eqn:Hd; [|done].
  destruct (parseIntStr_digits (Js.takeWhile Js.isDigit r'))
    as (v & -> & Hv).
  - unfold Js.truthy in Hd. by case_bool_decide.
  - apply takeWhile_all.
  - unfold Js.num_or. destruct (Z.eqb_spec v 0); lia.
Qed.

Lemma reference_env_users_kept admin sendOk storeOk :
  users_kept (reference_env admin sendOk storeOk).
Proof. by intros l. Qed.

(** The sort of [/recentusers]: descending order of first-seen dates. *)
Lemma sorted_users_spec env (l : list User.t) :
  users_kept env →
  let sorted := sort_stage User.firstSeen (-1) (scan_users env l) in
  sorted ≡ₚ l ∧ StronglySorted firstSeen_ge sorted.
Proof.
  intros Hscan sorted.
  destruct (sort_stage_spec User.firstSeen (-1) (scan_users env l))
    as [Hperm Hsorted].
  split.
  - unfold sorted. by rewrite Hperm.
  - eapply StronglySorted_impl; [|exact Hsorted].
    intros a b. unfold sort_le, firstSeen_ge. lia.
Qed.

Lemma recentusers_authorized_run env msg limit w :
  store_ok env (queries w) = true →
  let rows := recent_users env limit (users w) in
  new_events w (recentusers_authorized env msg limit w).2 =
    [EvStore UserFind true;
     recentusers_reply env (chat_id msg) limit rows
       (send_ok env (sends w))] ++
    (if send_ok env (sends w) then []
     else [EvSend (chat_id msg) "❌ Error fetching recent users." plain
             (send_ok env (S (sends w)))]).
Proof.
  intros Hq rows.
  unfold recentusers_authorized, try_catch, mbind, M_bind, User_find_recent.
  rewrite storeCall_ok by done. cbn [fst snd].
  cbn [users record count_query]. fold rows.
  unfold recentusers_reply. apply new_events_app.
  destruct (bool_decide (length rows = 0%nat)); unfold sendMessage;
    cbn [sends record count_query];
    destruct (send_ok env (sends w)); trace_norm; reflexivity.
Qed.

(** X10.  [/recentusers] lists the most recently seen users.  For an
    authorized caller, a store that accepts the query and any engine that
    hands every user to the sort, with [L] the limit computed from the
    capture (always at least 1; taken at most [Number.MAX_SAFE_INTEGER]):
    the query sorts the users by [{ firstSeen: -1 }] and keeps the first
    [L], so the users listed are [min L n] of the [n] stored users, in
    descending order of first-seen date, and no user left out was first
    seen after a listed one; the reply is the no-users message exactly when
    the store holds no user. *)
Theorem X10_recentusers env msg t match1 w :
  Re.recentusers t = Some match1 →
  parse_limit match1 ≤ Js.MAX_SAFE_INTEGER →
  unauthorized env (id (from msg)) = false →
  store_ok env (queries w) = true →
  users_kept env →
  let L := parse_limit match1 in
  let rows := recent_users env L (users w) in
  new_events w (on_recentusers env msg match1 w).2 =
    [EvStore UserFind true;
     recentusers_reply env (chat_id msg) L rows (send_ok env (sends w))] ++
    (if send_ok env (sends w) then []
     else [EvSend (chat_id msg) "❌ Error fetching recent users." plain
             (send_ok env (S (sends w)))]) ∧
  1 ≤ L ∧
  length rows = Nat.min (Z.to_nat L) (length (users w)) ∧
  StronglySorted firstSeen_ge rows ∧
  (∃ rest, rows ++ rest ≡ₚ users w ∧
           ∀ u v, u ∈ rows → v ∈ rest →
                  User.firstSeen v ≤ User.firstSeen u) ∧
  (users w = [] →
   recentusers_reply env (chat_id msg) L rows =
     EvSend (chat_id msg) "📊 No users found." plain) ∧
  (users w ≠ [] →
   recentusers_reply env (chat_id msg) L rows =
     EvSend (chat_id msg) (recentusers_message env L rows) html).
Proof.
  intros Hre Hsafe Hauth Hq Hscan L rows.
  pose proof (recentusers_limit_pos t match1 Hre) as HL. fold L in HL.
  destruct (sorted_users_spec env (users w) Hscan) as [Hperm Hsorted].
  set (sorted := sort_stage User.firstSeen (-1) (scan_users env (users w)))
    in *.
  assert (length rows = Nat.min (Z.to_nat L) (length (users w))) as Hlen.
  { unfold rows, recent_users, limit_stage. fold sorted.
    by rewrite length_take, Hperm. }
  assert (sorted = rows ++ drop (Z.to_nat L) sorted) as Hsplit.
  { unfold rows, recent_users, limit_stage. by rewrite take_drop. }
  split_and!.
  - unfold on_recentusers. rewrite Hauth.
    by apply recentusers_authorized_run.
  - done.
  - done.
  - rewrite Hsplit in Hsorted. by apply StronglySorted_app_1_l in Hsorted.
  - exists (drop (Z.to_nat L) sorted). split.
    + by rewrite <-Hsplit.
    + intros u v Hu Hv. rewrite Hsplit in Hsorted.
      apply (StronglySorted_app_1_elem_of _ _ _ u v Hsorted Hu Hv).
  - intros Hnil. unfold recentusers_reply.
    rewrite bool_decide_true; [done|]. rewrite Hlen, Hnil. simpl. lia.
  - intros Hne. unfold recentusers_reply.
    rewrite bool_decide_false; [done|]. rewrite Hlen.
    destruct (users w); [done|]. simpl. lia.
Qed.

Lemma X10_recentusers_witness :
  new_events two_users
    (on_recentusers (reference_env None always always)
       (msg_5 "/recentusers 1") (Some "1") two_users).2 =
    [EvStore UserFind true;
     EvSend 5
       (recentusers_message (reference_env None always always) 1
          [user_seen (-7) 2000])
       html true].
Proof.
  apply (proj1 (X10_recentusers (reference_env None always always)
                  (msg_5 "/recentusers 1") "/recentusers 1" (Some "1")
                  two_users eq_refl ltac:(by vm_compute) eq_refl eq_refl
                  (reference_env_users_kept None always always))).
Defined.

(** * Beyond the claims: the numbers of [/stats] *)

Lemma count_users_mono (P Q : User.t → Prop) `{!∀ u, Decision (P u)}
    `{!∀ u, Decision (Q u)} (us : list User.t) :
  (∀ u, P u → Q u) → 0 ≤ count_users P us ≤ count_users Q us.
Proof.
  intros HPQ. unfold count_users. induction us as [|u us IH]; [simpl; lia|].
  rewrite !filter_cons.
  destruct (decide (P u)) as [HP|HP].
  - rewrite decide_True by auto. simpl length. lia.
  - destruct (decide (Q u)); simpl length; lia.
Qed.

Lemma count_users_le_length (P : User.t → Prop) `{!∀ u, Decision (P u)}
    (us : list User.t) :
  count_users P us ≤ Z.of_nat (length us).
Proof. unfold count_users. pose proof (length_filter P us). lia. Qed.

(** X11.  The numbers of the [/stats] report are nested.  For an
    authorized caller and a store that accepts the calls, the report that
    the handler sends carries: the number of stored users as total, the
    number of link clicks, and counts with
    [0 <= new today <= new this week <= new this month <= total] and
    [0 <= premium <= total]. *)
Theorem X11_stats_counts_nested env msg w :
  store_up env →
  unauthorized env (id (from msg)) = false →
  ∃ today week month premium rest,
    new_events w (on_stats env msg () w).2 =
      [EvStore UserCountDocuments true; EvStore UserCountDocuments true;
       EvStore UserCountDocuments true; EvStore UserCountDocuments true;
       EvStore UserCountDocuments true; EvStore LinkClickCountDocuments true;
       EvSend (chat_id msg)
         (stats_message (Z.of_nat (length (users w))) today week month
            premium (Z.of_nat (length (linkclicks w)))
            (toLocaleString env (clock w)))
         html (send_ok env (sends w))] ++ rest ∧
    0 ≤ today ≤ week ∧ week ≤ month ∧ month ≤ Z.of_nat (length (users w)) ∧
    0 ≤ premium ≤ Z.of_nat (length (users w)).
Proof.
  intros Hstore Hauth.
  pose proof (setHours0_midnight (tz_offset env) (clock w)) as [Hday _].
  eexists _, _, _, _, _. split.
  - unfold on_stats. rewrite Hauth. by apply stats_authorized_run.
  - pose proof (count_users_mono
        (λ u, setHours0 (tz_offset env) (clock w) ≤ User.firstSeen u)
        (λ u, minusDays (clock w) 7 ≤ User.firstSeen u) (users w)) as H1.
    pose proof (count_users_mono
        (λ u, minusDays (clock w) 7 ≤ User.firstSeen u)
        (λ u, minusDays (clock w) 30 ≤ User.firstSeen u) (users w)) as H2.
    pose proof (count_users_le_length
        (λ u, minusDays (clock w) 30 ≤ User.firstSeen u) (users w)) as H3.
    pose proof (count_users_mono (λ u, User.isPremium u = true) (λ _, True)
        (users w)) as H4.
    pose proof (count_users_le_length (λ u, User.isPremium u = true)
        (users w)) as H5.
    unfold minusDays, ms_per_day in *.
    specialize (H1 ltac:(intros u; lia)). specialize (H2 ltac:(intros u; lia)).
    specialize (H4 ltac:(done)). lia.
Qed.

Lemma X11_stats_counts_nested_witness :
  ∃ today week month premium rest,
    new_events stats_world
      (on_stats (reference_env None always always) (msg_5 "/stats") ()
         stats_world).2 =
      [EvStore UserCountDocuments true; EvStore UserCountDocuments true;
       EvStore UserCountDocuments true; EvStore UserCountDocuments true;
       EvStore UserCountDocuments true; EvStore LinkClickCountDocuments true;
       EvSend 5
         (stats_message 3 today week month premium 0
            (toLocaleString (reference_env None always always) 90000000))
         html true] ++ rest ∧
    0 ≤ today ≤ week ∧ week ≤ month ∧ month ≤ 3 ∧ 0 ≤ premium ≤ 3.
Proof.
  apply (X11_stats_counts_nested (reference_env None always always)
           (msg_5 "/stats") stats_world).
  - intros k. reflexivity.
  - reflexivity.
Defined.

(** * Beyond the claims: what the patterns match *)

(** [search] succeeds exactly when the matcher succeeds at some suffix. *)
Lemma search_is_Some {A} (m : string → option A) s :
  is_Some (Re.search m s) ↔ ∃ pre t, s = pre +:+ t ∧ is_Some (m t).
Proof.
  induction s as [|a s IH]; simpl.
  - destruct (m "") eqn:Hm.
    + split; [|by eauto]. intros _. exists "", "". by rewrite Hm.
    + split; [by intros []|].
      intros (pre & t & Hs & Ht). destruct pre, t; try done.
      rewrite Hm in Ht. by destruct Ht.
  - destruct (m (String a s)) eqn:Hm.
    + split; [|by eauto]. intros _. exists "", (String a s). by rewrite Hm.
    + rewrite IH. split.
      * intros (pre & t & -> & Ht). by exists (String a pre), t.
      * intros (pre & t & Hs & Ht). destruct pre as [|b pre].
        -- rewrite append_nil_l in Hs. subst t. rewrite Hm in Ht.
           by destruct Ht.
        -- rewrite append_cons in Hs. injection Hs as -> ->.
           by exists pre, t.
Qed.

Lemma literal_is_Some {A B} (f : A → B) (g : string → option A) lit s :
  (∀ t, is_Some (g t) ↔ ∃ post, t = lit +:+ post) →
  is_Some (Re.search (λ t, f <$> g t) s) ↔
  ∃ pre post, s = pre +:+ lit +:+ post.
Proof.
  intros Hg. rewrite search_is_Some. split.
  - intros (pre & t & -> & Ht). rewrite fmap_is_Some in Ht.
    apply Hg in Ht as [post ->]. by exists pre, post.
  - intros (pre & post & ->). exists pre, (lit +:+ post). split; [done|].
    rewrite fmap_is_Some. apply Hg. by exists post.
Qed.

Lemma stripPrefix_is_Some lit t :
  is_Some (Js.stripPrefix lit t) ↔ ∃ post, t = lit +:+ post.
Proof.
  split.
  - intros [r Hr]. exists r. by apply stripPrefix_Some.
  - intros [post ->]. exists post. by apply stripPrefix_Some.
Qed.

(** X12.  The patterns are not anchored.  Six of the seven patterns match
    a text exactly when the text contains the command literal somewhere:
    not only at the start, and also when more characters follow it (the
    [/start] pattern matches [/starting], the [/stats] pattern matches a
    sentence that mentions [/stats]). *)
Theorem X12_patterns_unanchored t :
  (is_Some (Re.start t) ↔ ∃ pre post, t = pre +:+ "/start" +:+ post) ∧
  (is_Some (Re.stats t) ↔ ∃ pre post, t = pre +:+ "/stats" +:+ post) ∧
  (is_Some (Re.toplinks t) ↔ ∃ pre post, t = pre +:+ "/toplinks" +:+ post) ∧
  (is_Some (Re.recentusers t) ↔
   ∃ pre post, t = pre +:+ "/recentusers" +:+ post) ∧
  (is_Some (Re.userinfo t) ↔ ∃ pre post, t = pre +:+ "/userinfo" +:+ post) ∧
  (is_Some (Re.adminhelp t) ↔
   ∃ pre post, t = pre +:+ "/adminhelp" +:+ post).
Proof.
  unfold Re.start, Re.stats, Re.toplinks, Re.recentusers, Re.userinfo,
    Re.adminhelp.
  split_and!; apply literal_is_Some; intros t'; apply stripPrefix_is_Some.
Qed.

(** X13.  A broadcast text is one non-empty line.  When the [/broadcast]
    pattern matches, its capture (the text that the handler sends to every
    recipient) is not empty, contains no line terminator (LF, CR, U+2028 or
    U+2029), and is what follows [/broadcast ] in the text up to the end of
    the text or the first line terminator: whatever comes after a line
    terminator is not sent. *)
Theorem X13_broadcast_text_one_line t message :
  Re.broadcast t = Some message →
  message ≠ "" ∧
  (∀ cp p q, cp ∈ Js.lineTerminators → message ≠ p +:+ Js.utf8 cp +:+ q) ∧
  ∃ pre post,
    t = pre +:+ "/broadcast " +:+ message +:+ post ∧
    (post = "" ∨ ∃ cp r, cp ∈ Js.lineTerminators ∧ post = Js.utf8 cp +:+ r).
Proof.
  unfold Re.broadcast. intros (pre & t' & -> & Hm)%search_suffix.
  destruct (Js.stripPrefix "/broadcast " t') as [r|] eqn:Hr; [|done].
  apply stripPrefix_Some in Hr as ->. simpl in Hm.
  unfold Re.dotPlus in Hm.
  destruct (Js.truthy _) eqn:Htruthy; [|done]. injection Hm as <-.
  destruct (dotStar_spec r) as (post & Hr & Hpost & Hno).
  split_and!.
  - unfold Js.truthy in Htruthy. by case_bool_decide.
  - done.
  - exists pre, post. split; [|done]. by rewrite <-Hr.
Qed.

Lemma X13_broadcast_text_one_line_witness :
  "line one" ≠ "" ∧
  (∀ cp p q, cp ∈ Js.lineTerminators →
             "line one" ≠ p +:+ Js.utf8 cp +:+ q) ∧
  ∃ pre post,
    "hi /broadcast line one" +:+ line_separator +:+ "line two" =
      pre +:+ "/broadcast " +:+ "line one" +:+ post ∧
    (post = "" ∨ ∃ cp r, cp ∈ Js.lineTerminators ∧ post = Js.utf8 cp +:+ r).
Proof.
  apply (X13_broadcast_text_one_line
           ("hi /broadcast line one" +:+ line_separator +:+ "line two")
           "line one").
  reflexivity.
Defined.

(** * Beyond the claims: a broadcast that cannot start *)

(** X14.  A broadcast that cannot start reaches nobody.  For an authorized
    caller: when the store rejects the read of the users, or when the
    gateway refuses the announcement, the handler sends nothing to any
    recipient; its only further call is the error reply to the invoker. *)
Theorem X14_broadcast_aborts env msg message w :
  unauthorized env (id (from msg)) = false →
  (store_ok env (queries w) = false →
   new_events w (on_broadcast env msg message w).2 =
     [EvStore UserFind false;
      EvSend (chat_id msg) "❌ Error during broadcast." plain
        (send_ok env (sends w))]) ∧
  (store_ok env (queries w) = true → send_ok env (sends w) = false →
   new_events w (on_broadcast env msg message w).2 =
     [EvStore UserFind true;
      EvSend (chat_id msg)
        (broadcast_start_text (length (users w))) plain false;
      EvSend (chat_id msg) "❌ Error during broadcast." plain
        (send_ok env (S (sends w)))]).
Proof.
  intros Hauth. unfold on_broadcast. rewrite Hauth.
  unfold broadcast_authorized, try_catch. split.
  - intros Hq. unfold mbind at 1, M_bind at 1. unfold User_find_userId.
    unfold storeCall. rewrite Hq. cbn beta iota.
    apply new_events_app. unfold sendMessage. by trace_norm.
  - intros Hq Hsend. unfold mbind at 1, M_bind at 1. unfold User_find_userId.
    rewrite storeCall_ok by done. cbn [fst snd].
    cbn [users record count_query]. rewrite length_fmap.
    unfold mbind at 1, M_bind at 1. unfold sendMessage at 1.
    cbn [sends record count_query]. rewrite Hsend. cbn beta iota.
    apply new_events_app. unfold sendMessage. by trace_norm.
Qed.

Lemma X14_broadcast_aborts_witness :
  new_events three_users
    (on_broadcast (reference_env None (λ k, negb (k =? 0)%nat) always)
       (msg_5 "/broadcast hello") "hello" three_users).2 =
    [EvStore UserFind true;
     EvSend 5 (broadcast_start_text 3) plain false;
     EvSend 5 "❌ Error during broadcast." plain true].
Proof.
  apply (proj2 (X14_broadcast_aborts
                  (reference_env None (λ k, negb (k =? 0)%nat) always)
                  (msg_5 "/broadcast hello") "hello" three_users eq_refl));
    reflexivity.
Defined.

(** * Beyond the claims: limits as typed *)

Lemma takeWhile_whole p s :
  (∀ c, c ∈ String.list_ascii_of_string s → p c = true) →
  Js.takeWhile p s = s.
Proof.
  induction s as [|a s IH]; intros Hall; [done|]. simpl.
  rewrite Hall by (simpl; left). f_equal. apply IH.
  intros c Hc. apply Hall. simpl. by right.
Qed.

(** The capture of a limit pattern on [<command> <digits>]. *)
Lemma spacesThenDigits_digits s :
  s ≠ "" →
  (∀ c, c ∈ String.list_ascii_of_string s → Js.isDigit c = true) →
  Re.spacesThenDigits (String " " s) = Some s.
Proof.
  intros Hne Hall. unfold Re.spacesThenDigits.
  destruct s as [|a s]; [done|].
  destruct (isDigit_value a) as (Hws & _); [apply Hall; simpl; left|].
  change (Js.afterSpaces (String " " (String a s)))
    with (String a s :: Js.afterSpaces (String a s)).
  rewrite afterSpaces_not_lead by done. cbn [last].
  rewrite takeWhile_whole by done.
  unfold Js.truthy. by rewrite bool_decide_false.
Qed.

(** X15.  A typed limit is the limit used.  For every [n] from 1 to
    [Number.MAX_SAFE_INTEGER], the texts [/toplinks n] and [/recentusers n]
    (with [n] in decimal) are matched with the digits of [n] as capture,
    and the limit computed from that capture is [n]. *)
Theorem X15_typed_limit_is_used n :
  1 ≤ n ≤ Js.MAX_SAFE_INTEGER →
  Re.toplinks ("/toplinks " +:+ Js.toString n) = Some (Some (Js.toString n)) ∧
  Re.recentusers ("/recentusers " +:+ Js.toString n) =
    Some (Some (Js.toString n)) ∧
  parse_limit (Some (Js.toString n)) = n.
Proof.
  intros [Hn _]. destruct (parseInt_toString n) as (Hparse & _).
  assert (Js.toString n ≠ "" ∧
          ∀ c, c ∈ String.list_ascii_of_string (Js.toString n) →
               Js.isDigit c = true) as [Hne Hall].
  { destruct n as [|p|p]; [lia| |lia].
    unfold Js.toString, pretty, pretty_Z, pretty, pretty_positive, pretty,
      pretty_N.
    rewrite decide_False by done. split.
    - rewrite pretty_N_go_step by done. by apply pretty_N_go_nonempty.
    - apply pretty_N_go_digits. intros c Hc. by apply elem_of_nil in Hc. }
  split_and!.
  - unfold Re.toplinks.
    change (Re.search ?m ("/toplinks " +:+ ?s))
      with (Some (Re.spacesThenDigits (String " " s))).
    by rewrite spacesThenDigits_digits.
  - unfold Re.recentusers.
    change (Re.search ?m ("/recentusers " +:+ ?s))
      with (Some (Re.spacesThenDigits (String " " s))).
    by rewrite spacesThenDigits_digits.
  - unfold parse_limit, Js.parseInt. rewrite Hparse. unfold Js.num_or.
    destruct (Z.eqb_spec n 0); [lia|done].
Qed.

Lemma X15_typed_limit_is_used_witness :
  Re.toplinks ("/toplinks " +:+ Js.toString 25) =
    Some (Some (Js.toString 25)) ∧
  Re.recentusers ("/recentusers " +:+ Js.toString 25) =
    Some (Some (Js.toString 25)) ∧
  parse_limit (Some (Js.toString 25)) = 25.
Proof. apply (X15_typed_limit_is_used 25). by vm_compute. Defined.

(** * Beyond the claims: a store that rejects *)

(** X17.  A rejected store call is answered with the error reply.  For an
    authorized caller: if any of the six counts of [/stats] is rejected, the
    handler sends no report, and its only call to the gateway is the error
    reply; if the aggregate of [/toplinks] or the query of [/recentusers]
    is rejected, the handler does nothing but send its error reply. *)
Theorem X17_store_failure_error_reply env msg w :
  unauthorized env (id (from msg)) = false →
  (∀ k, (k < 6)%nat → store_ok env (queries w + k) = false →
   gateway_events (new_events w (on_stats env msg () w).2) =
     [EvSend (chat_id msg) "❌ Error fetching statistics." plain
        (send_ok env (sends w))]) ∧
  (∀ match1, store_ok env (queries w) = false →
   new_events w (on_toplinks env msg match1 w).2 =
     [EvStore LinkClickAggregate false;
      EvSend (chat_id msg) "❌ Error fetching top links." plain
        (send_ok env (sends w))]) ∧
  (∀ match1, store_ok env (queries w) = false →
   new_events w (on_recentusers env msg match1 w).2 =
     [EvStore UserFind false;
      EvSend (chat_id msg) "❌ Error fetching recent users." plain
        (send_ok env (sends w))]).
Proof.
  intros Hauth. split_and!.
  - intros k Hk Hfail. unfold on_stats. rewrite Hauth.
    unfold stats_authorized, try_catch.
    unfold mbind, M_bind, User_countDocuments, LinkClick_countDocuments,
      newDate, storeCall.
    destruct (store_ok env (queries w)) eqn:H0; cbn [fst snd];
      cbn [queries record count_query];
      [destruct (store_ok env (S (queries w))) eqn:H1; cbn [fst snd];
       cbn [queries record count_query];
       [destruct (store_ok env (S (S (queries w)))) eqn:H2; cbn [fst snd];
        cbn [queries record count_query];
        [destruct (store_ok env (S (S (S (queries w))))) eqn:H3;
         cbn [fst snd]; cbn [queries record count_query];
         [destruct (store_ok env (S (S (S (S (queries w)))))) eqn:H4;
          cbn [fst snd]; cbn [queries record count_query];
          [destruct (store_ok env (S (S (S (S (S (queries w))))))) eqn:H5;
           cbn [fst snd]; cbn [queries record count_query]|]|]|]|]|].
    + exfalso.
      assert (k = 0 ∨ k = 1 ∨ k = 2 ∨ k = 3 ∨ k = 4 ∨ k = 5)%nat
        as Hcases by lia.
      repeat destruct Hcases as [->|Hcases]; try subst k;
        rewrite ?Nat.add_0_r, <-?Nat.add_succ_comm, ?Nat.add_0_r in Hfail;
        congruence.
    + erewrite new_events_app;
        [|unfold sendMessage; trace_norm; reflexivity]. reflexivity.
    + erewrite new_events_app;
        [|unfold sendMessage; trace_norm; reflexivity]. reflexivity.
    + erewrite new_events_app;
        [|unfold sendMessage; trace_norm; reflexivity]. reflexivity.
    + erewrite new_events_app;
        [|unfold sendMessage; trace_norm; reflexivity]. reflexivity.
    + erewrite new_events_app;
        [|unfold sendMessage; trace_norm; reflexivity]. reflexivity.
    + erewrite new_events_app;
        [|unfold sendMessage; trace_norm; reflexivity]. reflexivity.
  - intros match1 Hq. unfold on_toplinks. rewrite Hauth.
    unfold toplinks_authorized, try_catch, mbind, M_bind, LinkClick_aggregate,
      storeCall.
    rewrite Hq. cbn beta iota.
    apply new_events_app. unfold sendMessage. by trace_norm.
  - intros match1 Hq. unfold on_recentusers. rewrite Hauth.
    unfold recentusers_authorized, try_catch, mbind, M_bind,
      User_find_recent, storeCall.
    rewrite Hq. cbn beta iota.
    apply new_events_app. unfold sendMessage. by trace_norm.
Qed.

Lemma X17_store_failure_error_reply_witness :
  gateway_events
    (new_events stats_world
       (on_stats (reference_env None always (λ k, negb (k =? 3)%nat))
          (msg_5 "/stats") () stats_world).2) =
    [EvSend 5 "❌ Error fetching statistics." plain true].
Proof.
  apply (proj1 (X17_store_failure_error_reply
                  (reference_env None always (λ k, negb (k =? 3)%nat))
                  (msg_5 "/stats") stats_world eq_refl) 3%nat);
    [lia|reflexivity].
Defined.
